(** * Census feature pipeline of [trainer/util.py]

  A shallow embedding of the data cleaning, categorical encoding and
  z-score normalisation code that the notebook
  [ai_platform_qwik_start.ipynb] writes to [trainer/util.py], together
  with the properties of that code.

  Conventions of the embedding.
  - Text is [string]; a character stands for one code point below 256.
  - A pandas column is a [series]: its dtype is the constructor, its
    values the list underneath.
  - Floating-point values are [fval], the IEEE 754 values of the
    library's [SpecFloat]: signed zeros, infinities, NaN and finite
    values [m * 2^e].  Every operation is rounded to the nearest value
    of its format, ties to even: [binary32] for a [float32] column,
    [binary64] where pandas computes in [float64].
  - Code that can raise returns a [result]; code that touches the file
    system or the network threads a [world].
  - The input pipeline of [trainer/model.py] and the arguments that
    [trainer/task.py] hands to [fit] are modelled on lists: a dataset is
    the list of its elements, a batched dataset a list of lists. *)

From Stdlib Require Import String Ascii List ZArith Bool Lia.
From Stdlib Require Import SpecFloat Permutation.
Import ListNotations.

Local Open Scope list_scope.
Local Open Scope string_scope.

(* ================================================================== *)
(** ** Python string primitives used by the cleaning pass *)

Module PyStr.

(** The line terminator ['\n']. *)
Definition nl : string := String "010"%char EmptyString.

(** [str.isspace] on one character (code points below 256):
    TAB..CR, FS..US, SPACE, NEL and NBSP. *)
Definition isspace (c : ascii) : bool :=
  let n := nat_of_ascii c in
  (((9 <=? n) && (n <=? 13)) || ((28 <=? n) && (n <=? 32))
   || (n =? 133) || (n =? 160))%nat.

(** [s.lstrip()] *)
Fixpoint lstrip (s : string) : string :=
  match s with
  | EmptyString => EmptyString
  | String c s' => if isspace c then lstrip s' else s
  end.

(** [s.rstrip()] *)
Fixpoint rstrip (s : string) : string :=
  match s with
  | EmptyString => EmptyString
  | String c s' =>
      match rstrip s' with
      | EmptyString => if isspace c then EmptyString else String c EmptyString
      | r => String c r
      end
  end.

(** [s.strip()] *)
Definition strip (s : string) : string := rstrip (lstrip s).

(** [s.replace(old, new)] for a non-empty [old]: occurrences are replaced
    from left to right and do not overlap.  [skip] counts the characters
    of a matched occurrence that are still to be consumed. *)
Fixpoint replace_from (skip : nat) (old new s : string) : string :=
  match s with
  | EmptyString => EmptyString
  | String c s' =>
      match skip with
      | S k => replace_from k old new s'
      | O =>
          if prefix old s
          then new ++ replace_from (String.length old - 1) old new s'
          else String c (replace_from 0 old new s')
      end
  end.

Definition replace (old new s : string) : string := replace_from 0 old new s.

(** [c in s] for a one-character [c]. *)
Fixpoint contains (c : ascii) (s : string) : bool :=
  match s with
  | EmptyString => false
  | String d s' => Ascii.eqb c d || contains c s'
  end.

(** [s[-1]], when [s] is not empty. *)
Fixpoint last_char (s : string) : option ascii :=
  match s with
  | EmptyString => None
  | String c EmptyString => Some c
  | String _ s' => last_char s'
  end.

(** [s[:-1]] *)
Fixpoint drop_last (s : string) : string :=
  match s with
  | EmptyString => EmptyString
  | String _ EmptyString => EmptyString
  | String c s' => String c (drop_last s')
  end.

(** [s.count(c)] for a one-character [c]. *)
Fixpoint count_char (c : ascii) (s : string) : nat :=
  match s with
  | EmptyString => 0
  | String d s' => (if Ascii.eqb c d then 1 else 0) + count_char c s'
  end.

(** [len(s.split(','))]: the number of comma-separated fields. *)
Definition nfields (s : string) : nat := S (count_char "," s).

(** [s[-1] == '.'] guarded by [s] being non-empty. *)
Definition ends_with_period (s : string) : bool :=
  match last_char s with
  | Some c => Ascii.eqb c "."
  | None => false
  end.

(** Iterating over a [tf.io.gfile.GFile] opened for reading: the lines,
    each with its terminator ['\n'].  The reader drops every carriage
    return it meets, wherever it stands; what follows the last
    terminator is a line of its own unless nothing is left of it. *)
Fixpoint readlines (s : string) : list string :=
  match s with
  | EmptyString => []
  | String c s' =>
      if Ascii.eqb c "010" then String c EmptyString :: readlines s'
      else if Ascii.eqb c "013" then readlines s'
      else match readlines s' with
           | [] => [String c EmptyString]
           | l :: ls => String c l :: ls
           end
  end.

End PyStr.

(* ================================================================== *)
(** ** The cleaning pass of [_download_and_clean_file] *)

Module Cleaning.
Import PyStr.

(** The first two statements of the loop body: [line.strip()] and then
    [line.replace(', ', ',')]. *)
Definition normalized (line : string) : string :=
  replace ", " "," (strip line).

(** The body of the [for line in temp_file_object] loop.  [None] is the
    [continue] branch (nothing is written), [Some out] is the text handed
    to [file_object.write]. *)
Definition clean_line (line : string) : option string :=
  let line := strip line in
  let line := replace ", " "," line in
  if (line =? "") || negb (contains "," line) then None
  else
    let line := if ends_with_period line then drop_last line else line in
    Some (line ++ nl).

(** The whole loop: the calls of [file_object.write], in order. *)
Definition written (ls : list string) : list string :=
  flat_map (fun l => match clean_line l with
                     | Some out => [out]
                     | None => []
                     end) ls.

(** What the destination file holds once something has been written. *)
Definition clean_lines (ls : list string) : string :=
  String.concat "" (written ls).

Definition clean_file (content : string) : string :=
  clean_lines (readlines content).

End Cleaning.

(* ================================================================== *)
(** ** The cleaning pass in the words of the specification *)

(** The five steps of the specification, written on the characters of a
    line with list functions only: nothing here refers to the string
    primitives that the code calls. *)
Module CleaningSpec.

(** The white space of a line (code points below 256): TAB, LF, VT, FF,
    CR, the four separators FS to US, SPACE, NEL and NBSP. *)
Definition whitespace : list ascii :=
  [ "009"; "010"; "011"; "012"; "013"; "028"; "029"; "030"; "031";
    "032"; "133"; "160" ]%char.

Definition blank (c : ascii) : bool := existsb (Ascii.eqb c) whitespace.

Fixpoint drop_while (p : ascii -> bool) (l : list ascii) : list ascii :=
  match l with
  | [] => []
  | c :: l' => if p c then drop_while p l' else l
  end.

(** Trim surrounding whitespace. *)
Definition trim_step (l : list ascii) : list ascii :=
  rev (drop_while blank (rev (drop_while blank l))).

(** Normalize [", "] to [","], reading from the left. *)
Fixpoint comma_step (l : list ascii) : list ascii :=
  match l with
  | [] => []
  | c :: l' =>
      match l' with
      | d :: l'' =>
          if Ascii.eqb c "," && Ascii.eqb d " "
          then c :: comma_step l''
          else c :: comma_step l'
      | [] => [c]
      end
  end.

(** Discard the line if it is empty or contains no comma. *)
Definition discard_step (l : list ascii) : option (list ascii) :=
  match l with
  | [] => None
  | _ :: _ => if existsb (Ascii.eqb ",") l then Some l else None
  end.

(** Strip a trailing period if the last character is one. *)
Definition period_step (l : list ascii) : list ascii :=
  match rev l with
  | c :: r => if Ascii.eqb c "." then rev r else l
  | [] => l
  end.

(** Append a line terminator. *)
Definition terminate_step (l : list ascii) : list ascii := l ++ ["010"%char].

Definition cleaning_pass_spec (line : string) : option string :=
  option_map
    (fun k => string_of_list_ascii (terminate_step (period_step k)))
    (discard_step (comma_step (trim_step (list_ascii_of_string line)))).

End CleaningSpec.

(* ================================================================== *)
(** ** Exceptions *)

Inductive error : Type :=
| KeyError (keys : list string)      (* a label that is not there *)
| URLError (url : string)            (* the remote resource is unreachable *)
| OSError (path : string)            (* the file system refuses *)
| Unsupported (what : string).       (* pandas behaviour outside the model *)

Inductive result (A : Type) : Type :=
| Ok (a : A)
| Err (e : error).

Arguments Ok {A} a.
Arguments Err {A} e.

Definition bind {A B : Type} (r : result A) (k : A -> result B) : result B :=
  match r with
  | Ok a => k a
  | Err e => Err e
  end.

Notation "x <- r ;; k" := (bind r (fun x => k))
  (at level 61, r at next level, right associativity).
Notation "' p <- r ;; k" := (bind r (fun x => let p := x in k))
  (at level 61, p pattern, r at next level, right associativity).

(** [mapM] for [result]: the first error, left to right, wins. *)
Fixpoint traverse {A B : Type} (f : A -> result B) (l : list A)
  : result (list B) :=
  match l with
  | [] => Ok []
  | a :: l' =>
      b <- f a ;;
      bs <- traverse f l' ;;
      Ok (b :: bs)
  end.

(* ================================================================== *)
(** ** Floating-point values and column statistics *)

Module Float.

(** An IEEE 754 value.  The format is not part of the value: it is the
    operation that rounds, to [binary32] (24 bits of precision) or to
    [binary64] (53 bits). *)
Definition fval : Type := spec_float.

Definition NaN : fval := S754_nan.
Definition zero : fval := S754_zero false.
Definition neg_zero : fval := S754_zero true.

Definition is_nan (v : fval) : bool :=
  match v with S754_nan => true | _ => false end.

(** Arithmetic on [float32] ... *)
Definition add32 : fval -> fval -> fval := SFadd 24 128.
Definition sub32 : fval -> fval -> fval := SFsub 24 128.
Definition div32 : fval -> fval -> fval := SFdiv 24 128.
Definition sqrt32 : fval -> fval := SFsqrt 24 128.

(** ... and on [float64]. *)
Definition add64 : fval -> fval -> fval := SFadd 53 1024.
Definition sub64 : fval -> fval -> fval := SFsub 53 1024.
Definition mul64 : fval -> fval -> fval := SFmul 53 1024.
Definition div64 : fval -> fval -> fval := SFdiv 53 1024.

(** [astype] between the two float formats: the nearest value of the
    target format. *)
Definition round (prec emax : Z) (v : fval) : fval :=
  match v with
  | S754_finite s m e => binary_normalize prec emax (cond_Zopp s (Zpos m)) e s
  | _ => v
  end.

Definition to32 : fval -> fval := round 24 128.
Definition to64 : fval -> fval := round 53 1024.

(** [astype] from an integer: the nearest value of the target format
    (an integer above [2^24] need not be a [float32]). *)
Definition of_Z32 (z : Z) : fval := binary_normalize 24 128 z 0 false.
Definition of_Z64 (z : Z) : fval := binary_normalize 53 1024 z 0 false.

(** *** [numpy.sum] on a one-dimensional float array *)

Section Sum.

(** The addition of the accumulator's format. *)
Variable add : fval -> fval -> fval.

(** [r[k] += a[i + k]] for the eight lanes. *)
Fixpoint add_lanes (r x : list fval) : list fval :=
  match r, x with
  | a :: r', b :: x' => add a b :: add_lanes r' x'
  | _, _ => r
  end.

(** The unrolled loop: whole groups of eight are added lane by lane;
    what is left over is returned with the lanes. *)
Fixpoint unrolled (fuel : nat) (r rest : list fval)
  : list fval * list fval :=
  match fuel with
  | O => (r, rest)
  | S fuel' =>
      if (8 <=? length rest)%nat
      then unrolled fuel' (add_lanes r (firstn 8 rest)) (skipn 8 rest)
      else (r, rest)
  end.

Definition lanes_sum (r : list fval) : fval :=
  match r with
  | [r0; r1; r2; r3; r4; r5; r6; r7] =>
      add (add (add r0 r1) (add r2 r3)) (add (add r4 r5) (add r6 r7))
  | _ => neg_zero
  end.

(** Eight to 128 elements. *)
Definition block_sum (a : list fval) : fval :=
  let (r, rest) := unrolled (length a) (firstn 8 a) (skipn 8 a) in
  fold_left add rest (lanes_sum r).

(** numpy's pairwise summation: fewer than eight elements are added
    from the left, starting from [-0.0]; up to 128 go through the
    unrolled loop; a longer array is cut in two at a multiple of eight. *)
Fixpoint pairwise_sum (fuel : nat) (a : list fval) : fval :=
  let n := length a in
  if (n <? 8)%nat then fold_left add a neg_zero
  else if (n <=? 128)%nat then block_sum a
  else
    match fuel with
    | O => block_sum a
    | S fuel' =>
        let n2 := (n / 2)%nat in
        let n2 := (n2 - n2 mod 8)%nat in
        add (pairwise_sum fuel' (firstn n2 a))
            (pairwise_sum fuel' (skipn n2 a))
    end.

(** Pieces of at most [size] elements. *)
Fixpoint pieces (fuel size : nat) (a : list fval) : list (list fval) :=
  match fuel with
  | O => []
  | S fuel' =>
      match a with
      | [] => []
      | _ :: _ => firstn size a :: pieces fuel' size (skipn size a)
      end
  end.

(** [a.sum()] in the array's own format: the pairwise sum, added to the
    initial [0.0]. *)
Definition sum (a : list fval) : fval :=
  add zero (pairwise_sum (length a) a).

(** [a.sum(dtype=...)] when the elements have to be cast first: the
    array goes through the cast buffer, 8192 elements at a time, and
    the pairwise sum of each buffer is added to the running total. *)
Definition buffer_size : nat := 64 * 128.

Definition sum_buffered (a : list fval) : fval :=
  fold_left (fun acc c => add acc (pairwise_sum (length c) c))
            (pieces (length a) buffer_size a) zero.

End Sum.

(** *** The pandas reductions, with their default [skipna=True] *)

(** A missing value counts as [0] in a sum... *)
Definition fillna (v : fval) : fval := if is_nan v then zero else v.

(** ... and is left out of the count. *)
Definition count (l : list fval) : nat :=
  length (filter (fun v => negb (is_nan v)) l).

(** [Series.mean()] on a [float32] column: sum and count are [float32],
    and so is their quotient. *)
Definition mean (l : list fval) : fval :=
  let n := count l in
  if (n =? 0)%nat then NaN
  else div32 (sum add32 (map fillna l)) (of_Z32 (Z.of_nat n)).

(** [Series.var()] on a [float32] column with the default [ddof=1]:
    missing when fewer than two values are present.  The average and
    the squares are taken in [float64] (the mean of the values is a
    [float64] scalar, and so are the differences to it); the counts are
    [float32]; the result is rounded back to [float32]. *)
Definition var (l : list fval) : fval :=
  let n := count l in
  if (n <=? 1)%nat then NaN
  else
    let cnt := of_Z32 (Z.of_nat n) in
    let d := sub32 cnt (of_Z32 1) in
    let avg :=
      div64 (sum_buffered add64 (map to64 (map fillna l))) (to64 cnt) in
    let sqr :=
      map (fun v => if is_nan v then zero
                    else let a := sub64 avg (to64 v) in mul64 a a) l in
    to32 (div64 (sum add64 sqr) (to64 d)).

(** [Series.std()]: the sample standard deviation, a [float32]. *)
Definition std (l : list fval) : fval := sqrt32 (var l).

End Float.

(* ================================================================== *)
(** ** Data frames *)

Module Frame.
Import Float.

(** A Python value held by an [object] column.  A missing entry is the
    float NaN, as [read_csv] leaves it for the token [?]. *)
Inductive pyobj : Type :=
| PStr (s : string)
| PInt (z : Z)
| PFloat (f : fval).

Definition missing : pyobj := PFloat NaN.

(** A column: the constructor is the dtype. *)
Inductive series : Type :=
| SInt64 (l : list Z)
| SInt8 (l : list Z)
| SFloat32 (l : list fval)
| SFloat64 (l : list fval)
| SObject (l : list pyobj).

(** [str(series.dtype)] *)
Definition dtype_str (s : series) : string :=
  match s with
  | SInt64 _ => "int64"
  | SInt8 _ => "int8"
  | SFloat32 _ => "float32"
  | SFloat64 _ => "float64"
  | SObject _ => "object"
  end.

Definition series_len (s : series) : nat :=
  match s with
  | SInt64 l | SInt8 l => length l
  | SFloat32 l | SFloat64 l => length l
  | SObject l => length l
  end.

(** A row label: the position given by [read_csv], possibly under the
    outer keys that [concat(..., keys=...)] adds. *)
Inductive label : Type :=
| Row (i : nat)
| Keyed (k : string) (l : label).

(** A frame: row labels and named columns, in order.  Column names are
    distinct in every frame the program builds ([read_csv] is given the
    fifteen distinct names of [_CSV_COLUMNS]). *)
Record DataFrame : Type := mkDF {
  index : list label;
  columns : list (string * series)
}.

Definition names (df : DataFrame) : list string := map fst (columns df).

Definition mem (s : string) (l : list string) : bool :=
  existsb (String.eqb s) l.

(** [df[name]]: the column of that name. *)
Fixpoint get_col (name : string) (cols : list (string * series))
  : option series :=
  match cols with
  | [] => None
  | (n, s) :: cols' => if String.eqb name n then Some s else get_col name cols'
  end.

(** [df[name] = s] for a column that exists. *)
Definition set_col (name : string) (s : series)
           (cols : list (string * series)) : list (string * series) :=
  map (fun c => if String.eqb name (fst c) then (fst c, s) else c) cols.

(** The range index of a freshly parsed frame of [n] rows. *)
Definition range_index (n : nat) : list label := map Row (seq 0 n).

(** *** Constants of [util.py] *)

Definition _CSV_COLUMNS : list string :=
  [ "age"; "workclass"; "fnlwgt"; "education"; "education_num";
    "marital_status"; "occupation"; "relationship"; "race"; "gender";
    "capital_gain"; "capital_loss"; "hours_per_week"; "native_country";
    "income_bracket" ].

Definition _LABEL_COLUMN : string := "income_bracket".

Definition UNUSED_COLUMNS : list string := ["fnlwgt"; "education"; "gender"].

Definition _CATEGORICAL_TYPES : list (string * list string) :=
  [ ("workclass",
     [ "Federal-gov"; "Local-gov"; "Never-worked"; "Private"; "Self-emp-inc";
       "Self-emp-not-inc"; "State-gov"; "Without-pay" ]);
    ("marital_status",
     [ "Divorced"; "Married-AF-spouse"; "Married-civ-spouse";
       "Married-spouse-absent"; "Never-married"; "Separated"; "Widowed" ]);
    ("occupation",
     [ "Adm-clerical"; "Armed-Forces"; "Craft-repair"; "Exec-managerial";
       "Farming-fishing"; "Handlers-cleaners"; "Machine-op-inspct";
       "Other-service"; "Priv-house-serv"; "Prof-specialty"; "Protective-serv";
       "Sales"; "Tech-support"; "Transport-moving" ]);
    ("relationship",
     [ "Husband"; "Not-in-family"; "Other-relative"; "Own-child"; "Unmarried";
       "Wife" ]);
    ("race",
     [ "Amer-Indian-Eskimo"; "Asian-Pac-Islander"; "Black"; "Other"; "White" ]);
    ("native_country",
     [ "Cambodia"; "Canada"; "China"; "Columbia"; "Cuba"; "Dominican-Republic";
       "Ecuador"; "El-Salvador"; "England"; "France"; "Germany"; "Greece";
       "Guatemala"; "Haiti"; "Holand-Netherlands"; "Honduras"; "Hong";
       "Hungary";
       "India"; "Iran"; "Ireland"; "Italy"; "Jamaica"; "Japan"; "Laos";
       "Mexico";
       "Nicaragua"; "Outlying-US(Guam-USVI-etc)"; "Peru"; "Philippines";
       "Poland";
       "Portugal"; "Puerto-Rico"; "Scotland"; "South"; "Taiwan"; "Thailand";
       "Trinadad&Tobago"; "United-States"; "Vietnam"; "Yugoslavia" ]);
    ("income_bracket", [ "<=50K"; ">50K" ]) ].

(** [_CATEGORICAL_TYPES[name]] *)
Fixpoint categorical_type_in (name : string)
         (table : list (string * list string)) : result (list string) :=
  match table with
  | [] => Err (KeyError [name])
  | (n, cats) :: table' =>
      if String.eqb name n then Ok cats else categorical_type_in name table'
  end.

Definition categorical_type (name : string) : result (list string) :=
  categorical_type_in name _CATEGORICAL_TYPES.

(** *** [preprocess] *)

(** [dataframe.drop(columns=labels)]: every label has to be there. *)
Definition drop (labels : list string) (df : DataFrame) : result DataFrame :=
  match filter (fun l => negb (mem l (names df))) labels with
  | [] => Ok (mkDF (index df)
                   (filter (fun c => negb (mem (fst c) labels)) (columns df)))
  | absent => Err (KeyError absent)
  end.

(** [x.astype('float32')] on an [int64] column: every integer goes to
    the nearest [float32].  Other dtypes are not selected by
    [select_dtypes(['int64'])] and stay as they are. *)
Definition widen (s : series) : series :=
  match s with
  | SInt64 l => SFloat32 (map of_Z32 l)
  | _ => s
  end.

(** [Index.get_loc]: the position of a category in the vocabulary. *)
Fixpoint get_loc (s : string) (cats : list string) : option nat :=
  match cats with
  | [] => None
  | c :: cats' =>
      if String.eqb s c then Some 0
      else option_map S (get_loc s cats')
  end.

(** The code of one value under a vocabulary: its position, or [-1] for
    a missing value and for anything that is not in the vocabulary. *)
Definition code_of (cats : list string) (o : pyobj) : Z :=
  match o with
  | PStr s =>
      match get_loc s cats with
      | Some i => Z.of_nat i
      | None => (-1)%Z
      end
  | PInt _ | PFloat _ => (-1)%Z
  end.

(** A pandas [Categorical]: the vocabulary and one code per row. *)
Record Categorical : Type := mkCat {
  categories : list string;
  codes : list Z
}.

(** [x.astype(CategoricalDtype(categories=cats))] on an object column. *)
Definition astype_category (cats : list string) (l : list pyobj)
  : Categorical :=
  mkCat cats (map (code_of cats) l).

(** [x.cat.codes]: an [int8] column (every vocabulary of
    [_CATEGORICAL_TYPES] has fewer than 128 entries). *)
Definition cat_codes (c : Categorical) : series := SInt8 (codes c).

(** The two [apply] passes over the object columns, column by column:
    the first looks the vocabulary up by the column's name and can raise,
    the second cannot.  On a frame without rows [DataFrame.apply] does
    not run the two functions at all and hands back a copy: the object
    columns, which are as long as the index and so all empty, stay as
    they are, whatever their names. *)
Definition encode_column (c : string * series) : result (string * series) :=
  match snd c with
  | SObject [] => Ok c
  | SObject l =>
      cats <- categorical_type (fst c) ;;
      Ok (fst c, cat_codes (astype_category cats l))
  | _ => Ok c
  end.

Definition preprocess (dataframe : DataFrame) : result DataFrame :=
  dataframe <- drop UNUSED_COLUMNS dataframe ;;
  let dataframe :=
    mkDF (index dataframe)
         (map (fun c => (fst c, widen (snd c))) (columns dataframe)) in
  cols <- traverse encode_column (columns dataframe) ;;
  Ok (mkDF (index dataframe) cols).

(** *** [standardize] *)

(** [dataframe[column] -= dataframe[column].mean()] followed by
    [dataframe[column] /= dataframe[column].std()]: the deviation is
    taken on the column that is already centred, and both updates are
    [float32] operations, element by element. *)
Definition zscore (l : list fval) : list fval :=
  let m := mean l in
  let centred := map (fun v => sub32 v m) l in
  let s := std centred in
  map (fun v => div32 v s) centred.

(** The two in-place updates on a column whose dtype string is
    ["float32"] (with distinct column names no other column is ever
    looked up by the loop). *)
Definition standardize_series (s : series) : series :=
  match s with
  | SFloat32 l => SFloat32 (zscore l)
  | _ => s
  end.

(** One turn of the loop over [dtypes]. *)
Definition standardize_step (cols : list (string * series))
           (cd : string * string) : list (string * series) :=
  let (column, dtype) := cd in
  if String.eqb dtype "float32" then
    match get_col column cols with
    | Some s => set_col column (standardize_series s) cols
    | None => cols
    end
  else cols.

Definition standardize (dataframe : DataFrame) : DataFrame :=
  let dtypes := map (fun c => (fst c, dtype_str (snd c))) (columns dataframe) in
  mkDF (index dataframe) (fold_left standardize_step dtypes (columns dataframe)).

(** *** The pandas and numpy calls of [load_data] *)

(** [dataframe.pop(name)]: the column, and the frame without it. *)
Definition pop (name : string) (df : DataFrame)
  : result (series * DataFrame) :=
  match get_col name (columns df) with
  | Some s =>
      Ok (s, mkDF (index df)
                  (filter (fun c => negb (String.eqb name (fst c)))
                          (columns df)))
  | None => Err (KeyError [name])
  end.

Definition to_objects (s : series) : list pyobj :=
  match s with
  | SInt64 l | SInt8 l => map PInt l
  | SFloat32 l | SFloat64 l => map PFloat l
  | SObject l => l
  end.

(** The values of a numeric column cast to [float32] and to [float64]. *)
Definition as_float32 (s : series) : list fval :=
  match s with
  | SInt64 l | SInt8 l => map of_Z32 l
  | SFloat32 l => l
  | SFloat64 l => map to32 l
  | SObject _ => []
  end.

Definition as_float64 (s : series) : list fval :=
  match s with
  | SInt64 l | SInt8 l => map of_Z64 l
  | SFloat32 l => map to64 l
  | SFloat64 l => l
  | SObject _ => []
  end.

(** Two columns put end to end under their common dtype (numpy's
    promotion: [int8] and [float32] give [float32], [int64] and
    [float32] give [float64], anything with [object] gives [object]),
    each half cast to it. *)
Definition concat_series (a b : series) : series :=
  match a, b with
  | SInt8 x, SInt8 y => SInt8 (x ++ y)
  | SInt64 x, (SInt64 y | SInt8 y) | SInt8 x, SInt64 y => SInt64 (x ++ y)
  | SFloat32 _, (SFloat32 _ | SInt8 _) | SInt8 _, SFloat32 _ =>
      SFloat32 (as_float32 a ++ as_float32 b)
  | SFloat64 _, (SFloat64 _ | SFloat32 _ | SInt64 _ | SInt8 _)
  | (SFloat32 _ | SInt64 _ | SInt8 _), SFloat64 _
  | SFloat32 _, SInt64 _ | SInt64 _, SFloat32 _ =>
      SFloat64 (as_float64 a ++ as_float64 b)
  | SObject _, _ | _, SObject _ => SObject (to_objects a ++ to_objects b)
  end.

(** [pd.concat([a, b], keys=[ka, kb])] for two frames with the same
    column names in the same order, which is what [load_data] passes
    (both come from [read_csv] with [names=_CSV_COLUMNS] and the same
    [preprocess]).  Frames whose columns differ are outside the model. *)
Definition concat (ka : string) (a : DataFrame) (kb : string) (b : DataFrame)
  : result DataFrame :=
  if list_eq_dec string_dec (names a) (names b) then
    Ok (mkDF (map (Keyed ka) (index a) ++ map (Keyed kb) (index b))
             (map (fun cc => (fst (fst cc),
                              concat_series (snd (fst cc)) (snd (snd cc))))
                  (combine (columns a) (columns b))))
  else Err (Unsupported "concat: the two frames have different columns").

(** The rows kept by a boolean mask. *)
Fixpoint select {A : Type} (mask : list bool) (l : list A) : list A :=
  match mask, l with
  | true :: mask', a :: l' => a :: select mask' l'
  | false :: mask', _ :: l' => select mask' l'
  | _, _ => []
  end.

Definition select_series (mask : list bool) (s : series) : series :=
  match s with
  | SInt64 l => SInt64 (select mask l)
  | SInt8 l => SInt8 (select mask l)
  | SFloat32 l => SFloat32 (select mask l)
  | SFloat64 l => SFloat64 (select mask l)
  | SObject l => SObject (select mask l)
  end.

Definition has_key (k : string) (l : label) : bool :=
  match l with
  | Keyed k' _ => String.eqb k k'
  | Row _ => false
  end.

Definition drop_level (l : label) : label :=
  match l with
  | Keyed _ l' => l'
  | Row _ => l
  end.

(** [df.xs(key)]: the rows under the outer key, without that level. *)
Definition xs (key : string) (df : DataFrame) : result DataFrame :=
  let mask := map (has_key key) (index df) in
  if existsb (fun b => b) mask then
    Ok (mkDF (map drop_level (select mask (index df)))
             (map (fun c => (fst c, select_series mask (snd c))) (columns df)))
  else Err (KeyError [key]).

(** [np.asarray(y).astype('float32')] on a numeric column, and on an
    object column that has no element to convert. *)
Definition asarray_float32 (s : series) : result (list fval) :=
  match s with
  | SObject [] => Ok []
  | SObject _ => Err (Unsupported "asarray: object column")
  | _ => Ok (as_float32 s)
  end.

(** [a.reshape((-1, 1))]: one row per element. *)
Definition reshape_column {A : Type} (a : list A) : list (list A) :=
  map (fun v => [v]) a.

(** *** The body of [load_data] after the two [read_csv] calls *)

Record Loaded : Type := mkLoaded {
  train_x : DataFrame;
  train_y : list (list fval);
  eval_x : DataFrame;
  eval_y : list (list fval)
}.

(** The frame handed to [standardize]: both splits encoded, the label
    column taken out of each, then joined under the keys. *)
Definition combined (train_df eval_df : DataFrame)
  : result (series * series * DataFrame) :=
  train_df <- preprocess train_df ;;
  eval_df <- preprocess eval_df ;;
  ' (train_y, train_x) <- pop _LABEL_COLUMN train_df ;;
  ' (eval_y, eval_x) <- pop _LABEL_COLUMN eval_df ;;
  all_x <- concat "train" train_x "eval" eval_x ;;
  Ok (train_y, eval_y, all_x).

Definition load_data_from (train_df eval_df : DataFrame) : result Loaded :=
  ' (train_y, eval_y, all_x) <- combined train_df eval_df ;;
  let all_x := standardize all_x in
  train_x <- xs "train" all_x ;;
  eval_x <- xs "eval" all_x ;;
  train_y <- asarray_float32 train_y ;;
  eval_y <- asarray_float32 eval_y ;;
  Ok (mkLoaded train_x (reshape_column train_y)
               eval_x (reshape_column eval_y)).

End Frame.

(* ================================================================== *)
(** ** [download]: the file system and the network *)

Module Fetch.
Import PyStr Cleaning.

(** What a path names. *)
Inductive node : Type :=
| File (content : string)
| Dir.

(** The part of the outside world that [download] reads or changes:
    the file system, the URLs retrieved so far (latest first) and the
    number of temporary files handed out. *)
Record world : Type := mkWorld {
  fs : string -> option node;
  requests : list string;
  temps : nat
}.

(** An action on the world that can raise. *)
Definition IO (A : Type) : Type := world -> result A * world.

Definition ret {A : Type} (a : A) : IO A := fun w => (Ok a, w).

Definition raise {A : Type} (e : error) : IO A := fun w => (Err e, w).

Definition bindIO {A B : Type} (m : IO A) (k : A -> IO B) : IO B :=
  fun w =>
    match m w with
    | (Ok a, w') => k a w'
    | (Err e, w') => (Err e, w')
    end.

Declare Scope io_scope.
Delimit Scope io_scope with io.
Notation "x <~ m ;; k" := (bindIO m (fun x => k))
  (at level 61, m at next level, right associativity) : io_scope.
Notation "m ;;; k" := (bindIO m (fun _ => k))
  (at level 61, right associativity) : io_scope.
Local Open Scope io_scope.

Definition write_node (path : string) (n : option node) (w : world) : world :=
  mkWorld (fun p => if String.eqb p path then n else fs w p)
          (requests w) (temps w).

(** [tf.io.gfile.exists(path)]: a file or a directory is there. *)
Definition exists_ (path : string) : IO bool :=
  fun w => (Ok (match fs w path with Some _ => true | None => false end), w).

(** [tf.io.gfile.makedirs(path)]: nothing to do for a directory that is
    there, an error when a file is in the way.  Parent directories are
    not tracked. *)
Definition makedirs (path : string) : IO unit :=
  fun w =>
    match fs w path with
    | Some (File _) => (Err (OSError path), w)
    | Some Dir => (Ok tt, w)
    | None => (Ok tt, write_node path (Some Dir) w)
    end.

(** Reading a whole file through [GFile(path, 'r')]. *)
Definition read_file (path : string) : IO string :=
  fun w =>
    match fs w path with
    | Some (File c) => (Ok c, w)
    | _ => (Err (OSError path), w)
    end.

(** A file opened through [GFile(path, 'w')] and written to: what was
    there is replaced. *)
Definition write_file (path content : string) : IO unit :=
  fun w =>
    match fs w path with
    | Some Dir => (Err (OSError path), w)
    | _ => (Ok tt, write_node path (Some (File content)) w)
    end.

(** The [with GFile(path, 'w')] block around a sequence of [write]
    calls.  The file is opened by the first [write]: when nothing is
    written, no file is created and the path is not even looked at. *)
Definition write_lines (path : string) (lines : list string) : IO unit :=
  match lines with
  | [] => fun w => (Ok tt, w)
  | _ :: _ => write_file path (String.concat "" lines)
  end.

(** [tf.io.gfile.remove(path)] *)
Definition remove (path : string) : IO unit :=
  fun w =>
    match fs w path with
    | Some (File _) => (Ok tt, write_node path None w)
    | _ => (Err (OSError path), w)
    end.

(** [os.path.join(a, b)] on POSIX paths. *)
Definition ends_with_slash (a : string) : bool :=
  match last_char a with
  | Some c => Ascii.eqb c "/"
  | None => false
  end.

Definition path_join (a b : string) : string :=
  if prefix "/" b then b
  else if (a =? "") || ends_with_slash a then a ++ b
  else a ++ "/" ++ b.

(** Download options of [util.py]. *)
Definition DATA_URL : string :=
  "https://storage.googleapis.com/cloud-samples-data/ai-platform/census/data".
Definition TRAINING_FILE : string := "adult.data.csv".
Definition EVAL_FILE : string := "adult.test.csv".
Definition TRAINING_URL : string := DATA_URL ++ "/" ++ TRAINING_FILE.
Definition EVAL_URL : string := DATA_URL ++ "/" ++ EVAL_FILE.

Section Remote.

(** What each URL serves ([None]: unreachable), and the names of the
    temporary files that [urlretrieve] creates. *)
Variable remote : string -> option string.
Variable temp_name : nat -> string.

(** [urllib.request.urlretrieve(url)]: one network request; the body
    goes to a new temporary file whose name is returned. *)
Definition urlretrieve (url : string) : IO string :=
  fun w =>
    let w1 := mkWorld (fs w) (url :: requests w) (temps w) in
    match remote url with
    | None => (Err (URLError url), w1)
    | Some body =>
        let temp_file := temp_name (temps w) in
        (Ok temp_file,
         mkWorld (fun p => if String.eqb p temp_file
                           then Some (File body) else fs w p)
                 (url :: requests w) (S (temps w)))
    end.

Definition _download_and_clean_file (filename url : string) : IO unit :=
  temp_file <~ urlretrieve url ;;
  content <~ read_file temp_file ;;
  write_lines filename (written (readlines content)) ;;;
  remove temp_file.

Definition download (data_dir : string) : IO (string * string) :=
  makedirs data_dir ;;;
  let training_file_path := path_join data_dir TRAINING_FILE in
  present <~ exists_ training_file_path ;;
  (if negb present
   then _download_and_clean_file training_file_path TRAINING_URL
   else ret tt) ;;;
  let eval_file_path := path_join data_dir EVAL_FILE in
  present <~ exists_ eval_file_path ;;
  (if negb present
   then _download_and_clean_file eval_file_path EVAL_URL
   else ret tt) ;;;
  ret (training_file_path, eval_file_path).

End Remote.

End Fetch.

(* ================================================================== *)
(** ** [load_data] from the outside world *)

Module Load.
Import Frame Fetch.
Local Open Scope io_scope.

Section Environment.

(** The network and the temporary files, as in [Fetch]; the directory
    that [tempfile.gettempdir()] returns; and what
    [pd.read_csv(path, names=_CSV_COLUMNS, na_values='?')] makes of the
    text of a file (pandas' parser is not modelled). *)
Variable remote : string -> option string.
Variable temp_name : nat -> string.
Variable tempdir : string.
Variable read_csv : string -> result DataFrame.

Definition DATA_DIR : string := path_join tempdir "census_data".

Definition lift {A : Type} (r : result A) : IO A := fun w => (r, w).

Definition load_data : IO Loaded :=
  paths <~ download remote temp_name DATA_DIR ;;
  train_text <~ read_file (fst paths) ;;
  train_df <~ lift (read_csv train_text) ;;
  eval_text <~ read_file (snd paths) ;;
  eval_df <~ lift (read_csv eval_text) ;;
  lift (load_data_from train_df eval_df).

End Environment.

End Load.

(* ================================================================== *)
(** ** Reading the code's results *)

Module View.
Import Float Frame.

(** The columns that [drop(columns=UNUSED_COLUMNS)] keeps. *)
Definition kept (name : string) : bool := negb (mem name UNUSED_COLUMNS).

(** What [preprocess] makes of the column [s] named [name]. *)
Definition encoded (name : string) (s : series) : result series :=
  match widen s with
  | SObject [] => Ok (SObject [])
  | SObject l =>
      cats <- categorical_type name ;;
      Ok (cat_codes (astype_category cats l))
  | t => Ok t
  end.

(** What one turn of the [standardize] loop makes of a column. *)
Definition standardize_column (c : string * series) : string * series :=
  (fst c, standardize_series (snd c)).


(** The text in row [i] of the object column [name]. *)
Definition value_at (name : string) (i : nat) (df : DataFrame)
  : option pyobj :=
  match get_col name (columns df) with
  | Some (SObject l) => nth_error l i
  | _ => None
  end.

(** The category code in row [i] of the encoded column [name]. *)
Definition code_at (name : string) (i : nat) (df : DataFrame) : option Z :=
  match get_col name (columns df) with
  | Some (SInt8 l) => nth_error l i
  | _ => None
  end.

(** A value that belongs to a vocabulary. *)
Definition in_vocabulary (cats : list string) (o : pyobj) : Prop :=
  exists s, o = PStr s /\ In s cats.

(** The frames on which [preprocess] does not raise: the three unused
    columns are there to be dropped and every remaining object column
    that has a row has a vocabulary under its name.  Nothing is asked
    of the values. *)
Definition encodable (df : DataFrame) : Prop :=
  (forall u, In u UNUSED_COLUMNS -> In u (names df))
  /\ (forall n l, In (n, SObject l) (columns df) -> kept n = true ->
                  l <> [] -> exists cats, categorical_type n = Ok cats).

(** A column [c] and what [preprocess] returns for it when it keeps
    it: the same name and length; an [int64] column as the [float32]
    values of its integers, an object column as the codes of its
    entries under the vocabulary of its name (an object column without
    rows as it is), any other column unchanged. *)
Definition retained (c c' : string * series) : Prop :=
  fst c' = fst c
  /\ series_len (snd c') = series_len (snd c)
  /\ match snd c with
     | SInt64 l => snd c' = SFloat32 (map of_Z32 l)
     | SObject [] => snd c' = SObject []
     | SObject l =>
         exists cats,
           categorical_type (fst c) = Ok cats
           /\ snd c' = SInt8 (map (code_of cats) l)
     | s => snd c' = s
     end.

(** A frame with at least one row, every column as long as the index. *)
Definition populated (df : DataFrame) : Prop :=
  index df <> []
  /\ Forall (fun c => series_len (snd c) = length (index df)) (columns df).

(** The columns that [read_csv] infers here: [int64] when every field
    is an integer, [float64] when every field is a number or missing
    (so also when every field is missing), [object] otherwise, that is
    when at least one field is text. *)
Definition csv_dtype (s : series) : Prop :=
  match s with
  | SInt64 _ | SFloat64 _ => True
  | SObject l => exists t, In (PStr t) l
  | SInt8 _ | SFloat32 _ => False
  end.

(** A frame as [read_csv(path, names=_CSV_COLUMNS, na_values='?')]
    returns it: the fifteen columns, at least one row, a range index,
    columns as long as the index, inferred dtypes. *)
Definition parsed (df : DataFrame) : Prop :=
  names df = _CSV_COLUMNS
  /\ index df = range_index (length (index df))
  /\ index df <> []
  /\ Forall (fun c => series_len (snd c) = length (index df)) (columns df)
  /\ Forall (fun c => csv_dtype (snd c)) (columns df).

(** The columns that [preprocess] leaves of a parsed frame: widened
    integers, untouched [float64], category codes. *)
Definition encoded_shape (s : series) : Prop :=
  match s with
  | SFloat32 _ | SFloat64 _ | SInt8 _ => True
  | SInt64 _ | SObject _ => False
  end.

(** One column of [concat]: the two halves under their common dtype. *)
Definition joined (cc : (string * series) * (string * series))
  : string * series :=
  (fst (fst cc), concat_series (snd (fst cc)) (snd (snd cc))).

(** The declared vocabulary of a column (empty when it has none). *)
Definition vocabulary (name : string) : list string :=
  match categorical_type name with
  | Ok cats => cats
  | Err _ => []
  end.





(** The masks that [xs] builds on the index of the combined frame. *)
Definition train_mask (train_df eval_df : DataFrame) : list bool :=
  map (fun _ => true) (index train_df) ++ map (fun _ => false) (index eval_df).

Definition eval_mask (train_df eval_df : DataFrame) : list bool :=
  map (fun _ => false) (index train_df) ++ map (fun _ => true) (index eval_df).

End View.

(** ** Sample inputs *)

Module Scenario.
Import Float Frame Fetch.

Definition raw_line : string :=
  "39, State-gov, 77516, Bachelors, 13, Never-married, Adm-clerical, Not-in-family, White, Male, 2174, 0, 40, United-States, <=50K.".

Definition cleaned_line : string :=
  "39,State-gov,77516,Bachelors,13,Never-married,Adm-clerical,Not-in-family,White,Male,2174,0,40,United-States,<=50K".

(** Two parsed rows of the training file; the second has no work class
    and a country outside the vocabulary. *)
Definition sample_train : DataFrame :=
  mkDF (range_index 2)
    [ ("age", SInt64 [39; 50]%Z);
      ("workclass", SObject [PStr "State-gov"; missing]);
      ("fnlwgt", SInt64 [77516; 83311]%Z);
      ("education", SObject [PStr "Bachelors"; PStr "Bachelors"]);
      ("education_num", SInt64 [13; 13]%Z);
      ("marital_status", SObject [PStr "Never-married"; PStr "Married-civ-spouse"]);
      ("occupation", SObject [PStr "Adm-clerical"; PStr "Exec-managerial"]);
      ("relationship", SObject [PStr "Not-in-family"; PStr "Husband"]);
      ("race", SObject [PStr "White"; PStr "White"]);
      ("gender", SObject [PStr "Male"; PStr "Male"]);
      ("capital_gain", SInt64 [2174; 0]%Z);
      ("capital_loss", SFloat64 [zero; NaN]);
      ("hours_per_week", SInt64 [40; 13]%Z);
      ("native_country", SObject [PStr "Holand-Netherlands"; PStr "Atlantis"]);
      ("income_bracket", SObject [PStr "<=50K"; PStr ">50K"]) ].

(** One parsed row of the evaluation file. *)
Definition sample_eval : DataFrame :=
  mkDF (range_index 1)
    [ ("age", SInt64 [25]%Z);
      ("workclass", SObject [PStr "Private"]);
      ("fnlwgt", SInt64 [226802]%Z);
      ("education", SObject [PStr "11th"]);
      ("education_num", SInt64 [7]%Z);
      ("marital_status", SObject [PStr "Never-married"]);
      ("occupation", SObject [PStr "Machine-op-inspct"]);
      ("relationship", SObject [PStr "Own-child"]);
      ("race", SObject [PStr "Black"]);
      ("gender", SObject [PStr "Male"]);
      ("capital_gain", SInt64 [0]%Z);
      ("capital_loss", SInt64 [0]%Z);
      ("hours_per_week", SInt64 [40]%Z);
      ("native_country", SObject [PStr "Holand-Netherlands"]);
      ("income_bracket", SObject [PStr "<=50K"]) ].



(** A sample with one column parsed otherwise. *)
Definition with_column (name : string) (s : series) (df : DataFrame)
  : DataFrame :=
  mkDF (index df) (set_col name s (columns df)).

(** Every record has the same age, 39 ... *)
Definition same_age_train : DataFrame :=
  with_column "age" (SInt64 [39; 39]%Z) sample_train.
Definition same_age_eval : DataFrame :=
  with_column "age" (SInt64 [39]%Z) sample_eval.

(** ... or the same fee, 6241171, as capital gain. *)
Definition same_gain_train : DataFrame :=
  with_column "capital_gain" (SInt64 [6241171; 6241171]%Z) sample_train.
Definition same_gain_eval : DataFrame :=
  with_column "capital_gain" (SInt64 [6241171]%Z) sample_eval.

(** Two files of one record each, with capital gains that [float32]
    holds exactly but whose sum it does not. *)
Definition large_gain_train : DataFrame :=
  with_column "capital_gain" (SInt64 [16777216]%Z) sample_eval.
Definition large_gain_eval : DataFrame :=
  with_column "capital_gain" (SInt64 [16777218]%Z) sample_eval.

(** A training file in which every work class is [?]: the column is
    parsed as [float64]. *)
Definition no_workclass_train : DataFrame :=
  with_column "workclass" (SFloat64 [NaN; NaN]) sample_train.



(** A cache directory that holds both cleaned files. *)
Definition cached_world : world :=
  mkWorld (fun p =>
             if p =? "/tmp/census_data" then Some Dir
             else if p =? "/tmp/census_data/adult.data.csv"
                  then Some (File "39,State-gov")
             else if p =? "/tmp/census_data/adult.test.csv"
                  then Some (File "25,Private")
             else None)
          [] 0.

End Scenario.

(* ================================================================== *)
(** ** Lines that the cleaning pass leaves as they are *)

Module LineView.
Import PyStr.

(** [s[0]], when [s] is not empty. *)
Definition first_char (s : string) : option ascii :=
  match s with
  | EmptyString => None
  | String c _ => Some c
  end.

(** White space at either end: what [strip] removes. *)
Definition padded (s : string) : bool :=
  match first_char s, last_char s with
  | Some c, Some d => isspace c || isspace d
  | _, _ => false
  end.

(** [', ' in s] *)
Fixpoint has_comma_space (s : string) : bool :=
  match s with
  | EmptyString => false
  | String _ s' => prefix ", " s || has_comma_space s'
  end.

(** Neither ['\n'] nor ['\r'] in [s]. *)
Definition nl_free (s : string) : bool :=
  negb (contains "010" s) && negb (contains "013" s).

(** A line in the form the cleaning pass aims at: at least one comma, no
    white space around it, no space after a comma, no final period, no
    line break and no carriage return inside. *)
Definition tidy (l : string) : bool :=
  contains "," l && negb (padded l) && negb (has_comma_space l)
  && negb (ends_with_period l) && nl_free l.

(** The text of a file made of the given lines, each terminated. *)
Definition unlines (ls : list string) : string :=
  String.concat "" (map (fun l => l ++ nl) ls).

(** A file of which the cleaning pass keeps at least one line. *)
Definition keeps_a_line (content : string) : Prop :=
  Cleaning.written (readlines content) <> [].

End LineView.

(* ================================================================== *)
(** ** Reading the encoded table back *)

Module Decode.
Import Float Frame View.

(** [categories[k]] for a code [k]: the text of a category, nothing for
    the code of a missing value. *)
Definition decode (cats : list string) (k : Z) : option string :=
  if (k <? 0)%Z then None else nth_error cats (Z.to_nat k).

(** The dtype of a column after [preprocess], from its dtype before. *)
Definition dtype_after (dtype : string) : string :=
  if String.eqb dtype "int64" then "float32"
  else if String.eqb dtype "object" then "int8"
  else dtype.

(** An input column and the column that [preprocess] returns for it. *)
Definition encoded_as (c c' : string * series) : Prop :=
  fst c' = fst c
  /\ series_len (snd c') = series_len (snd c)
  /\ dtype_str (snd c') = dtype_after (dtype_str (snd c)).

End Decode.

(* ================================================================== *)
(** ** The shape of what [load_data] returns *)

Module Shape.
Import Float Frame View.

(** The feature columns: [_CSV_COLUMNS] without the unused columns and
    without the label. *)
Definition feature_columns : list string :=
  filter (fun n => negb (String.eqb _LABEL_COLUMN n))
         (filter kept _CSV_COLUMNS).

(** The columns that [read_csv] is expected to parse as numbers. *)
Definition numeric_columns : list string :=
  ["age"; "education_num"; "capital_gain"; "capital_loss"; "hours_per_week"].

(** [df.shape] *)
Definition shape (df : DataFrame) : nat * nat :=
  (length (index df), length (columns df)).

End Shape.

(* ================================================================== *)
(** ** [trainer/model.py]: the input pipeline *)

Module Model.

(** What [tf.data] raises here. *)
Inductive failure : Type :=
| ValueError (what : string)
| InvalidArgumentError (what : string)
| ZeroDivisionError.

Inductive outcome (A : Type) : Type :=
| Done (a : A)
| Raise (e : failure).

Arguments Done {A} a.
Arguments Raise {A} e.

(** Fixed-size pieces of a list, the last one possibly shorter.  [fuel]
    bounds the number of pieces. *)
Fixpoint chunk {A : Type} (fuel size : nat) (l : list A) : list (list A) :=
  match fuel with
  | O => []
  | S fuel' =>
      match l with
      | [] => []
      | _ :: _ => firstn size l :: chunk fuel' size (skipn size l)
      end
  end.

Section InputFn.

(** A row of features and a row of labels. *)
Variables F L : Type.

(** One element of the dataset: a feature row, with its label row when
    labels are given. *)
Definition element : Type := (F * option L)%type.

(** The order in which the shuffle buffer hands out the elements during
    the [k]-th pass over the data (the buffer holds the whole data set
    and is refilled for every pass). *)
Variable draw : nat -> list element -> list element.

(** [tf.data.Dataset.from_tensor_slices(inputs)], where [inputs] is
    [features] when [labels is None] and [(features, labels)] otherwise:
    the two arrays must have as many rows. *)
Definition from_tensor_slices (features : list F) (labels : option (list L))
  : outcome (list element) :=
  match labels with
  | None => Done (map (fun f => (f, None)) features)
  | Some ls =>
      if Nat.eqb (length features) (length ls)
      then Done (map (fun p => (fst p, Some (snd p))) (combine features ls))
      else Raise (ValueError "features and labels differ in length")
  end.

(** The rows of [features] and [labels] can be paired. *)
Definition aligned (features : list F) (labels : option (list L)) : Prop :=
  match labels with
  | None => True
  | Some ls => length features = length ls
  end.

(** The elements of the dataset, in the order of the arrays. *)
Definition slices (features : list F) (labels : option (list L))
  : list element :=
  match labels with
  | None => map (fun f => (f, None)) features
  | Some ls => map (fun p => (fst p, Some (snd p))) (combine features ls)
  end.

(** [dataset.shuffle(buffer_size)]: what each pass yields. *)
Definition shuffle_ (buffer_size : nat) (dataset : list element)
  : outcome (nat -> list element) :=
  if Nat.eqb buffer_size 0
  then Raise (InvalidArgumentError "buffer_size must be greater than zero")
  else Done (fun k => draw k dataset).

(** [dataset.repeat(count)] for a count that is not negative: the passes
    one after the other.  ([None] and negative counts repeat without end
    and are outside the model.) *)
Definition repeat_ (count : nat) (passes : nat -> list element)
  : list element :=
  flat_map passes (seq 0 count).

(** [dataset.batch(batch_size)], keeping a last batch that is not full. *)
Definition batch (batch_size : nat) (dataset : list element)
  : outcome (list (list element)) :=
  if Nat.eqb batch_size 0
  then Raise (InvalidArgumentError "batch_size must be greater than zero")
  else Done (chunk (length dataset) batch_size dataset).

Definition input_fn (features : list F) (labels : option (list L))
           (shuffle : bool) (num_epochs batch_size : nat)
  : outcome (list (list element)) :=
  match from_tensor_slices features labels with
  | Raise e => Raise e
  | Done dataset =>
      match (if shuffle then shuffle_ (length features) dataset
             else Done (fun _ => dataset)) with
      | Raise e => Raise e
      | Done passes =>
          let dataset := repeat_ num_epochs passes in
          batch batch_size dataset
      end
  end.

(** What each pass over the data yields, in [input_fn]. *)
Definition pass (shuffle : bool) (dataset : list element) (k : nat)
  : list element :=
  if shuffle then draw k dataset else dataset.

End InputFn.

End Model.

(* ================================================================== *)
(** ** [trainer/task.py]: the arguments of [fit] *)

Module Task.
Import Model.

(** [int(num_train_examples / args.batch_size)] on counts (the quotient
    is taken exactly). *)
Definition steps_per_epoch (num_train_examples batch_size : nat)
  : outcome nat :=
  if Nat.eqb batch_size 0 then Raise ZeroDivisionError
  else Done (num_train_examples / batch_size).

Section Datasets.

Variables F L : Type.
Variable draw : nat -> list (element F L) -> list (element F L).

(** The two calls of [input_fn] in [train_and_evaluate]. *)
Definition training_dataset (features : list F) (labels : list L)
           (num_epochs batch_size : nat) :=
  input_fn F L draw features (Some labels) true num_epochs batch_size.

Definition validation_dataset (features : list F) (labels : list L)
           (num_epochs : nat) :=
  input_fn F L draw features (Some labels) false num_epochs (length features).

End Datasets.

End Task.

(* ================================================================== *)
(** ** More sample inputs *)

Module Samples.
Import PyStr Float Frame Fetch Scenario.

(** Two lines in the form the cleaning pass aims at. *)
Definition tidy_lines : list string :=
  [cleaned_line; "50,Self-emp-not-inc,83311,Bachelors,13,>50K"].

(** No file anywhere, nothing requested yet. *)
Definition cold_world : world := mkWorld (fun _ => None) [] 0.

(** The two files as a server sends them: the records of
    [sample_train] and of [sample_eval], the second file under the
    header line of the original. *)
Definition training_body : string :=
  "39, State-gov, 77516, Bachelors, 13, Never-married, Adm-clerical, Not-in-family, White, Male, 2174, 0, 40, Holand-Netherlands, <=50K"
  ++ nl ++
  "50, ?, 83311, Bachelors, 13, Married-civ-spouse, Exec-managerial, Husband, White, Male, 0, ?, 13, Atlantis, >50K"
  ++ nl.

Definition eval_body : string :=
  "|1x3 Cross validator" ++ nl ++
  "25, Private, 226802, 11th, 7, Never-married, Machine-op-inspct, Own-child, Black, Male, 0, 0, 40, Holand-Netherlands, <=50K."
  ++ nl.

(** What the cleaning pass makes of them. *)
Definition training_text : string :=
  "39,State-gov,77516,Bachelors,13,Never-married,Adm-clerical,Not-in-family,White,Male,2174,0,40,Holand-Netherlands,<=50K"
  ++ nl ++
  "50,?,83311,Bachelors,13,Married-civ-spouse,Exec-managerial,Husband,White,Male,0,?,13,Atlantis,>50K"
  ++ nl.

Definition eval_text : string :=
  "25,Private,226802,11th,7,Never-married,Machine-op-inspct,Own-child,Black,Male,0,0,40,Holand-Netherlands,<=50K"
  ++ nl.

(** A server with both files, one with the training file only, and none. *)
Definition census_remote (url : string) : option string :=
  if url =? TRAINING_URL then Some training_body
  else if url =? EVAL_URL then Some eval_body
  else None.

Definition training_only_remote (url : string) : option string :=
  if url =? TRAINING_URL then Some training_body else None.


Definition sample_temp (k : nat) : string := "/tmp/tmpq8l0zd3k".

(** What [read_csv] returns for the two cleaned texts; no other text is
    parsed here. *)
Definition sample_read_csv (text : string) : result DataFrame :=
  if text =? training_text then Ok sample_train
  else if text =? eval_text then Ok sample_eval
  else Err (Unsupported "read_csv: not one of the two sample texts").

(** A table of one row. *)
Definition single_row : DataFrame :=
  mkDF [Row 0] [ ("age", SFloat32 [of_Z32 39]); ("workclass", SInt8 [6]%Z) ].

(** Five examples, their labels, and a shuffle that reverses the data. *)
Definition five_features : list nat := [1; 2; 3; 4; 5].
Definition five_labels : list bool := [true; false; true; true; false].
Definition reversing (k : nat) (l : list (Model.element nat bool))
  : list (Model.element nat bool) := rev l.

End Samples.

(* ================================================================== *)
(** * Properties *)

(** ** Strings *)

Module PyStrFacts.
Import PyStr.

Lemma contains_count (c : ascii) (s : string) :
  contains c s = true <-> 1 <= count_char c s.
Proof.
  induction s as [|d s IH]; simpl.
  - split; [discriminate | lia].
  - destruct (Ascii.eqb c d); simpl.
    + split; [lia | reflexivity].
    + exact IH.
Qed.

Lemma contains_false_count (c : ascii) (s : string) :
  contains c s = false <-> count_char c s = 0.
Proof.
  destruct (contains c s) eqn:E.
  - apply contains_count in E. split; [discriminate | lia].
  - split; [intros _ | reflexivity].
    destruct (count_char c s) eqn:N; [reflexivity | exfalso].
    assert (H : contains c s = true) by (apply contains_count; lia).
    congruence.
Qed.

Lemma last_char_cons (c d : ascii) (s : string) :
  last_char (String c (String d s)) = last_char (String d s).
Proof. reflexivity. Qed.

Lemma drop_last_cons (c d : ascii) (s : string) :
  drop_last (String c (String d s)) = String c (drop_last (String d s)).
Proof. reflexivity. Qed.

(** Removing the last character removes one occurrence of it and none
    of any other character. *)
Lemma count_drop_last (c e : ascii) (s : string) :
  last_char s = Some e ->
  count_char c s
  = count_char c (drop_last s) + (if Ascii.eqb c e then 1 else 0).
Proof.
  induction s as [|d s IH]; [discriminate|].
  destruct s as [|d' s'].
  - simpl. intros [= ->]. lia.
  - rewrite last_char_cons, drop_last_cons. intros H.
    specialize (IH H).
    change (count_char c (String d (String d' s')))
      with ((if Ascii.eqb c d then 1 else 0) + count_char c (String d' s')).
    change (count_char c (String d (drop_last (String d' s'))))
      with ((if Ascii.eqb c d then 1 else 0)
            + count_char c (drop_last (String d' s'))).
    lia.
Qed.

Lemma nfields_drop_period (s : string) :
  ends_with_period s = true -> nfields (drop_last s) = nfields s.
Proof.
  unfold ends_with_period, nfields.
  destruct (last_char s) as [e|] eqn:L; [|discriminate].
  intros E. apply Ascii.eqb_eq in E. subst e.
  rewrite (count_drop_last "," "." s L). simpl. lia.
Qed.

Lemma eqb_empty (s : string) : (s =? "") = true <-> s = "".
Proof. apply String.eqb_eq. Qed.

(** Induction two characters at a time. *)
Lemma string_pair_ind (P : string -> Prop) :
  P "" ->
  (forall c, P (String c "")) ->
  (forall c d s, P s -> P (String d s) -> P (String c (String d s))) ->
  forall s, P s.
Proof.
  intros H0 H1 H2 s.
  assert (H : P s /\ forall c, P (String c s)).
  { induction s as [|d s [IHs IHc]]; [split; auto|].
    split; [apply IHc|]. intros c. apply H2; auto. }
  apply H.
Qed.

Lemma rstrip_cons (c : ascii) (s : string) :
  rstrip (String c s)
  = match rstrip s with
    | EmptyString => if isspace c then EmptyString else String c EmptyString
    | r => String c r
    end.
Proof. reflexivity. Qed.

(** [replace(', ', ',')], two equations. *)
Lemma replace_comma_space (s : string) :
  replace ", " "," (String "," (String " " s)) = String "," (replace ", " "," s).
Proof. unfold replace. destruct s; reflexivity. Qed.

Lemma replace_other (c : ascii) (s : string) :
  prefix ", " (String c s) = false ->
  replace ", " "," (String c s) = String c (replace ", " "," s).
Proof. unfold replace. cbn [replace_from]. now intros ->. Qed.

Lemma prefix_comma_space (c : ascii) (s : string) :
  prefix ", " (String c s) = true ->
  c = ","%char /\ exists s', s = String " " s'.
Proof.
  intros H. cbn [prefix] in H.
  destruct (ascii_dec "," c) as [<-|]; [|discriminate].
  destruct s as [|d s]; [discriminate|]. cbn [prefix] in H.
  destruct (ascii_dec " " d) as [<-|]; [|discriminate]. eauto.
Qed.

End PyStrFacts.

(** ** The cleaning pass *)

Module CleaningFacts.
Import PyStr Cleaning Scenario PyStrFacts.

(** What [clean_line] returns, in one equation. *)
Lemma clean_line_unfold (l : string) :
  clean_line l
  = if contains "," (normalized l)
    then Some ((if ends_with_period (normalized l)
                then drop_last (normalized l) else normalized l) ++ nl)
    else None.
Proof.
  unfold clean_line, normalized.
  set (k := replace ", " "," (strip l)).
  destruct (String.eqb_spec k "") as [E|_]; simpl.
  - rewrite E. reflexivity.
  - destruct (contains "," k); reflexivity.
Qed.

(** *** The string primitives, character by character *)

Lemma blank_isspace (c : ascii) : CleaningSpec.blank c = isspace c.
Proof. destruct c as [[] [] [] [] [] [] [] []]; reflexivity. Qed.

Lemma lstrip_chars (s : string) :
  list_ascii_of_string (lstrip s)
  = CleaningSpec.drop_while CleaningSpec.blank (list_ascii_of_string s).
Proof.
  induction s as [|c s IH]; [reflexivity|].
  cbn [lstrip list_ascii_of_string CleaningSpec.drop_while].
  rewrite blank_isspace. destruct (isspace c); [exact IH | reflexivity].
Qed.

Lemma drop_while_snoc (p : ascii -> bool) (l : list ascii) (c : ascii) :
  CleaningSpec.drop_while p (l ++ [c])%list
  = match CleaningSpec.drop_while p l with
    | [] => if p c then [] else [c]
    | r => (r ++ [c])%list
    end.
Proof.
  induction l as [|d l IH]; [reflexivity|].
  cbn [app CleaningSpec.drop_while].
  destruct (p d); [exact IH | reflexivity].
Qed.

Lemma rstrip_chars (s : string) :
  list_ascii_of_string (rstrip s)
  = rev (CleaningSpec.drop_while CleaningSpec.blank
           (rev (list_ascii_of_string s))).
Proof.
  induction s as [|c s IH]; [reflexivity|].
  rewrite rstrip_cons. cbn [list_ascii_of_string rev].
  rewrite drop_while_snoc, blank_isspace.
  destruct (CleaningSpec.drop_while CleaningSpec.blank
              (rev (list_ascii_of_string s))) as [|x r].
  - destruct (rstrip s); [|discriminate].
    now destruct (isspace c).
  - rewrite rev_app_distr. change (rev [c]) with [c]. cbn [app].
    rewrite <- IH.
    destruct (rstrip s) as [|y t] eqn:E; [|reflexivity].
    cbn [list_ascii_of_string] in IH. symmetry in IH.
    cbn [rev] in IH. now apply app_eq_nil in IH.
Qed.

Lemma strip_chars (s : string) :
  list_ascii_of_string (strip s)
  = CleaningSpec.trim_step (list_ascii_of_string s).
Proof.
  unfold strip, CleaningSpec.trim_step. now rewrite rstrip_chars, lstrip_chars.
Qed.

Lemma prefix_two (c d : ascii) (s : string) :
  prefix ", " (String c (String d s)) = Ascii.eqb c "," && Ascii.eqb d " ".
Proof.
  cbn [prefix].
  destruct (ascii_dec "," c) as [<-|N].
  - destruct (ascii_dec " " d) as [<-|M].
    + now destruct s.
    + destruct (Ascii.eqb_spec d " "); [now elim M | reflexivity].
  - destruct (Ascii.eqb_spec c ","); [now elim N | reflexivity].
Qed.

Lemma replace_chars (s : string) :
  list_ascii_of_string (replace ", " "," s)
  = CleaningSpec.comma_step (list_ascii_of_string s).
Proof.
  induction s as [| c | c d s IH1 IH2] using string_pair_ind.
  - reflexivity.
  - rewrite replace_other; [reflexivity|].
    destruct (prefix ", " (String c "")) eqn:P; [|reflexivity].
    apply prefix_comma_space in P. now destruct P as [_ [s' [=]]].
  - cbn [list_ascii_of_string CleaningSpec.comma_step].
    pose proof (prefix_two c d s) as P.
    destruct (Ascii.eqb c "," && Ascii.eqb d " ") eqn:E.
    + apply prefix_comma_space in P. destruct P as [-> [s' [= -> ->]]].
      rewrite replace_comma_space. cbn [list_ascii_of_string].
      now rewrite IH1.
    + rewrite replace_other by exact P. cbn [list_ascii_of_string].
      now rewrite IH2.
Qed.

Lemma contains_chars (c : ascii) (s : string) :
  contains c s = existsb (Ascii.eqb c) (list_ascii_of_string s).
Proof.
  induction s as [|d s IH]; [reflexivity|].
  cbn [contains list_ascii_of_string existsb]. now rewrite IH.
Qed.

Lemma last_char_some (c : ascii) (s : string) :
  exists d, last_char (String c s) = Some d.
Proof.
  revert c. induction s as [|e s IH]; intros c; [now exists c|].
  rewrite last_char_cons. apply IH.
Qed.

Lemma rev_chars (s : string) :
  rev (list_ascii_of_string s)
  = match last_char s with
    | Some c => c :: rev (list_ascii_of_string (drop_last s))
    | None => []
    end.
Proof.
  induction s as [|c s IH]; [reflexivity|].
  destruct s as [|d s']; [reflexivity|].
  rewrite last_char_cons, drop_last_cons.
  change (list_ascii_of_string (String c (String d s')))
    with (c :: list_ascii_of_string (String d s')).
  cbn [rev]. rewrite IH.
  destruct (last_char_some d s') as [x ->]. reflexivity.
Qed.

Lemma period_chars (s : string) :
  list_ascii_of_string (if ends_with_period s then drop_last s else s)
  = CleaningSpec.period_step (list_ascii_of_string s).
Proof.
  unfold CleaningSpec.period_step, ends_with_period. rewrite rev_chars.
  destruct (last_char s) as [c|]; [|reflexivity].
  destruct (Ascii.eqb c "."); [|reflexivity].
  now rewrite rev_involutive.
Qed.

Lemma string_of_chars_app (a b : list ascii) :
  string_of_list_ascii (a ++ b)%list
  = string_of_list_ascii a ++ string_of_list_ascii b.
Proof.
  induction a as [|c a IH]; [reflexivity|]. cbn. now rewrite IH.
Qed.

(** *** The loop body against the specification's five steps *)

Lemma clean_line_spec (l : string) :
  clean_line l = CleaningSpec.cleaning_pass_spec l.
Proof.
  rewrite clean_line_unfold. unfold CleaningSpec.cleaning_pass_spec.
  rewrite <- strip_chars, <- replace_chars. fold (normalized l).
  set (k := normalized l).
  unfold CleaningSpec.discard_step. rewrite <- contains_chars.
  destruct k as [|c k'] eqn:K; [reflexivity|].
  cbn [list_ascii_of_string]. rewrite <- K.
  destruct (contains "," k); [|reflexivity].
  cbn [option_map]. f_equal.
  change (c :: list_ascii_of_string k') with (list_ascii_of_string (String c k')).
  rewrite <- K, <- period_chars.
  unfold CleaningSpec.terminate_step.
  now rewrite string_of_chars_app, string_of_list_ascii_of_string.
Qed.

(** C6: on every line the loop body does what the five steps of the
    specification say, in their order: trim the surrounding white space,
    replace comma-space by comma from the left, discard a line that is
    empty or has no comma, strip one trailing period, append a newline.
    The steps are written on the characters of the line, independently
    of the string methods that the code calls.  The sample raw line
    becomes the expected cleaned line followed by a newline, alone and
    as the content of a file, and so does the same record surrounded
    by white space and a carriage return. *)
Theorem clean_line_steps :
  (forall l, clean_line l = CleaningSpec.cleaning_pass_spec l)
  /\ clean_line raw_line = Some (cleaned_line ++ nl)
  /\ clean_file (raw_line ++ nl) = cleaned_line ++ nl
  /\ clean_file (String "009" (" " ++ raw_line ++ "  " ++ String "013" nl))
     = cleaned_line ++ nl.
Proof.
  split; [exact clean_line_spec|]. repeat split.
Qed.

(** C4 (as amended): a line is dropped exactly when, once trimmed and
    comma-normalised, it has a single field (it is empty or has no
    comma); every other line is written whatever its number of fields.
    A written line is the normalised line without its last period, if
    it had one, followed by a newline: it has the same number of fields
    as the normalised line, at least two, and it still ends with a
    period only if the normalised line ended with two. *)
Theorem clean_line_retention (l : string) :
  match clean_line l with
  | Some out =>
      exists body,
        out = body ++ nl
        /\ body = (if ends_with_period (normalized l)
                   then drop_last (normalized l) else normalized l)
        /\ nfields body = nfields (normalized l)
        /\ 2 <= nfields body
        /\ (ends_with_period body = true ->
            ends_with_period (normalized l) = true
            /\ ends_with_period (drop_last (normalized l)) = true)
  | None => nfields (normalized l) = 1
  end.
Proof.
  rewrite clean_line_unfold.
  destruct (contains "," (normalized l)) eqn:C.
  - apply contains_count in C.
    eexists; split; [reflexivity|]; split; [reflexivity|].
    destruct (ends_with_period (normalized l)) eqn:P.
    + rewrite (nfields_drop_period _ P).
      unfold nfields. repeat split; auto; lia.
    + unfold nfields. repeat split; auto; try lia; congruence.
  - apply contains_false_count in C. unfold nfields. lia.
Qed.

(** C4, counterexample: a two-field line is written, not dropped, and a
    line ending with two periods is written with one of them left. *)
Lemma clean_line_keeps_short_rows :
  clean_line "a,b" = Some ("a,b" ++ nl)
  /\ nfields "a,b" = 2
  /\ clean_line "a,b.." = Some ("a,b." ++ nl)
  /\ ends_with_period "a,b." = true.
Proof. repeat split. Qed.

End CleaningFacts.

(** ** Column statistics *)

Module FloatFacts.
Import Float.
Local Open Scope list_scope.

Lemma div32_nan (v : fval) : div32 v NaN = NaN.
Proof. now destruct v. Qed.

Lemma count_length (l : list fval) : count l <= length l.
Proof. unfold count. apply filter_length_le. Qed.

Lemma mean_nil : mean [] = NaN.
Proof. reflexivity. Qed.

(** The variance of fewer than two values is missing. *)
Lemma var_short (l : list fval) : length l <= 1 -> var l = NaN.
Proof.
  intros H. unfold var. pose proof (count_length l) as C.
  destruct (Nat.leb_spec (count l) 1) as [_|N]; [reflexivity | lia].
Qed.

Lemma std_short (l : list fval) : length l <= 1 -> std l = NaN.
Proof. intros H. unfold std. now rewrite var_short. Qed.

End FloatFacts.

(** ** The z-score of a column *)

Module ZscoreFacts.
Import Float Frame FloatFacts.
Local Open Scope list_scope.

(** Every value is centred on the mean of the column and divided by the
    deviation of the centred column. *)
Lemma zscore_formula (vs : list fval) :
  zscore vs
  = map (fun v => div32 (sub32 v (mean vs))
                        (std (map (fun u => sub32 u (mean vs)) vs))) vs.
Proof. unfold zscore. now rewrite map_map. Qed.

Lemma zscore_length (vs : list fval) : length (zscore vs) = length vs.
Proof. rewrite zscore_formula. apply length_map. Qed.

(** A column of at most one row comes out missing. *)
Lemma zscore_short (vs : list fval) :
  length vs <= 1 -> zscore vs = map (fun _ => NaN) vs.
Proof.
  intros H. rewrite zscore_formula.
  rewrite std_short by now rewrite length_map.
  apply map_ext. intros v. apply div32_nan.
Qed.

End ZscoreFacts.


(** ** Columns of a frame *)

Module FrameFacts.
Import Float Frame View.
Local Open Scope list_scope.

Lemma mem_In (s : string) (l : list string) : mem s l = true <-> In s l.
Proof.
  unfold mem. rewrite existsb_exists. split.
  - intros [x [Hx E]]. apply String.eqb_eq in E. now subst.
  - intros H. exists s. split; [exact H | apply String.eqb_refl].
Qed.

Lemma mem_false (s : string) (l : list string) :
  mem s l = false <-> ~ In s l.
Proof.
  rewrite <- mem_In. destruct (mem s l); split; congruence.
Qed.

Lemma get_col_In (name : string) (cols : list (string * series)) (s : series) :
  get_col name cols = Some s -> In (name, s) cols.
Proof.
  induction cols as [|[n t] cols IH]; simpl; [discriminate|].
  destruct (String.eqb_spec name n) as [->|_].
  - intros [= ->]. now left.
  - intros H. right. now apply IH.
Qed.

Lemma get_col_None (name : string) (cols : list (string * series)) :
  get_col name cols = None <-> ~ In name (map fst cols).
Proof.
  induction cols as [|[n t] cols IH]; simpl; [tauto|].
  destruct (String.eqb_spec name n) as [->|N].
  - split; [discriminate | intros H; elim H; now left].
  - rewrite IH. split; [intros H [E|E]; [congruence|tauto] | tauto].
Qed.

Lemma In_get_col (name : string) (cols : list (string * series)) (s : series) :
  NoDup (map fst cols) -> In (name, s) cols -> get_col name cols = Some s.
Proof.
  induction cols as [|[n t] cols IH]; simpl; [contradiction|].
  intros Hnd [E|Hin].
  - injection E as -> ->. now rewrite String.eqb_refl.
  - inversion Hnd as [|? ? Hn Hnd']; subst.
    destruct (String.eqb_spec name n) as [->|_].
    + elim Hn. apply in_map_iff. now exists (n, s).
    + now apply IH.
Qed.

Lemma get_col_app (name : string) (pre cols : list (string * series)) :
  ~ In name (map fst pre) -> get_col name (pre ++ cols) = get_col name cols.
Proof.
  induction pre as [|[n t] pre IH]; simpl; [reflexivity|].
  intros H. destruct (String.eqb_spec name n) as [->|_]; [tauto|].
  apply IH. tauto.
Qed.

Lemma set_col_absent (name : string) (s : series)
      (cols : list (string * series)) :
  ~ In name (map fst cols) -> set_col name s cols = cols.
Proof.
  unfold set_col. induction cols as [|[n t] cols IH]; simpl; [reflexivity|].
  intros H. destruct (String.eqb_spec name n) as [->|_]; [tauto|].
  f_equal. apply IH. tauto.
Qed.

(** A name-preserving map over the columns commutes with lookup. *)
Lemma get_col_map (f : string -> series -> series) (name : string)
      (cols : list (string * series)) :
  get_col name (map (fun c => (fst c, f (fst c) (snd c))) cols)
  = option_map (f name) (get_col name cols).
Proof.
  induction cols as [|[n t] cols IH]; simpl; [reflexivity|].
  destruct (String.eqb_spec name n) as [->|_]; [reflexivity | exact IH].
Qed.

Lemma get_col_filter (keep : string -> bool) (name : string)
      (cols : list (string * series)) :
  get_col name (filter (fun c => keep (fst c)) cols)
  = if keep name then get_col name cols else None.
Proof.
  induction cols as [|[n t] cols IH]; simpl.
  - now destruct (keep name).
  - destruct (keep n) eqn:K; simpl.
    + destruct (String.eqb_spec name n) as [->|_]; [now rewrite K | exact IH].
    + destruct (String.eqb_spec name n) as [->|_]; [now rewrite IH, K | exact IH].
Qed.

Lemma dtype_float32 (s : series) :
  String.eqb (dtype_str s) "float32" = true
  <-> exists l, s = SFloat32 l.
Proof.
  destruct s; simpl; split; try discriminate;
    try (intros [l' [=]]); eauto.
Qed.

Lemma standardize_series_other (s : series) :
  String.eqb (dtype_str s) "float32" = false -> standardize_series s = s.
Proof. destruct s; simpl; try reflexivity. discriminate. Qed.

(** *** [standardize] column by column *)

Lemma standardize_loop (pre rest : list (string * series)) :
  NoDup (map fst (pre ++ rest)) ->
  fold_left standardize_step
            (map (fun c => (fst c, dtype_str (snd c))) rest)
            (map standardize_column pre ++ rest)
  = map standardize_column (pre ++ rest).
Proof.
  revert pre. induction rest as [|[n s] rest IH]; intros pre Hnd.
  - simpl. now rewrite !app_nil_r.
  - cbn [map fold_left fst snd].
    assert (Hpre : ~ In n (map fst (map standardize_column pre))).
    { rewrite map_map. cbn [standardize_column fst].
      rewrite map_app in Hnd. apply NoDup_remove_2 in Hnd.
      intros H. apply Hnd. apply in_or_app. now left. }
    assert (Hrest : ~ In n (map fst rest)).
    { rewrite map_app in Hnd. apply NoDup_remove_2 in Hnd.
      intros H. apply Hnd. apply in_or_app. now right. }
    assert (Hstep :
      standardize_step (map standardize_column pre ++ (n, s) :: rest)
                       (n, dtype_str s)
      = map standardize_column (pre ++ [(n, s)]) ++ rest).
    { unfold standardize_step.
      rewrite map_app, <- app_assoc. cbn [map app standardize_column fst snd].
      destruct (String.eqb (dtype_str s) "float32") eqn:D.
      - rewrite get_col_app by exact Hpre. simpl get_col.
        rewrite String.eqb_refl.
        unfold set_col. rewrite map_app. fold (set_col n (standardize_series s)
                                                (map standardize_column pre)).
        rewrite set_col_absent by exact Hpre.
        cbn [map fst]. rewrite String.eqb_refl.
        fold (set_col n (standardize_series s) rest).
        now rewrite set_col_absent by exact Hrest.
      - change (standardize_column (n, s)) with (n, standardize_series s).
        now rewrite standardize_series_other by exact D. }
    rewrite Hstep.
    replace (pre ++ (n, s) :: rest) with ((pre ++ [(n, s)]) ++ rest)
      by (rewrite <- app_assoc; reflexivity).
    apply IH. rewrite <- app_assoc. exact Hnd.
Qed.

Lemma standardize_columns (df : DataFrame) :
  NoDup (names df) ->
  columns (standardize df) = map standardize_column (columns df).
Proof.
  intros Hnd. unfold standardize. cbn [columns].
  exact (standardize_loop [] (columns df) Hnd).
Qed.

Lemma standardize_index (df : DataFrame) :
  index (standardize df) = index df.
Proof. reflexivity. Qed.

Lemma standardize_names (df : DataFrame) :
  NoDup (names df) -> names (standardize df) = names df.
Proof.
  intros H. unfold names. rewrite standardize_columns by exact H.
  rewrite map_map. reflexivity.
Qed.

Lemma standardize_get_col (df : DataFrame) (name : string) :
  NoDup (names df) ->
  get_col name (columns (standardize df))
  = option_map standardize_series (get_col name (columns df)).
Proof.
  intros H. rewrite standardize_columns by exact H.
  exact (get_col_map (fun _ => standardize_series) name (columns df)).
Qed.

End FrameFacts.


(** ** [preprocess] *)

Module PreprocessFacts.
Import Float Frame View Scenario FrameFacts.
Local Open Scope list_scope.

Lemma traverse_map (A B C : Type) (g : A -> B) (f : B -> result C)
      (l : list A) :
  traverse f (map g l) = traverse (fun a => f (g a)) l.
Proof.
  induction l as [|a l IH]; simpl; [reflexivity|]. now rewrite IH.
Qed.

Lemma traverse_ext (A B : Type) (f g : A -> result B) (l : list A) :
  (forall a, f a = g a) -> traverse f l = traverse g l.
Proof.
  intros H. induction l as [|a l IH]; simpl; [reflexivity|].
  now rewrite H, IH.
Qed.

Lemma traverse_Ok (A B : Type) (f : A -> result B) (l : list A)
      (l' : list B) :
  traverse f l = Ok l' -> Forall2 (fun a b => f a = Ok b) l l'.
Proof.
  revert l'. induction l as [|a l IH]; simpl; intros l' H.
  - injection H as <-. constructor.
  - destruct (f a) as [b|e] eqn:Fa; simpl in H; [|discriminate].
    destruct (traverse f l) as [bs|e]; simpl in H; [|discriminate].
    injection H as <-. constructor; [exact Fa | now apply IH].
Qed.

Lemma traverse_total (A B : Type) (f : A -> result B) (l : list A) :
  (forall a, In a l -> exists b, f a = Ok b) -> exists l', traverse f l = Ok l'.
Proof.
  induction l as [|a l IH]; simpl; intros H.
  - now exists [].
  - destruct (H a (or_introl eq_refl)) as [b ->].
    destruct IH as [bs ->]; [intros x Hx; apply H; now right|].
    simpl. now exists (b :: bs).
Qed.

Lemma traverse_Ok_each (A B : Type) (f : A -> result B) (l : list A)
      (l' : list B) :
  traverse f l = Ok l' -> forall a, In a l -> exists b, f a = Ok b.
Proof.
  intros H. apply traverse_Ok in H.
  induction H as [|a b l l' Hab _ IH]; intros x []; subst; eauto.
Qed.

(** The column-wise reading of the last two statements of [preprocess]. *)
Lemma encode_column_widen (c : string * series) :
  encode_column (fst c, widen (snd c))
  = (s <- encoded (fst c) (snd c) ;; Ok (fst c, s)).
Proof.
  destruct c as [n s]. unfold encode_column, encoded. cbn [fst snd].
  destruct (widen s) as [| | | |[|o l]]; try reflexivity.
  destruct (categorical_type n); reflexivity.
Qed.

Lemma unused_present (df : DataFrame) :
  filter (fun l => negb (mem l (names df))) UNUSED_COLUMNS = []
  <-> forall u, In u UNUSED_COLUMNS -> In u (names df).
Proof.
  split.
  - intros H u Hu. apply mem_In.
    destruct (mem u (names df)) eqn:M; [reflexivity|].
    assert (Hin : In u (filter (fun l => negb (mem l (names df)))
                               UNUSED_COLUMNS)).
    { apply filter_In. split; [exact Hu | now rewrite M]. }
    rewrite H in Hin. contradiction.
  - intros H.
    destruct (filter (fun l => negb (mem l (names df))) UNUSED_COLUMNS)
      as [|u us] eqn:F; [reflexivity|].
    assert (Hin : In u (u :: us)) by now left.
    rewrite <- F in Hin. apply filter_In in Hin. destruct Hin as [Hu Hm].
    apply H, mem_In in Hu. rewrite Hu in Hm. discriminate.
Qed.

(** [preprocess] in one equation. *)
Lemma preprocess_unfold (df : DataFrame) :
  preprocess df
  = match filter (fun l => negb (mem l (names df))) UNUSED_COLUMNS with
    | [] =>
        cols <- traverse (fun c => s <- encoded (fst c) (snd c) ;; Ok (fst c, s))
                         (filter (fun c => kept (fst c)) (columns df)) ;;
        Ok (mkDF (index df) cols)
    | absent => Err (KeyError absent)
    end.
Proof.
  unfold preprocess, drop.
  destruct (filter (fun l => negb (mem l (names df))) UNUSED_COLUMNS);
    [|reflexivity].
  cbn [bind index columns]. rewrite traverse_map.
  rewrite (traverse_ext _ _ _ _ _ encode_column_widen). reflexivity.
Qed.

Lemma preprocess_inv (df df' : DataFrame) :
  preprocess df = Ok df' ->
  (forall u, In u UNUSED_COLUMNS -> In u (names df))
  /\ index df' = index df
  /\ traverse (fun c => s <- encoded (fst c) (snd c) ;; Ok (fst c, s))
              (filter (fun c => kept (fst c)) (columns df))
     = Ok (columns df').
Proof.
  rewrite preprocess_unfold. intros H.
  destruct (filter (fun l => negb (mem l (names df))) UNUSED_COLUMNS) eqn:F;
    [|discriminate].
  pose proof (proj1 (unused_present df) F) as Hu.
  destruct (traverse _ _) as [cols|e]; [|discriminate].
  injection H as <-. auto.
Qed.

Lemma traverse_encoded_get (cols cols' : list (string * series))
      (name : string) :
  traverse (fun c => s <- encoded (fst c) (snd c) ;; Ok (fst c, s)) cols
  = Ok cols' ->
  match get_col name cols with
  | Some s => exists s', encoded name s = Ok s' /\ get_col name cols' = Some s'
  | None => get_col name cols' = None
  end.
Proof.
  intros H. apply traverse_Ok in H.
  induction H as [|[n s] [n' s'] l l' Hab _ IH]; [reflexivity|].
  cbn [fst snd] in Hab.
  destruct (encoded n s) as [t|e] eqn:E; [|discriminate].
  injection Hab as <- <-. simpl.
  destruct (String.eqb_spec name n) as [->|_]; [eauto | exact IH].
Qed.

Lemma traverse_encoded_names (cols cols' : list (string * series)) :
  traverse (fun c => s <- encoded (fst c) (snd c) ;; Ok (fst c, s)) cols
  = Ok cols' ->
  map fst cols' = map fst cols.
Proof.
  intros H. apply traverse_Ok in H.
  induction H as [|[n s] [n' s'] l l' Hab _ IH]; [reflexivity|].
  cbn [fst snd] in Hab.
  destruct (encoded n s) as [t|e]; [|discriminate].
  injection Hab as <- <-. simpl. now rewrite IH.
Qed.

(** What [preprocess] makes of one column. *)
Lemma preprocess_get_col (df df' : DataFrame) (name : string) (s : series) :
  preprocess df = Ok df' ->
  kept name = true ->
  get_col name (columns df) = Some s ->
  exists s', encoded name s = Ok s' /\ get_col name (columns df') = Some s'.
Proof.
  intros H K G. apply preprocess_inv in H. destruct H as (_ & _ & T).
  pose proof (traverse_encoded_get _ _ name T) as Hg.
  rewrite (get_col_filter kept), K, G in Hg. exact Hg.
Qed.

Lemma filter_map_fst (keep : string -> bool) (cols : list (string * series)) :
  map fst (filter (fun c => keep (fst c)) cols) = filter keep (map fst cols).
Proof.
  induction cols as [|[n s] cols IH]; simpl; [reflexivity|].
  destruct (keep n); simpl; now rewrite IH.
Qed.

Lemma preprocess_names (df df' : DataFrame) :
  preprocess df = Ok df' -> names df' = filter kept (names df).
Proof.
  intros H. apply preprocess_inv in H. destruct H as (_ & _ & T).
  unfold names. rewrite (traverse_encoded_names _ _ T).
  apply filter_map_fst.
Qed.

(** [preprocess] raises exactly on the frames that are not [encodable]:
    whether it raises depends on column names and dtypes only. *)
Lemma preprocess_succeeds (df : DataFrame) :
  encodable df <-> exists df', preprocess df = Ok df'.
Proof.
  split.
  - intros [Hu Hc]. rewrite preprocess_unfold.
    rewrite (proj2 (unused_present df) Hu).
    destruct (traverse_total _ _
                (fun c => s <- encoded (fst c) (snd c) ;; Ok (fst c, s))
                (filter (fun c => kept (fst c)) (columns df))) as [cols ->].
    + intros [n s] Hin. apply filter_In in Hin. destruct Hin as [Hin K].
      cbn [fst snd] in *. unfold encoded.
      destruct s as [| | | |[|o l]]; simpl; eauto.
      destruct (Hc n (o :: l) Hin K) as [cats ->]; [discriminate|].
      simpl. eauto.
    + simpl. eauto.
  - intros [df' H]. apply preprocess_inv in H. destruct H as (Hu & _ & T).
    split; [exact Hu|]. intros n l Hin K Hl.
    destruct (traverse_Ok_each _ _ _ _ _ T (n, SObject l)) as [b Hb].
    + apply filter_In. now split.
    + cbn [fst snd] in Hb. unfold encoded in Hb. simpl in Hb.
      destruct l as [|o l]; [congruence|].
      destruct (categorical_type n) as [cats|e]; [eauto | discriminate].
Qed.

(** Every column with a declared vocabulary is kept by [drop]. *)
Lemma vocabulary_kept (name : string) (cats : list string) :
  categorical_type name = Ok cats -> kept name = true.
Proof.
  unfold kept. destruct (mem name UNUSED_COLUMNS) eqn:M; [|reflexivity].
  apply mem_In in M. simpl in M.
  destruct M as [<-|[<-|[<-|[]]]]; discriminate.
Qed.

(** Every declared vocabulary fits the [int8] codes. *)
Lemma vocabularies_fit_int8 :
  Forall (fun entry => length (snd entry) < 128) _CATEGORICAL_TYPES.
Proof. repeat constructor; simpl; lia. Qed.

Lemma get_loc_In (s : string) (cats : list string) :
  In s cats <-> exists k, get_loc s cats = Some k.
Proof.
  induction cats as [|c cats IH]; simpl.
  - split; [contradiction | intros [k [=]]].
  - destruct (String.eqb_spec s c) as [->|N].
    + split; eauto.
    + rewrite IH. split.
      * intros [E|[k ->]]; [congruence | simpl; eauto].
      * intros [k H]. right.
        destruct (get_loc s cats) as [j|]; [eauto | discriminate].
Qed.

Lemma get_loc_nth (s : string) (cats : list string) (k : nat) :
  get_loc s cats = Some k -> nth_error cats k = Some s /\ k < length cats.
Proof.
  revert k. induction cats as [|c cats IH]; simpl; intros k; [discriminate|].
  destruct (String.eqb_spec s c) as [->|N].
  - intros [= <-]. split; [reflexivity | lia].
  - destruct (get_loc s cats) as [j|]; [|discriminate].
    intros [= <-]. destruct (IH j eq_refl). split; [assumption | lia].
Qed.


(** What [preprocess] makes of a column that it keeps. *)
Lemma encoded_retained (n : string) (s s' : series) :
  encoded n s = Ok s' -> retained (n, s) (n, s').
Proof.
  unfold encoded, retained. cbn [fst snd].
  destruct s as [l|l|l|l|[|o l]]; simpl; intros H.
  - injection H as <-. simpl. rewrite length_map. auto.
  - injection H as <-. auto.
  - injection H as <-. auto.
  - injection H as <-. auto.
  - injection H as <-. auto.
  - destruct (categorical_type n) as [cats|e]; [|discriminate].
    injection H as <-. simpl. rewrite length_map. eauto.
Qed.

Lemma preprocess_retained (df df' : DataFrame) :
  preprocess df = Ok df' ->
  Forall2 retained (filter (fun c => kept (fst c)) (columns df)) (columns df').
Proof.
  intros H. apply preprocess_inv in H. destruct H as (_ & _ & T).
  apply traverse_Ok in T.
  induction T as [|[n s] [n' s'] l l' Hab _ IH]; constructor; [|exact IH].
  cbn [fst snd] in Hab.
  destruct (encoded n s) as [t|e] eqn:E; [|discriminate].
  injection Hab as <- <-. now apply encoded_retained.
Qed.


Lemma code_of_out (cats : list string) (o : pyobj) :
  ~ in_vocabulary cats o -> code_of cats o = (-1)%Z.
Proof.
  intros H. destruct o as [s| |]; try reflexivity. simpl.
  destruct (get_loc s cats) as [k|] eqn:G; [|reflexivity].
  elim H. exists s. split; [reflexivity|]. apply get_loc_In. eauto.
Qed.

Lemma code_of_range (cats : list string) (o : pyobj) :
  (code_of cats o = -1 /\ ~ in_vocabulary cats o
   \/ 0 <= code_of cats o < Z.of_nat (length cats) /\ in_vocabulary cats o)%Z.
Proof.
  destruct o as [s|z|f].
  - simpl. destruct (get_loc s cats) as [k|] eqn:G.
    + right. destruct (get_loc_nth _ _ _ G). split; [lia|].
      exists s. split; [reflexivity|]. apply get_loc_In. eauto.
    + left. split; [reflexivity|]. intros [s' [[= <-] Hin]].
      apply get_loc_In in Hin. destruct Hin as [k Hk]. congruence.
  - left. split; [reflexivity|]. intros [s [[=] _]].
  - left. split; [reflexivity|]. intros [s [[=] _]].
Qed.

(** What [preprocess] makes of one cell of an object column. *)
Lemma preprocess_code_at (df df' : DataFrame) (name : string)
      (cats : list string) (i : nat) (o : pyobj) :
  preprocess df = Ok df' ->
  categorical_type name = Ok cats ->
  value_at name i df = Some o ->
  code_at name i df' = Some (code_of cats o).
Proof.
  intros H C V. unfold value_at in V.
  destruct (get_col name (columns df)) as [[| | | |l]|] eqn:G;
    try discriminate.
  destruct (preprocess_get_col _ _ _ _ H (vocabulary_kept _ _ C) G)
    as [s' [E G']].
  unfold encoded in E. simpl in E.
  destruct l as [|o' l]; [now destruct i|].
  rewrite C in E. simpl in E.
  injection E as <-. unfold code_at. rewrite G'.
  change (nth_error (map (code_of cats) (o' :: l)) i
          = Some (code_of cats o)).
  now apply map_nth_error.
Qed.

End PreprocessFacts.


(** ** The stages of [load_data] *)

Module PipelineFacts.
Import Float Frame View Scenario FloatFacts FrameFacts PreprocessFacts.
Local Open Scope list_scope.

Ltac bind_inv H :=
  match type of H with
  | bind ?r _ = Ok _ =>
      let E := fresh "E" in
      destruct r eqn:E; [cbn [bind] in H | discriminate H]
  end.

(** *** Shapes after [preprocess] *)

Lemma encoded_of_csv (name : string) (s s' : series) :
  csv_dtype s -> encoded name s = Ok s' ->
  encoded_shape s' /\ series_len s' = series_len s.
Proof.
  unfold encoded. destruct s as [l| | |l|l]; simpl; try contradiction;
    intros Hc H.
  - injection H as <-. simpl. rewrite length_map. auto.
  - injection H as <-. simpl. auto.
  - destruct Hc as [t Ht]. destruct l as [|o l]; [contradiction|].
    destruct (categorical_type name); [|discriminate].
    injection H as <-. simpl. rewrite length_map. auto.
Qed.

Lemma preprocess_shape (df df' : DataFrame) :
  preprocess df = Ok df' ->
  Forall (fun c => csv_dtype (snd c)) (columns df) ->
  Forall (fun c => series_len (snd c) = length (index df)) (columns df) ->
  Forall (fun c => encoded_shape (snd c)
                   /\ series_len (snd c) = length (index df')) (columns df').
Proof.
  intros H Hd Hl. apply preprocess_inv in H. destruct H as (_ & -> & T).
  apply traverse_Ok in T.
  assert (Hf : Forall (fun c => csv_dtype (snd c)
                                /\ series_len (snd c) = length (index df))
                      (filter (fun c => kept (fst c)) (columns df))).
  { apply Forall_forall. intros c Hc. apply filter_In in Hc.
    destruct Hc as [Hc _]. rewrite Forall_forall in Hd, Hl. auto. }
  induction T as [|[n s] [n' s'] l l' Hab _ IH]; [constructor|].
  inversion Hf as [|? ? [Hcsv Hlen] Hf']; subst. cbn [fst snd] in *.
  destruct (encoded n s) as [t|e] eqn:E; [|discriminate].
  injection Hab as <- <-.
  destruct (encoded_of_csv _ _ _ Hcsv E) as [Hs Hn].
  constructor; [cbn [snd]; split; [exact Hs | congruence] | now apply IH].
Qed.

Lemma parsed_NoDup (df : DataFrame) : parsed df -> NoDup (names df).
Proof.
  intros [-> _]. unfold _CSV_COLUMNS.
  repeat (constructor; [simpl; intuition discriminate|]). constructor.
Qed.

Lemma preprocess_parsed_names (df df' : DataFrame) :
  parsed df -> preprocess df = Ok df' ->
  names df' = filter kept _CSV_COLUMNS.
Proof.
  intros [Hn _] H. rewrite (preprocess_names _ _ H), Hn. reflexivity.
Qed.

(** *** [pop] *)

Lemma pop_inv (name : string) (df df' : DataFrame) (s : series) :
  pop name df = Ok (s, df') ->
  get_col name (columns df) = Some s
  /\ index df' = index df
  /\ columns df' = filter (fun c => negb (String.eqb name (fst c))) (columns df).
Proof.
  unfold pop. destruct (get_col name (columns df)); [|discriminate].
  intros [= <- <-]. auto.
Qed.

Lemma pop_get_col (name n : string) (cols : list (string * series)) :
  get_col n (filter (fun c => negb (String.eqb name (fst c))) cols)
  = if String.eqb name n then None else get_col n cols.
Proof.
  rewrite (get_col_filter (fun x => negb (String.eqb name x))).
  now destruct (String.eqb name n).
Qed.

(** *** [concat] *)

Lemma concat_series_shape (a b : series) :
  encoded_shape a -> encoded_shape b ->
  encoded_shape (concat_series a b)
  /\ series_len (concat_series a b) = series_len a + series_len b.
Proof.
  destruct a, b; simpl; try contradiction; intros _ _;
    rewrite ?length_app, ?length_map; auto.
Qed.






Lemma concat_inv (ka kb : string) (a b df : DataFrame) :
  concat ka a kb b = Ok df ->
  names a = names b
  /\ index df = map (Keyed ka) (index a) ++ map (Keyed kb) (index b)
  /\ columns df = map joined (combine (columns a) (columns b)).
Proof.
  unfold concat. destruct (list_eq_dec string_dec (names a) (names b));
    [|discriminate].
  intros [= <-]. auto.
Qed.

Lemma concat_same_names (ka kb : string) (a b : DataFrame) :
  names a = names b -> exists df, concat ka a kb b = Ok df.
Proof.
  intros H. unfold concat.
  destruct (list_eq_dec string_dec (names a) (names b)); [eauto | contradiction].
Qed.

Lemma joined_names (ca cb : list (string * series)) :
  map fst ca = map fst cb ->
  map fst (map joined (combine ca cb)) = map fst ca.
Proof.
  revert cb. induction ca as [|[n s] ca IH]; intros [|[m t] cb]; simpl;
    try discriminate; [reflexivity|].
  intros [= <- H]. now rewrite IH.
Qed.

Lemma joined_get_col (name : string) (ca cb : list (string * series)) :
  map fst ca = map fst cb ->
  get_col name (map joined (combine ca cb))
  = match get_col name ca, get_col name cb with
    | Some x, Some y => Some (concat_series x y)
    | _, _ => None
    end.
Proof.
  revert cb. induction ca as [|[n s] ca IH]; intros [|[m t] cb]; simpl;
    try discriminate; [reflexivity|].
  intros [= <- H]. cbn [joined fst snd].
  destruct (String.eqb name n); [reflexivity | now apply IH].
Qed.

Lemma joined_shape (na nb : nat) (ca cb : list (string * series)) :
  map fst ca = map fst cb ->
  Forall (fun c => encoded_shape (snd c) /\ series_len (snd c) = na) ca ->
  Forall (fun c => encoded_shape (snd c) /\ series_len (snd c) = nb) cb ->
  Forall (fun c => encoded_shape (snd c) /\ series_len (snd c) = na + nb)
         (map joined (combine ca cb)).
Proof.
  revert cb. induction ca as [|[n s] ca IH]; intros [|[m t] cb] Hn Ha Hb;
    simpl in *; try discriminate; try constructor.
  - inversion Ha as [|? ? [Hs Hl] _]; inversion Hb as [|? ? [Ht Hm] _]; subst.
    cbn [joined fst snd] in *.
    exact (concat_series_shape s t Hs Ht).
  - injection Hn as _ Hn.
    inversion Ha; inversion Hb; subst. now apply IH.
Qed.

(** *** [xs] on the combined index *)

Lemma select_first (A : Type) (i1 i2 : list label) (d1 d2 : list A) :
  length d1 = length i1 -> length d2 = length i2 ->
  select (map (fun _ => true) i1 ++ map (fun _ => false) i2) (d1 ++ d2) = d1.
Proof.
  revert d1. induction i1 as [|i i1 IH]; intros [|a d1]; simpl;
    try discriminate.
  - intros _. revert d2. induction i2 as [|j i2 IH2]; intros [|b d2]; simpl;
      try discriminate; [reflexivity|]. intros [= H]. now apply IH2.
  - intros [= H1] H2. f_equal. now apply IH.
Qed.

Lemma select_second (A : Type) (i1 i2 : list label) (d1 d2 : list A) :
  length d1 = length i1 -> length d2 = length i2 ->
  select (map (fun _ => false) i1 ++ map (fun _ => true) i2) (d1 ++ d2) = d2.
Proof.
  revert d1. induction i1 as [|i i1 IH]; intros [|a d1]; simpl;
    try discriminate.
  - intros _. revert d2. induction i2 as [|j i2 IH2]; intros [|b d2]; simpl;
      try discriminate; [reflexivity|]. intros [= H]. f_equal. now apply IH2.
  - intros [= H1] H2. now apply IH.
Qed.

Lemma has_key_mask (key ka kb : string) (ia ib : list label) :
  map (has_key key) (map (Keyed ka) ia ++ map (Keyed kb) ib)
  = map (fun _ => String.eqb key ka) ia ++ map (fun _ => String.eqb key kb) ib.
Proof. rewrite map_app, !map_map. reflexivity. Qed.

Lemma xs_inv (key : string) (df df' : DataFrame) :
  xs key df = Ok df' ->
  index df' = map drop_level (select (map (has_key key) (index df)) (index df))
  /\ columns df'
     = map (fun c => (fst c, select_series (map (has_key key) (index df)) (snd c)))
           (columns df).
Proof.
  unfold xs. destruct (existsb _ _); [|discriminate].
  intros [= <-]. auto.
Qed.

Lemma xs_get_col (key name : string) (df df' : DataFrame) :
  xs key df = Ok df' ->
  get_col name (columns df')
  = option_map (select_series (map (has_key key) (index df)))
               (get_col name (columns df)).
Proof.
  intros H. apply xs_inv in H. destruct H as [_ ->].
  exact (get_col_map (fun _ => select_series (map (has_key key) (index df)))
                     name (columns df)).
Qed.

(** *** The frame handed to [standardize] *)

Lemma combined_stages (train_df eval_df all_x : DataFrame) (ty ey : series) :
  parsed train_df -> parsed eval_df ->
  combined train_df eval_df = Ok (ty, ey, all_x) ->
  exists tdf edf,
    preprocess train_df = Ok tdf
    /\ preprocess eval_df = Ok edf
    /\ get_col _LABEL_COLUMN (columns tdf) = Some ty
    /\ get_col _LABEL_COLUMN (columns edf) = Some ey
    /\ index all_x = map (Keyed "train") (index train_df)
                     ++ map (Keyed "eval") (index eval_df)
    /\ NoDup (names all_x)
    /\ Forall (fun c => encoded_shape (snd c)
                        /\ series_len (snd c)
                           = length (index train_df) + length (index eval_df))
              (columns all_x)
    /\ (forall name,
           get_col name (columns all_x)
           = if String.eqb _LABEL_COLUMN name then None
             else match get_col name (columns tdf),
                        get_col name (columns edf) with
                  | Some a, Some b => Some (concat_series a b)
                  | _, _ => None
                  end).
Proof.
  intros Pt Pe H. unfold combined in H.
  bind_inv H. rename a into tdf, E into Et.
  bind_inv H. rename a into edf, E into Ee.
  bind_inv H. destruct a as [ty' tx]. rename E into Ept.
  bind_inv H. destruct a as [ey' ex]. rename E into Epe.
  bind_inv H. injection H as <- <- <-. rename E into Ec.
  exists tdf, edf.
  pose proof (preprocess_parsed_names _ _ Pt Et) as Nt.
  pose proof (preprocess_parsed_names _ _ Pe Ee) as Ne.
  destruct Pt as (_ & _ & _ & Lt & Dt). destruct Pe as (_ & _ & _ & Le & De).
  pose proof (preprocess_shape _ _ Et Dt Lt) as St.
  pose proof (preprocess_shape _ _ Ee De Le) as Se.
  pose proof (preprocess_inv _ _ Et) as (_ & It & _).
  pose proof (preprocess_inv _ _ Ee) as (_ & Ie & _).
  apply pop_inv in Ept. destruct Ept as (Gt & Ixt & Ct).
  apply pop_inv in Epe. destruct Epe as (Ge & Ixe & Ce).
  apply concat_inv in Ec. destruct Ec as (Hn & Ix & Cc).
  assert (Ntx : names tx = filter (fun n => negb (String.eqb _LABEL_COLUMN n))
                                  (filter kept _CSV_COLUMNS)).
  { unfold names. rewrite Ct.
    rewrite (filter_map_fst (fun n => negb (String.eqb _LABEL_COLUMN n))).
    fold (names tdf). now rewrite Nt. }
  repeat split; auto.
  - rewrite Ix, Ixt, Ixe, It, Ie. reflexivity.
  - unfold names. rewrite Cc, joined_names by exact Hn.
    fold (names tx). rewrite Ntx. vm_compute.
    repeat (constructor; [simpl; intuition discriminate|]). constructor.
  - rewrite Cc. rewrite <- It, <- Ie. apply joined_shape; [exact Hn | |].
    + rewrite Ct. apply Forall_forall. intros c Hc. apply filter_In in Hc.
      rewrite Forall_forall in St. apply St. tauto.
    + rewrite Ce. apply Forall_forall. intros c Hc. apply filter_In in Hc.
      rewrite Forall_forall in Se. apply Se. tauto.
  - intros name. rewrite Cc, joined_get_col by exact Hn.
    rewrite Ct, Ce, !pop_get_col.
    destruct (String.eqb _LABEL_COLUMN name); reflexivity.
Qed.

End PipelineFacts.


(** ** [load_data] as a whole *)

Module LoadFacts.
Import Float Frame View Scenario.
Import FloatFacts FrameFacts PreprocessFacts PipelineFacts.
Local Open Scope list_scope.

Lemma train_mask_spec (train_df eval_df : DataFrame) :
  map (has_key "train")
      (map (Keyed "train") (index train_df) ++ map (Keyed "eval") (index eval_df))
  = train_mask train_df eval_df.
Proof. rewrite has_key_mask. reflexivity. Qed.

Lemma eval_mask_spec (train_df eval_df : DataFrame) :
  map (has_key "eval")
      (map (Keyed "train") (index train_df) ++ map (Keyed "eval") (index eval_df))
  = eval_mask train_df eval_df.
Proof. rewrite has_key_mask. reflexivity. Qed.

Lemma drop_level_keyed (k : string) (l : list label) :
  map drop_level (map (Keyed k) l) = l.
Proof. rewrite map_map. apply map_id. Qed.

Lemma asarray_encoded (s : series) :
  encoded_shape s -> asarray_float32 s = Ok (as_float32 s).
Proof. destruct s; simpl; try contradiction; reflexivity. Qed.


Lemma label_encoded_shape (df tdf : DataFrame) (ty : series) :
  parsed df -> preprocess df = Ok tdf ->
  get_col _LABEL_COLUMN (columns tdf) = Some ty ->
  encoded_shape ty /\ series_len ty = length (index df).
Proof.
  intros (_ & _ & _ & L & D) H G.
  pose proof (preprocess_shape _ _ H D L) as S.
  pose proof (preprocess_inv _ _ H) as (_ & I & _).
  rewrite Forall_forall in S. rewrite <- I.
  exact (S _ (get_col_In _ _ _ G)).
Qed.

(** The stages of a run that returns. *)
Lemma load_data_stages (train_df eval_df : DataFrame) (r : Loaded) :
  parsed train_df -> parsed eval_df ->
  load_data_from train_df eval_df = Ok r ->
  exists ty ey all_x,
    combined train_df eval_df = Ok (ty, ey, all_x)
    /\ index (train_x r) = index train_df
    /\ index (eval_x r) = index eval_df
    /\ (forall name,
           get_col name (columns (train_x r))
           = option_map (fun s => select_series (train_mask train_df eval_df)
                                                (standardize_series s))
                        (get_col name (columns all_x)))
    /\ (forall name,
           get_col name (columns (eval_x r))
           = option_map (fun s => select_series (eval_mask train_df eval_df)
                                                (standardize_series s))
                        (get_col name (columns all_x)))
    /\ train_y r = reshape_column (as_float32 ty)
    /\ eval_y r = reshape_column (as_float32 ey).
Proof.
  intros Pt Pe H. unfold load_data_from in H.
  bind_inv H. destruct a as [[ty ey] all_x]. rename E into Ec.
  bind_inv H. rename a into tx, E into Ext.
  bind_inv H. rename a into ex, E into Exe.
  bind_inv H. rename a into tyf, E into Eyt.
  bind_inv H. rename a into eyf, E into Eye.
  injection H as <-. cbn [train_x train_y eval_x eval_y].
  exists ty, ey, all_x.
  destruct (combined_stages _ _ _ _ _ Pt Pe Ec)
    as (tdf & edf & Et & Ee & Gt & Ge & Ix & Nd & Sh & _).
  destruct (label_encoded_shape _ _ _ Pt Et Gt) as [Sty _].
  destruct (label_encoded_shape _ _ _ Pe Ee Ge) as [Sey _].
  rewrite (asarray_encoded _ Sty) in Eyt. injection Eyt as <-.
  rewrite (asarray_encoded _ Sey) in Eye. injection Eye as <-.
  pose proof (xs_inv _ _ _ Ext) as [Ixt _].
  pose proof (xs_inv _ _ _ Exe) as [Ixe _].
  rewrite standardize_index, Ix in Ixt, Ixe.
  rewrite train_mask_spec in Ixt. rewrite eval_mask_spec in Ixe.
  unfold train_mask in Ixt. unfold eval_mask in Ixe.
  rewrite select_first in Ixt by (rewrite length_map; reflexivity).
  rewrite select_second in Ixe by (rewrite length_map; reflexivity).
  rewrite drop_level_keyed in Ixt, Ixe.
  repeat split; auto.
  - intros name. rewrite (xs_get_col _ name _ _ Ext).
    rewrite standardize_index, Ix, train_mask_spec.
    rewrite standardize_get_col by exact Nd.
    now destruct (get_col name (columns all_x)).
  - intros name. rewrite (xs_get_col _ name _ _ Exe).
    rewrite standardize_index, Ix, eval_mask_spec.
    rewrite standardize_get_col by exact Nd.
    now destruct (get_col name (columns all_x)).
Qed.

(** [load_data] returns on every pair of parsed frames that [preprocess]
    accepts. *)
Lemma load_data_total (train_df eval_df : DataFrame) :
  parsed train_df -> parsed eval_df ->
  encodable train_df -> encodable eval_df ->
  exists r, load_data_from train_df eval_df = Ok r.
Proof.
  intros Pt Pe Ct Ce.
  apply preprocess_succeeds in Ct. destruct Ct as [tdf Et].
  apply preprocess_succeeds in Ce. destruct Ce as [edf Ee].
  pose proof (preprocess_parsed_names _ _ Pt Et) as Nt.
  pose proof (preprocess_parsed_names _ _ Pe Ee) as Ne.
  assert (Lt : exists ty, get_col _LABEL_COLUMN (columns tdf) = Some ty).
  { destruct (get_col _LABEL_COLUMN (columns tdf)) eqn:G; [eauto|].
    apply get_col_None in G. elim G. fold (names tdf). rewrite Nt.
    vm_compute. tauto. }
  assert (Le : exists ey, get_col _LABEL_COLUMN (columns edf) = Some ey).
  { destruct (get_col _LABEL_COLUMN (columns edf)) eqn:G; [eauto|].
    apply get_col_None in G. elim G. fold (names edf). rewrite Ne.
    vm_compute. tauto. }
  destruct Lt as [ty Gt]. destruct Le as [ey Ge].
  set (tx := mkDF (index tdf)
                  (filter (fun c => negb (String.eqb _LABEL_COLUMN (fst c)))
                          (columns tdf))).
  set (ex := mkDF (index edf)
                  (filter (fun c => negb (String.eqb _LABEL_COLUMN (fst c)))
                          (columns edf))).
  assert (Hn : names tx = names ex).
  { unfold names, tx, ex. cbn [columns].
    rewrite !(filter_map_fst (fun n => negb (String.eqb _LABEL_COLUMN n))).
    fold (names tdf) (names edf). now rewrite Nt, Ne. }
  destruct (concat_same_names "train" "eval" tx ex Hn) as [all_x Ec].
  assert (Hc : combined train_df eval_df = Ok (ty, ey, all_x)).
  { unfold combined. rewrite Et, Ee. cbn [bind]. unfold pop.
    rewrite Gt, Ge. cbn [bind]. fold tx ex. rewrite Ec. reflexivity. }
  destruct (combined_stages _ _ _ _ _ Pt Pe Hc)
    as (tdf' & edf' & Et' & Ee' & Gt' & Ge' & Ix & Nd & Sh & _).
  rewrite Et in Et'. injection Et' as <-.
  rewrite Ee in Ee'. injection Ee' as <-.
  destruct (label_encoded_shape _ _ _ Pt Et Gt) as [Sty _].
  destruct (label_encoded_shape _ _ _ Pe Ee Ge) as [Sey _].
  unfold load_data_from. rewrite Hc. cbn [bind].
  destruct Pt as (_ & _ & Tne & _). destruct Pe as (_ & _ & Ene & _).
  unfold xs. rewrite standardize_index, Ix.
  rewrite train_mask_spec, eval_mask_spec.
  assert (Mt : existsb (fun b => b) (train_mask train_df eval_df) = true).
  { unfold train_mask. destruct (index train_df); [congruence | reflexivity]. }
  assert (Me : existsb (fun b => b) (eval_mask train_df eval_df) = true).
  { unfold eval_mask. rewrite existsb_app.
    destruct (index eval_df); [congruence|]. apply orb_true_r. }
  rewrite Mt, Me. cbn [bind].
  rewrite (asarray_encoded _ Sty), (asarray_encoded _ Sey). cbn [bind].
  eauto.
Qed.

(** *** [load_data] and the world *)

Lemma load_data_fetch_failure
      (remote : string -> option string) (temp_name : nat -> string)
      (tempdir : string) (read_csv : string -> result DataFrame)
      (w w' : Fetch.world) (e : error) :
  Fetch.download remote temp_name (Load.DATA_DIR tempdir) w = (Err e, w') ->
  Load.load_data remote temp_name tempdir read_csv w = (Err e, w').
Proof.
  intros H. unfold Load.load_data, Fetch.bindIO. now rewrite H.
Qed.

(** On a populated cache [load_data] is [load_data_from] on the two
    parsed files, and the world stays as it is. *)
Lemma load_data_cached
      (remote : string -> option string) (temp_name : nat -> string)
      (tempdir : string) (read_csv : string -> result DataFrame)
      (w : Fetch.world) (c1 c2 : string) (train_df eval_df : DataFrame) :
  Fetch.fs w (Load.DATA_DIR tempdir) = Some Fetch.Dir ->
  Fetch.fs w (Fetch.path_join (Load.DATA_DIR tempdir) Fetch.TRAINING_FILE)
  = Some (Fetch.File c1) ->
  Fetch.fs w (Fetch.path_join (Load.DATA_DIR tempdir) Fetch.EVAL_FILE)
  = Some (Fetch.File c2) ->
  read_csv c1 = Ok train_df ->
  read_csv c2 = Ok eval_df ->
  Load.load_data remote temp_name tempdir read_csv w
  = (load_data_from train_df eval_df, w).
Proof.
  intros Hd H1 H2 R1 R2.
  unfold Load.load_data, Fetch.bindIO.
  unfold Fetch.download, Fetch.bindIO, Fetch.makedirs, Fetch.exists_,
    Fetch.ret.
  rewrite Hd, H1. cbn [negb]. rewrite H2. cbn [negb fst snd].
  unfold Fetch.read_file, Load.lift. now rewrite H1, R1, H2, R2.
Qed.

End LoadFacts.


(** ** Properties of [preprocess] (the specification's [encode]) *)

Module EncodeProps.
Import Float Frame View Scenario.
Import FrameFacts PreprocessFacts.
Local Open Scope list_scope.

Lemma sample_train_encodable : encodable sample_train.
Proof. apply preprocess_succeeds. eexists. reflexivity. Qed.

Lemma sample_eval_encodable : encodable sample_eval.
Proof. apply preprocess_succeeds. eexists. reflexivity. Qed.

(** A concrete frame is one that [read_csv] can return. *)
Ltac parsed_frame :=
  unfold parsed;
  repeat match goal with |- _ /\ _ => split end;
  try reflexivity; try discriminate;
  repeat (apply Forall_cons;
          [ simpl; first [ exact I | reflexivity | eauto ] | ]);
  apply Forall_nil.

Lemma sample_train_parsed : parsed sample_train.
Proof. parsed_frame. Qed.

Lemma sample_eval_parsed : parsed sample_eval.
Proof. parsed_frame. Qed.

Lemma missing_not_in_vocabulary (cats : list string) :
  ~ in_vocabulary cats missing.
Proof. intros [s [[=] _]]. Qed.

(** C2 (as amended): in a categorical column that [read_csv] holds as
    text (dtype [object]: at least one of its fields is text), a value
    that is missing or absent from the declared vocabulary of the column
    is encoded as -1, which is neither 0 nor the zero-based position of
    any category, and [preprocess] does not raise because of it: on
    every frame whose column names and dtypes it accepts, whatever the
    values. *)
Theorem missing_value_code
        (df : DataFrame) (name : string) (cats : list string)
        (i : nat) (o : pyobj) :
  encodable df ->
  categorical_type name = Ok cats ->
  value_at name i df = Some o ->
  ~ in_vocabulary cats o ->
  exists df',
    preprocess df = Ok df'
    /\ code_at name i df' = Some (-1)%Z
    /\ (forall k : nat, code_at name i df' <> Some (Z.of_nat k))
    /\ (forall o', in_vocabulary cats o' ->
                   (0 <= code_of cats o' < Z.of_nat (length cats))%Z).
Proof.
  intros He Hc Hv Hn.
  apply preprocess_succeeds in He. destruct He as [df' Hp].
  exists df'. split; [exact Hp|].
  pose proof (preprocess_code_at _ _ _ _ _ _ Hp Hc Hv) as Hcode.
  rewrite (code_of_out _ _ Hn) in Hcode.
  repeat split.
  - exact Hcode.
  - intros k. rewrite Hcode. intros [= E]. lia.
  - destruct (code_of_range cats o') as [[_ N]|[R _]]; [contradiction | lia].
  - destruct (code_of_range cats o') as [[_ N]|[R _]]; [contradiction | lia].
Qed.

(** C2 at the specification's scenario: the missing work class of the
    second sample row is encoded as -1. *)
Lemma missing_value_code_witness :
  exists df',
    preprocess sample_train = Ok df'
    /\ code_at "workclass" 1 df' = Some (-1)%Z
    /\ (forall k : nat, code_at "workclass" 1 df' <> Some (Z.of_nat k))
    /\ (forall o', in_vocabulary (vocabulary "workclass") o' ->
                   (0 <= code_of (vocabulary "workclass") o'
                    < Z.of_nat (length (vocabulary "workclass")))%Z).
Proof.
  apply (missing_value_code sample_train "workclass"
           (vocabulary "workclass") 1 missing).
  - exact sample_train_encodable.
  - reflexivity.
  - reflexivity.
  - apply missing_not_in_vocabulary.
Defined.

(** C2, counterexample: when every work class of a file is [?], the
    column is parsed as [float64]; [preprocess] leaves it as it is, so
    the missing values stay NaN and get no code at all. *)
Lemma missing_column_not_encoded :
  parsed no_workclass_train
  /\ get_col "workclass" (columns no_workclass_train)
     = Some (SFloat64 [NaN; NaN])
  /\ exists df',
       preprocess no_workclass_train = Ok df'
       /\ get_col "workclass" (columns df') = Some (SFloat64 [NaN; NaN])
       /\ code_at "workclass" 0 df' = None
       /\ code_at "workclass" 1 df' = None.
Proof.
  split; [|split; [reflexivity|]].
  - parsed_frame.
  - eexists. split; [reflexivity|]. repeat split.
Qed.



(** C9: the frame that [preprocess] returns has none of the columns
    [fnlwgt], [education], [gender], and has every other column of its
    input, in the input's order, over the same rows: each of them with
    its name, its length and its values, the values of an [int64]
    column as [float32], those of a text column as their category
    codes, those of any other column as they were. *)
Theorem preprocess_drops_unused (df : DataFrame) :
  encodable df ->
  exists df',
    preprocess df = Ok df'
    /\ (forall u, In u ["fnlwgt"; "education"; "gender"] ->
                  ~ In u (names df'))
    /\ (forall n, In n (names df) ->
                  ~ In n ["fnlwgt"; "education"; "gender"] ->
                  In n (names df'))
    /\ names df' = filter kept (names df)
    /\ index df' = index df
    /\ Forall2 retained
               (filter (fun c => negb (mem (fst c) UNUSED_COLUMNS))
                       (columns df))
               (columns df').
Proof.
  intros He. apply preprocess_succeeds in He. destruct He as [df' Hp].
  exists df'. split; [exact Hp|].
  pose proof (preprocess_names _ _ Hp) as Hn.
  pose proof (preprocess_inv _ _ Hp) as (_ & Hi & _).
  pose proof (preprocess_retained _ _ Hp) as Hr.
  repeat split; auto.
  - intros u Hu Hin. rewrite Hn in Hin. apply filter_In in Hin.
    destruct Hin as [_ K]. unfold kept in K.
    apply (proj2 (mem_In u UNUSED_COLUMNS)) in Hu. rewrite Hu in K.
    discriminate.
  - intros n Hin Hu. rewrite Hn. apply filter_In. split; [exact Hin|].
    unfold kept. apply (proj2 (mem_false n UNUSED_COLUMNS)) in Hu.
    now rewrite Hu.
Qed.

Lemma preprocess_drops_unused_witness :
  exists df',
    preprocess sample_train = Ok df'
    /\ (forall u, In u ["fnlwgt"; "education"; "gender"] ->
                  ~ In u (names df'))
    /\ (forall n, In n (names sample_train) ->
                  ~ In n ["fnlwgt"; "education"; "gender"] ->
                  In n (names df'))
    /\ names df' = filter kept (names sample_train)
    /\ index df' = index sample_train
    /\ Forall2 retained
               (filter (fun c => negb (mem (fst c) UNUSED_COLUMNS))
                       (columns sample_train))
               (columns df').
Proof. exact (preprocess_drops_unused sample_train sample_train_encodable). Defined.

End EncodeProps.

(** ** Properties of [standardize] (the specification's [normalize]) *)

Module NormalizeProps.
Import Float Frame View Scenario.
Import FloatFacts ZscoreFacts FrameFacts PreprocessFacts PipelineFacts.
Import LoadFacts EncodeProps.
Local Open Scope list_scope.







(** C1: [standardize] does not bring every column of non-zero variance
    to mean 0.  Two files of one record each, with capital gains
    16777216 and 16777218: both are [float32] values and their variance
    is 2, but their [float32] sum is rounded, the mean comes out as
    16777216, and [load_data] returns the z-scores 0 and 1.4142135,
    whose mean is 0.70710677, above one half. *)
Theorem standardize_large_values :
  parsed large_gain_train /\ parsed large_gain_eval
  /\ var (map of_Z32 [16777216; 16777218]%Z) = of_Z32 2
  /\ mean (map of_Z32 [16777216; 16777218]%Z) = of_Z32 16777216
  /\ exists r,
       load_data_from large_gain_train large_gain_eval = Ok r
       /\ get_col "capital_gain" (columns (train_x r))
          = Some (SFloat32 [zero])
       /\ get_col "capital_gain" (columns (eval_x r))
          = Some (SFloat32 [S754_finite false 11863283 (-23)])
       /\ mean [zero; S754_finite false 11863283 (-23)]
          = S754_finite false 11863283 (-24)
       /\ SFltb (S754_finite false 8388608 (-24))
                (mean [zero; S754_finite false 11863283 (-23)]) = true.
Proof.
  split; [parsed_frame|]. split; [parsed_frame|].
  split; [reflexivity|]. split; [reflexivity|].
  eexists. split; [reflexivity|].
  split; [reflexivity|]. split; [reflexivity|].
  split; reflexivity.
Qed.

(** C5: [standardize] has no error path, and a constant numeric column
    goes through it.  With the age 39 in every record of both files the
    deviation is 0 and [load_data] returns NaN in every row of [age];
    with the capital gain 6241171 in every record the [float32] mean is
    6241170.5, the centred values are 0.5, the deviation is 0 and
    [load_data] returns an infinity in every row. *)
Theorem standardize_zero_deviation :
  parsed same_age_train /\ parsed same_age_eval
  /\ std (map of_Z32 [39; 39; 39]%Z) = zero
  /\ (exists r,
         load_data_from same_age_train same_age_eval = Ok r
         /\ get_col "age" (columns (train_x r)) = Some (SFloat32 [NaN; NaN])
         /\ get_col "age" (columns (eval_x r)) = Some (SFloat32 [NaN]))
  /\ parsed same_gain_train /\ parsed same_gain_eval
  /\ std (map of_Z32 [6241171; 6241171; 6241171]%Z) = zero
  /\ mean (map of_Z32 [6241171; 6241171; 6241171]%Z)
     = S754_finite false 12482341 (-1)
  /\ (exists r,
         load_data_from same_gain_train same_gain_eval = Ok r
         /\ get_col "capital_gain" (columns (train_x r))
            = Some (SFloat32 [S754_infinity false; S754_infinity false])
         /\ get_col "capital_gain" (columns (eval_x r))
            = Some (SFloat32 [S754_infinity false])).
Proof.
  split; [parsed_frame|]. split; [parsed_frame|].
  split; [reflexivity|].
  split; [eexists; split; [reflexivity|]; split; reflexivity|].
  split; [parsed_frame|]. split; [parsed_frame|].
  split; [reflexivity|]. split; [reflexivity|].
  eexists. split; [reflexivity|]. split; reflexivity.
Qed.


End NormalizeProps.


(** ** Properties of [load_data] (the specification's [load]) *)

Module LoadProps.
Import Float Frame View Scenario.
Import FloatFacts ZscoreFacts FrameFacts PreprocessFacts PipelineFacts.
Import LoadFacts EncodeProps NormalizeProps.
Local Open Scope list_scope.













End LoadProps.


(** ** What [standardize] and the pipeline leave alone *)

Module FrameProps.
Import Float Frame View Scenario.
Import FloatFacts ZscoreFacts FrameFacts PreprocessFacts PipelineFacts.
Import LoadFacts EncodeProps NormalizeProps LoadProps.
Local Open Scope list_scope.




End FrameProps.


(** ** Properties of [download] (the specification's [fetch]) *)

Module FetchProps.
Import PyStr Cleaning Fetch Scenario.

Lemma write_node_other (path p : string) (n : option node) (w : world) :
  p <> path -> fs (write_node path n w) p = fs w p.
Proof.
  intros H. unfold write_node. cbn [fs].
  destruct (String.eqb_spec p path); [contradiction | reflexivity].
Qed.

Lemma write_node_same (path : string) (n : option node) (w : world) :
  fs (write_node path n w) path = n.
Proof. unfold write_node. cbn [fs]. now rewrite String.eqb_refl. Qed.

(** With both files in place [download] goes through its two tests
    without a call to [_download_and_clean_file]. *)
Lemma download_skips (remote : string -> option string)
      (temp_name : nat -> string) (d : string) (w : world) (c1 c2 : string) :
  fs w d = Some Dir ->
  fs w (path_join d TRAINING_FILE) = Some (File c1) ->
  fs w (path_join d EVAL_FILE) = Some (File c2) ->
  download remote temp_name d w
  = (Ok (path_join d TRAINING_FILE, path_join d EVAL_FILE), w).
Proof.
  intros Hd H1 H2. unfold download, bindIO, makedirs, exists_, ret.
  rewrite Hd, H1. cbn [negb]. now rewrite H2.
Qed.

(** C7: when both destination files exist, a call of [download] sends
    no network request, creates no temporary file, and leaves the two
    files, and every path other than the data directory itself, as
    they were; it returns the two paths (unless the data directory is
    itself a file), and calling it again changes nothing more. *)
Theorem download_idempotent
        (remote : string -> option string) (temp_name : nat -> string)
        (d : string) (w : world) (c1 c2 : string) :
  fs w (path_join d TRAINING_FILE) = Some (File c1) ->
  fs w (path_join d EVAL_FILE) = Some (File c2) ->
  exists r w',
    download remote temp_name d w = (r, w')
    /\ requests w' = requests w
    /\ temps w' = temps w
    /\ fs w' (path_join d TRAINING_FILE) = Some (File c1)
    /\ fs w' (path_join d EVAL_FILE) = Some (File c2)
    /\ (forall p, p <> d -> fs w' p = fs w p)
    /\ ((forall c, fs w d <> Some (File c)) ->
        r = Ok (path_join d TRAINING_FILE, path_join d EVAL_FILE))
    /\ download remote temp_name d w' = (r, w').
Proof.
  intros H1 H2.
  destruct (fs w d) as [[c|]|] eqn:Hd.
  - exists (Err (OSError d)), w.
    assert (E : download remote temp_name d w = (Err (OSError d), w)).
    { unfold download, bindIO, makedirs. now rewrite Hd. }
    repeat split; auto. intros N. now elim (N c).
  - exists (Ok (path_join d TRAINING_FILE, path_join d EVAL_FILE)), w.
    pose proof (download_skips remote temp_name d w c1 c2 Hd H1 H2) as E.
    repeat split; auto.
  - set (w1 := write_node d (Some Dir) w).
    assert (N1 : path_join d TRAINING_FILE <> d) by congruence.
    assert (N2 : path_join d EVAL_FILE <> d) by congruence.
    assert (H1' : fs w1 (path_join d TRAINING_FILE) = Some (File c1))
      by (unfold w1; now rewrite write_node_other).
    assert (H2' : fs w1 (path_join d EVAL_FILE) = Some (File c2))
      by (unfold w1; now rewrite write_node_other).
    assert (Hd' : fs w1 d = Some Dir) by apply write_node_same.
    exists (Ok (path_join d TRAINING_FILE, path_join d EVAL_FILE)), w1.
    assert (E : download remote temp_name d w
                = (Ok (path_join d TRAINING_FILE, path_join d EVAL_FILE), w1)).
    { unfold download, bindIO, makedirs, exists_, ret. rewrite Hd.
      fold w1. rewrite H1'. cbn [negb]. now rewrite H2'. }
    repeat split; auto.
    + intros p Hp. unfold w1. now apply write_node_other.
    + now apply download_skips with (c1 := c1) (c2 := c2).
Qed.

Lemma download_idempotent_witness :
  exists r w',
    download (fun _ => None) (fun _ => "/tmp/tmp0") "/tmp/census_data"
             cached_world = (r, w')
    /\ requests w' = requests cached_world
    /\ temps w' = temps cached_world
    /\ fs w' (path_join "/tmp/census_data" TRAINING_FILE)
       = Some (File "39,State-gov")
    /\ fs w' (path_join "/tmp/census_data" EVAL_FILE)
       = Some (File "25,Private")
    /\ (forall p, p <> "/tmp/census_data" -> fs w' p = fs cached_world p)
    /\ ((forall c, fs cached_world "/tmp/census_data" <> Some (File c)) ->
        r = Ok (path_join "/tmp/census_data" TRAINING_FILE,
                path_join "/tmp/census_data" EVAL_FILE))
    /\ download (fun _ => None) (fun _ => "/tmp/tmp0") "/tmp/census_data" w'
       = (r, w').
Proof.
  apply (download_idempotent (fun _ => None) (fun _ => "/tmp/tmp0")
           "/tmp/census_data" cached_world "39,State-gov" "25,Private").
  - reflexivity.
  - reflexivity.
Defined.

End FetchProps.


(** ** More on the cleaning pass *)

Module CleaningMore.
Import PyStr Cleaning LineView PyStrFacts CleaningFacts.

Lemma isspace_not_comma (c : ascii) : isspace c = true -> Ascii.eqb "," c = false.
Proof.
  intros H. destruct (Ascii.eqb_spec "," c) as [<-|]; [discriminate | reflexivity].
Qed.

Lemma count_lstrip (s : string) : count_char "," (lstrip s) = count_char "," s.
Proof.
  induction s as [|c s IH]; [reflexivity|]. cbn [lstrip count_char].
  destruct (isspace c) eqn:E; [|reflexivity].
  now rewrite IH, (isspace_not_comma c E).
Qed.

Lemma count_rstrip (s : string) : count_char "," (rstrip s) = count_char "," s.
Proof.
  induction s as [|c s IH]; [reflexivity|].
  rewrite rstrip_cons. cbn [count_char]. rewrite <- IH.
  destruct (rstrip s) as [|d r]; [|reflexivity].
  destruct (isspace c) eqn:E; [|reflexivity].
  now rewrite (isspace_not_comma c E).
Qed.

Lemma count_replace (s : string) :
  count_char "," (replace ", " "," s) = count_char "," s.
Proof.
  induction s as [| c | c d s IH1 IH2] using string_pair_ind; try reflexivity.
  - destruct (prefix ", " (String c "")) eqn:P.
    + apply prefix_comma_space in P. now destruct P as [_ [s' [=]]].
    + now rewrite replace_other.
  - destruct (prefix ", " (String c (String d s))) eqn:P.
    + apply prefix_comma_space in P. destruct P as [-> [s' [= -> ->]]].
      rewrite replace_comma_space. cbn [count_char]. rewrite IH1.
      reflexivity.
    + rewrite replace_other by exact P. cbn [count_char] in *.
      now rewrite IH2.
Qed.

Lemma nfields_normalized (l : string) : nfields (normalized l) = nfields l.
Proof.
  unfold nfields, normalized, strip.
  now rewrite count_replace, count_rstrip, count_lstrip.
Qed.

(** A line is dropped exactly when it holds no comma. *)
Lemma clean_line_dropped (l : string) :
  clean_line l = None <-> contains "," l = false.
Proof.
  pose proof (nfields_normalized l) as N.
  rewrite clean_line_unfold.
  destruct (contains "," (normalized l)) eqn:C.
  - split; [discriminate|].
    intros C'. apply contains_false_count in C'. apply contains_count in C.
    unfold nfields in N. lia.
  - split; [|reflexivity].
    intros _. apply contains_false_count. apply contains_false_count in C.
    unfold nfields in N. lia.
Qed.

(** X1.  A line is dropped by the cleaning loop exactly when it has no
    comma.  A line that is kept is written as one body followed by a
    newline, and the body has as many comma-separated fields as the line
    read: trimming, the removal of the space after a comma and the removal
    of the final period neither add nor remove a field. *)
Theorem clean_line_fields (l : string) :
  (clean_line l = None <-> contains "," l = false)
  /\ (forall out, clean_line l = Some out ->
                  exists body, out = body ++ nl /\ nfields body = nfields l).
Proof.
  split; [apply clean_line_dropped|].
  pose proof (nfields_normalized l) as N.
  rewrite clean_line_unfold.
  destruct (contains "," (normalized l)); [|discriminate].
  intros out [= <-]. eexists. split; [reflexivity|].
  destruct (ends_with_period (normalized l)) eqn:P; [|exact N].
  now rewrite nfields_drop_period.
Qed.

(** *** Lines that are already clean *)

Lemma lstrip_id (s : string) (c : ascii) :
  first_char s = Some c -> isspace c = false -> lstrip s = s.
Proof.
  destruct s as [|d s]; [discriminate|]. intros [= ->] H.
  cbn [lstrip]. now rewrite H.
Qed.

Lemma rstrip_id (s : string) (d : ascii) :
  last_char s = Some d -> isspace d = false -> rstrip s = s.
Proof.
  induction s as [|c s IH]; [discriminate|].
  destruct s as [|c' s'].
  - intros [= ->] H. cbn. now rewrite H.
  - rewrite last_char_cons. intros L H. rewrite rstrip_cons.
    now rewrite (IH L H).
Qed.

Lemma rstrip_app_nl (s : string) : rstrip (s ++ nl) = rstrip s.
Proof.
  induction s as [|c s IH]; [reflexivity|].
  change (String c s ++ nl) with (String c (s ++ nl)).
  now rewrite !rstrip_cons, IH.
Qed.

Lemma lstrip_app_nl (s : string) :
  lstrip (s ++ nl) = if lstrip s =? "" then "" else lstrip s ++ nl.
Proof.
  induction s as [|c s IH]; [reflexivity|].
  change (String c s ++ nl) with (String c (s ++ nl)). cbn [lstrip].
  destruct (isspace c); [exact IH | reflexivity].
Qed.

(** A terminator at the end of a line does not change what [strip]
    returns. *)
Lemma strip_app_nl (s : string) : strip (s ++ nl) = strip s.
Proof.
  unfold strip. rewrite lstrip_app_nl.
  destruct (String.eqb_spec (lstrip s) "") as [->|_]; [reflexivity|].
  apply rstrip_app_nl.
Qed.

Lemma replace_id (s : string) :
  has_comma_space s = false -> replace ", " "," s = s.
Proof.
  induction s as [|c s IH]; [reflexivity|].
  cbn [has_comma_space]. intros H. apply orb_false_iff in H.
  destruct H as [P H]. rewrite replace_other by exact P. now rewrite IH.
Qed.

Lemma tidy_strip (l : string) : tidy l = true -> strip l = l.
Proof.
  unfold tidy, padded. intros H.
  repeat (apply andb_true_iff in H; destruct H as [H ?]).
  destruct l as [|c l]; [discriminate|]. cbn [first_char] in *.
  destruct (last_char (String c l)) as [d|] eqn:L.
  - destruct (isspace c) eqn:Ec; [discriminate|].
    destruct (isspace d) eqn:Ed; [discriminate|].
    unfold strip. rewrite (lstrip_id (String c l) c eq_refl Ec).
    exact (rstrip_id _ d L Ed).
  - exfalso. revert L. clear. revert c.
    induction l as [|d l IH]; intros c; [discriminate|].
    rewrite last_char_cons. apply IH.
Qed.

Lemma tidy_clean_line (l : string) :
  tidy l = true ->
  clean_line l = Some (l ++ nl) /\ clean_line (l ++ nl) = Some (l ++ nl).
Proof.
  intros T. pose proof (tidy_strip l T) as S.
  assert (N : normalized l = l /\ normalized (l ++ nl) = l).
  { unfold normalized. rewrite strip_app_nl, S.
    unfold tidy in T. repeat (apply andb_true_iff in T; destruct T as [T ?]).
    rewrite replace_id; [auto|]. now apply negb_true_iff. }
  destruct N as [N1 N2].
  unfold tidy in T. repeat (apply andb_true_iff in T; destruct T as [T ?]).
  rewrite !clean_line_unfold, N1, N2, T.
  match goal with H : negb (ends_with_period l) = true |- _ =>
    apply negb_true_iff in H; rewrite H end.
  auto.
Qed.

(** *** The lines of a file *)

Lemma append_nil_r (s : string) : s ++ "" = s.
Proof. induction s as [|c s IH]; [reflexivity|]. simpl. now rewrite IH. Qed.

Lemma append_assoc (a b c : string) : (a ++ b) ++ c = a ++ (b ++ c).
Proof. induction a as [|x a IH]; [reflexivity|]. simpl. now rewrite IH. Qed.

Lemma nl_free_cons (c : ascii) (b : string) :
  nl_free (String c b) = true
  <-> Ascii.eqb c "010" = false /\ Ascii.eqb c "013" = false
      /\ nl_free b = true.
Proof.
  unfold nl_free. cbn [contains].
  rewrite (Ascii.eqb_sym "010" c), (Ascii.eqb_sym "013" c).
  destruct (Ascii.eqb c "010"), (Ascii.eqb c "013"),
    (contains "010" b), (contains "013" b); simpl; intuition congruence.
Qed.

Lemma nl_free_contains (c : ascii) (b : string) :
  nl_free b = true -> c = "010"%char \/ c = "013"%char ->
  contains c b = false.
Proof.
  unfold nl_free. intros H. apply andb_true_iff in H.
  destruct H as [H1 H2]. apply negb_true_iff in H1, H2.
  now intros [-> | ->].
Qed.

Lemma readlines_line (b rest : string) :
  nl_free b = true -> readlines (b ++ nl ++ rest) = (b ++ nl) :: readlines rest.
Proof.
  induction b as [|c b IH]; [reflexivity|].
  intros H. apply nl_free_cons in H. destruct H as (H1 & H2 & Hb).
  change (String c b ++ nl ++ rest) with (String c (b ++ nl ++ rest)).
  cbn [readlines]. rewrite H1, H2, (IH Hb). reflexivity.
Qed.

Lemma concat_cons (x : string) (xs : list string) :
  String.concat "" (x :: xs) = x ++ String.concat "" xs.
Proof.
  destruct xs as [|y ys]; [simpl; now rewrite append_nil_r | reflexivity].
Qed.

Lemma readlines_concat (bodies : list string) :
  Forall (fun b => nl_free b = true) bodies ->
  readlines (String.concat "" (map (fun b => b ++ nl) bodies))
  = map (fun b => b ++ nl) bodies.
Proof.
  induction 1 as [|b bodies Hb _ IH]; [reflexivity|].
  cbn [map]. rewrite concat_cons, append_assoc.
  now rewrite readlines_line, IH.
Qed.

(** X2.  Cleaning is the identity on a file that is already clean: when
    every line has a comma, no white space at either end, no space after a
    comma, no final period, no line break and no carriage return, every
    line is written back as it is and the cleaned text is the text read. *)
Theorem clean_file_tidy (ls : list string) :
  Forall (fun l => tidy l = true) ls ->
  clean_file (unlines ls) = unlines ls
  /\ Forall (fun l => clean_line l = Some (l ++ nl)) ls.
Proof.
  intros T. split.
  - unfold clean_file, unlines. rewrite readlines_concat.
    + unfold clean_lines, written. f_equal.
      induction T as [|l ls Hl _ IH]; [reflexivity|].
      cbn [map flat_map]. destruct (tidy_clean_line l Hl) as [_ ->].
      cbn [app]. now rewrite IH.
    + apply Forall_forall. intros l Hl. rewrite Forall_forall in T.
      specialize (T l Hl). unfold tidy in T.
      now apply andb_true_iff in T.
  - apply Forall_forall. intros l Hl. rewrite Forall_forall in T.
    apply (tidy_clean_line l (T l Hl)).
Qed.

Lemma clean_file_tidy_witness :
  clean_file (unlines Samples.tidy_lines) = unlines Samples.tidy_lines
  /\ Forall (fun l => clean_line l = Some (l ++ nl)) Samples.tidy_lines.
Proof.
  apply (clean_file_tidy Samples.tidy_lines).
  repeat constructor.
Defined.

(** *** What the cleaned file looks like *)

Lemma contains_lstrip (c : ascii) (s : string) :
  contains c s = false -> contains c (lstrip s) = false.
Proof.
  induction s as [|d s IH]; [reflexivity|]. cbn [lstrip].
  destruct (isspace d); [|auto]. cbn [contains]. intros H.
  apply orb_false_iff in H. now apply IH.
Qed.

Lemma contains_rstrip (c : ascii) (s : string) :
  contains c s = false -> contains c (rstrip s) = false.
Proof.
  induction s as [|d s IH]; [reflexivity|]. rewrite rstrip_cons.
  cbn [contains]. intros H. apply orb_false_iff in H. destruct H as [Hd Hs].
  specialize (IH Hs). destruct (rstrip s) as [|e r].
  - destruct (isspace d); [reflexivity|]. cbn [contains]. now rewrite Hd.
  - cbn [contains] in *. now rewrite Hd, IH.
Qed.

Lemma contains_replace (c : ascii) (s : string) :
  contains c s = false -> contains c (replace ", " "," s) = false.
Proof.
  induction s as [| d | d e s IH1 IH2] using string_pair_ind; try reflexivity.
  - destruct (prefix ", " (String d "")) eqn:P.
    + apply prefix_comma_space in P. now destruct P as [_ [s' [=]]].
    + now rewrite replace_other.
  - destruct (prefix ", " (String d (String e s))) eqn:P.
    + apply prefix_comma_space in P. destruct P as [-> [s' [= -> ->]]].
      rewrite replace_comma_space. cbn [contains]. intros H.
      apply orb_false_iff in H. destruct H as [H1 H].
      apply orb_false_iff in H. destruct H as [_ H].
      now rewrite H1, IH1.
    + rewrite replace_other by exact P. cbn [contains]. intros H.
      apply orb_false_iff in H. destruct H as [H1 H].
      rewrite H1. now apply IH2.
Qed.

Lemma contains_drop_last (c : ascii) (s : string) :
  contains c s = false -> contains c (drop_last s) = false.
Proof.
  induction s as [|d s IH]; [reflexivity|].
  destruct s as [|e s']; [reflexivity|].
  rewrite drop_last_cons. cbn [contains] in *. intros H.
  apply orb_false_iff in H. destruct H as [H1 H]. rewrite H1. now apply IH.
Qed.

(** A line that iteration over a file yields holds no carriage return
    and at most one terminator, at its end. *)
Lemma readlines_shape (content : string) :
  Forall (fun l => exists b, nl_free b = true /\ (l = b ++ nl \/ l = b))
         (readlines content).
Proof.
  induction content as [|c s IH]; [constructor|]. cbn [readlines].
  destruct (Ascii.eqb c "010") eqn:N.
  - constructor; [|exact IH]. exists "". apply Ascii.eqb_eq in N. subst c.
    auto.
  - destruct (Ascii.eqb c "013") eqn:R; [exact IH|].
    assert (Hc : forall b, nl_free b = true -> nl_free (String c b) = true).
    { intros b Hb. apply nl_free_cons. auto. }
    destruct (readlines s) as [|l ls].
    + constructor; [|constructor]. exists (String c ""). auto.
    + inversion IH as [|? ? [b [Hb Hl]] IH']; subst.
      constructor; [|exact IH'].
      exists (String c b). split; [auto|]. destruct Hl as [-> | ->]; auto.
Qed.

Lemma written_shape (ls : list string) :
  Forall (fun l => exists b, nl_free b = true /\ (l = b ++ nl \/ l = b)) ls ->
  exists bodies,
    written ls = map (fun b => b ++ nl) bodies
    /\ Forall (fun b => nl_free b = true /\ contains "," b = true) bodies.
Proof.
  induction 1 as [|l ls [b [Hb Hl]] _ [bodies [E F]]].
  - exists []. split; [reflexivity | constructor].
  - unfold written in *. cbn [flat_map]. rewrite clean_line_unfold.
    assert (Hk : forall c, c = "010"%char \/ c = "013"%char ->
                           contains c (normalized l) = false).
    { intros c Hc. unfold normalized. apply contains_replace.
      replace (strip l) with (strip b)
        by (destruct Hl as [-> | ->]; [now rewrite strip_app_nl | reflexivity]).
      apply contains_rstrip, contains_lstrip.
      now apply nl_free_contains. }
    assert (Hn : nl_free (normalized l) = true).
    { unfold nl_free. rewrite !Hk; auto. }
    destruct (contains "," (normalized l)) eqn:C; [|now exists bodies].
    destruct (ends_with_period (normalized l)) eqn:P.
    + exists (drop_last (normalized l) :: bodies). cbn [map app]. rewrite E.
      split; [reflexivity|]. constructor; [|exact F]. split.
      * unfold nl_free. rewrite !contains_drop_last; auto.
      * apply contains_count.
        pose proof (nfields_drop_period _ P) as D. apply contains_count in C.
        unfold nfields in D. lia.
    + exists (normalized l :: bodies). cbn [map app]. rewrite E.
      split; [reflexivity|]. constructor; auto.
Qed.

Lemma written_length (ls : list string) :
  length (written ls) = length (filter (contains ",") ls).
Proof.
  unfold written. induction ls as [|l ls IH]; [reflexivity|].
  cbn [flat_map filter]. rewrite length_app, IH.
  destruct (clean_line_dropped l) as [N1 N2].
  destruct (clean_line l) as [out|] eqn:E.
  - destruct (contains "," l) eqn:C; [reflexivity|].
    specialize (N2 eq_refl). discriminate.
  - now rewrite (N1 eq_refl).
Qed.

(** X3.  The cleaned file, read back line by line, is the list of the
    lines written: the pass never writes a line that the next reading
    would split, merge or change.  Every one of its lines is a body with
    a comma, no line break and no carriage return, followed by one
    newline, and there are as many of them as the reader yields lines
    with a comma from the file read (the reader drops the carriage
    returns). *)
Theorem clean_file_lines (content : string) :
  readlines (clean_file content) = written (readlines content)
  /\ Forall (fun out => exists body,
                 out = body ++ nl /\ nl_free body = true
                 /\ contains "," body = true)
            (written (readlines content))
  /\ length (written (readlines content))
     = length (filter (contains ",") (readlines content)).
Proof.
  destruct (written_shape _ (readlines_shape content)) as [bodies [E F]].
  split; [|split].
  - unfold clean_file, clean_lines. fold (written (readlines content)).
    rewrite E. apply readlines_concat.
    apply Forall_forall. intros b Hb. rewrite Forall_forall in F.
    apply (F b Hb).
  - rewrite E. apply Forall_forall. intros out Ho. apply in_map_iff in Ho.
    destruct Ho as [b [<- Hb]]. rewrite Forall_forall in F.
    exists b. split; [reflexivity | apply (F b Hb)].
  - apply written_length.
Qed.

End CleaningMore.


(** ** More on [download] *)

Module FetchMore.
Import PyStr Cleaning LineView Fetch FetchProps.

Lemma length_append (a b : string) :
  String.length (a ++ b) = String.length a + String.length b.
Proof. induction a as [|c a IH]; [reflexivity|]. simpl. now rewrite IH. Qed.

Lemma append_inj (a x y : string) : a ++ x = a ++ y -> x = y.
Proof.
  induction a as [|c a IH]; [auto|]. simpl. intros [= H]. now apply IH.
Qed.

(** A destination path is the directory, a separator when the directory
    does not end with one, and the file name. *)
Lemma path_join_file (d f : string) :
  prefix "/" f = false ->
  exists sep, (forall g, prefix "/" g = false -> path_join d g = d ++ sep ++ g)
              /\ path_join d f = d ++ sep ++ f.
Proof.
  intros F. unfold path_join.
  destruct ((d =? "") || ends_with_slash d) eqn:E.
  - exists "". split; [intros g G; now rewrite G | now rewrite F].
  - exists "/". split; [intros g G; now rewrite G | now rewrite F].
Qed.

Lemma destination_not_dir (d f : string) :
  prefix "/" f = false -> f <> "" -> path_join d f <> d.
Proof.
  intros F N E. destruct (path_join_file d f F) as [sep [_ P]].
  rewrite P in E. apply (f_equal String.length) in E.
  rewrite !length_append in E. destruct f; [congruence|]. simpl in E. lia.
Qed.

Lemma destinations_differ (d : string) :
  path_join d TRAINING_FILE <> path_join d EVAL_FILE.
Proof.
  destruct (path_join_file d TRAINING_FILE eq_refl) as [sep [P _]].
  rewrite (P TRAINING_FILE eq_refl), (P EVAL_FILE eq_refl). intros E.
  apply append_inj, append_inj in E. discriminate.
Qed.

Lemma eqb_false (a b : string) : a <> b -> (a =? b) = false.
Proof. apply String.eqb_neq. Qed.

(** *** One file *)

Section OneFile.

Variable remote : string -> option string.
Variable temp_name : nat -> string.

Lemma fetch_unreachable (filename url : string) (w : world) :
  remote url = None ->
  _download_and_clean_file remote temp_name filename url w
  = (Err (URLError url), mkWorld (fs w) (url :: requests w) (temps w)).
Proof.
  intros H. unfold _download_and_clean_file, bindIO, urlretrieve.
  now rewrite H.
Qed.

Lemma fetch_reachable (filename url body : string) (w : world) :
  remote url = Some body ->
  keeps_a_line body ->
  temp_name (temps w) <> filename ->
  fs w filename <> Some Dir ->
  exists w',
    _download_and_clean_file remote temp_name filename url w = (Ok tt, w')
    /\ requests w' = url :: requests w
    /\ temps w' = S (temps w)
    /\ (forall p,
           fs w' p = if p =? temp_name (temps w) then None
                     else if p =? filename then Some (File (clean_file body))
                     else fs w p).
Proof.
  intros H K T D. set (t := temp_name (temps w)) in *.
  pose proof (eqb_false _ _ T) as Tf.
  assert (Ft : (filename =? t) = false) by (apply eqb_false; congruence).
  unfold _download_and_clean_file, bindIO, urlretrieve.
  rewrite H. fold t.
  unfold read_file at 1. cbn [fs]. rewrite String.eqb_refl.
  unfold clean_file, clean_lines. unfold keeps_a_line in K.
  destruct (written (readlines body)) as [|line lines] eqn:Wr; [congruence|].
  unfold write_lines.
  unfold write_file at 1. cbn [fs]. rewrite Ft.
  destruct (fs w filename) as [[c|]|] eqn:Fw; [| now elim D |].
  - unfold remove, write_node. cbn [fs requests temps].
    rewrite Tf, String.eqb_refl.
    eexists. split; [reflexivity|]. cbn [fs requests temps].
    repeat split. intros p.
    destruct (String.eqb_spec p t) as [->|Np]; [reflexivity|].
    destruct (String.eqb_spec p filename) as [->|Nf]; [reflexivity|].
    reflexivity.
  - unfold remove, write_node. cbn [fs requests temps].
    rewrite Tf, String.eqb_refl.
    eexists. split; [reflexivity|]. cbn [fs requests temps].
    repeat split. intros p.
    destruct (String.eqb_spec p t) as [->|Np]; [reflexivity|].
    destruct (String.eqb_spec p filename) as [->|Nf]; [reflexivity|].
    reflexivity.
Qed.



End OneFile.

(** *** Both files *)

Section BothFiles.

Variable remote : string -> option string.
Variable temp_name : nat -> string.

Lemma makedirs_ok (d : string) (w : world) :
  (forall c, fs w d <> Some (File c)) ->
  exists w1,
    makedirs d w = (Ok tt, w1)
    /\ requests w1 = requests w
    /\ temps w1 = temps w
    /\ (forall p, fs w1 p = if p =? d then Some Dir else fs w p).
Proof.
  intros N. unfold makedirs. destruct (fs w d) as [[c|]|] eqn:E.
  - now elim (N c).
  - exists w. repeat split. intros p.
    destruct (String.eqb_spec p d) as [->|_]; auto.
  - eexists. split; [reflexivity|]. unfold write_node. cbn. auto.
Qed.


(** Both files are absent and the first can be retrieved. *)
Lemma download_first_fetched (d body : string) (w : world) :
  (forall c, fs w d <> Some (File c)) ->
  fs w (path_join d TRAINING_FILE) = None ->
  fs w (path_join d EVAL_FILE) = None ->
  remote TRAINING_URL = Some body ->
  keeps_a_line body ->
  temp_name (temps w) <> path_join d TRAINING_FILE ->
  temp_name (temps w) <> path_join d EVAL_FILE ->
  exists w2,
    download remote temp_name d w
    = bindIO (_download_and_clean_file remote temp_name
                (path_join d EVAL_FILE) EVAL_URL)
             (fun _ => ret (path_join d TRAINING_FILE, path_join d EVAL_FILE))
             w2
    /\ requests w2 = TRAINING_URL :: requests w
    /\ temps w2 = S (temps w)
    /\ (forall p,
           fs w2 p = if p =? temp_name (temps w) then None
                     else if p =? path_join d TRAINING_FILE
                          then Some (File (clean_file body))
                     else if p =? d then Some Dir
                     else fs w p).
Proof.
  intros Nd Ht He R K T0t T0e.
  destruct (makedirs_ok d w Nd) as (w1 & M & Rq1 & Tm1 & F1).
  pose proof (destination_not_dir d TRAINING_FILE eq_refl
                ltac:(discriminate)) as Nt.
  pose proof (destination_not_dir d EVAL_FILE eq_refl
                ltac:(discriminate)) as Ne.
  pose proof (destinations_differ d) as Nte.
  destruct (fetch_reachable remote temp_name (path_join d TRAINING_FILE)
              TRAINING_URL body w1 R K)
    as (w2 & E2 & Rq2 & Tm2 & F2).
  { now rewrite Tm1. }
  { rewrite F1, (eqb_false _ _ Nt), Ht. discriminate. }
  exists w2. rewrite Tm1 in *. rewrite Rq1 in *.
  split; [|repeat split; auto].
  - unfold download. unfold bindIO at 1. rewrite M.
    unfold bindIO at 1. unfold exists_ at 1.
    rewrite F1, (eqb_false _ _ Nt), Ht. cbn [negb].
    unfold bindIO at 1. rewrite E2.
    unfold bindIO at 1. unfold exists_ at 1.
    rewrite F2, F1.
    rewrite (eqb_false (path_join d EVAL_FILE) (temp_name (temps w)))
      by congruence.
    rewrite (eqb_false (path_join d EVAL_FILE) (path_join d TRAINING_FILE))
      by congruence.
    rewrite (eqb_false _ _ Ne), He. cbn [negb]. reflexivity.
  - intros p. rewrite F2. now rewrite F1.
Qed.

(** Both files are absent and both can be retrieved. *)
Lemma download_both_fetched (d body1 body2 : string) (w : world) :
  (forall c, fs w d <> Some (File c)) ->
  fs w (path_join d TRAINING_FILE) = None ->
  fs w (path_join d EVAL_FILE) = None ->
  remote TRAINING_URL = Some body1 ->
  remote EVAL_URL = Some body2 ->
  keeps_a_line body1 -> keeps_a_line body2 ->
  (forall k p, In p [d; path_join d TRAINING_FILE; path_join d EVAL_FILE] ->
               temp_name k <> p) ->
  exists w',
    download remote temp_name d w
    = (Ok (path_join d TRAINING_FILE, path_join d EVAL_FILE), w')
    /\ requests w' = EVAL_URL :: TRAINING_URL :: requests w
    /\ (forall p,
           fs w' p = if p =? temp_name (S (temps w)) then None
                     else if p =? path_join d EVAL_FILE
                          then Some (File (clean_file body2))
                     else if p =? temp_name (temps w) then None
                     else if p =? path_join d TRAINING_FILE
                          then Some (File (clean_file body1))
                     else if p =? d then Some Dir
                     else fs w p)
    /\ fs w' (path_join d TRAINING_FILE) = Some (File (clean_file body1))
    /\ fs w' (path_join d EVAL_FILE) = Some (File (clean_file body2))
    /\ fs w' d = Some Dir.
Proof.
  intros Nd Ht He R1 R2 K1 K2 Tn.
  assert (Td : forall k, temp_name k <> d) by (intros k; apply Tn; simpl; auto).
  assert (Tt : forall k, temp_name k <> path_join d TRAINING_FILE)
    by (intros k; apply Tn; simpl; auto).
  assert (Te : forall k, temp_name k <> path_join d EVAL_FILE)
    by (intros k; apply Tn; simpl; auto).
  pose proof (destination_not_dir d TRAINING_FILE eq_refl
                ltac:(discriminate)) as Nt.
  pose proof (destination_not_dir d EVAL_FILE eq_refl
                ltac:(discriminate)) as Ne.
  pose proof (destinations_differ d) as Nte.
  destruct (download_first_fetched d body1 w Nd Ht He R1 K1 (Tt _) (Te _))
    as (w2 & E & Rq2 & Tm2 & F2).
  destruct (fetch_reachable remote temp_name (path_join d EVAL_FILE)
              EVAL_URL body2 w2 R2 K2)
    as (w3 & E3 & Rq3 & Tm3 & F3).
  { apply Te. }
  { rewrite F2. rewrite (eqb_false _ _ (not_eq_sym (Te _))).
    rewrite (eqb_false (path_join d EVAL_FILE) (path_join d TRAINING_FILE))
      by congruence.
    rewrite (eqb_false _ _ Ne), He. discriminate. }
  assert (F : forall p,
             fs w3 p = if p =? temp_name (S (temps w)) then None
                       else if p =? path_join d EVAL_FILE
                            then Some (File (clean_file body2))
                       else if p =? temp_name (temps w) then None
                       else if p =? path_join d TRAINING_FILE
                            then Some (File (clean_file body1))
                       else if p =? d then Some Dir
                       else fs w p).
  { intros p. rewrite F3, Tm2. now rewrite F2. }
  exists w3. rewrite E. unfold bindIO. rewrite E3. unfold ret.
  split; [reflexivity|]. rewrite Rq3, Rq2.
  split; [reflexivity|]. split; [exact F|].
  split; [|split].
  - rewrite F. rewrite !(eqb_false _ _ (not_eq_sym (Tt _))).
    rewrite (eqb_false _ _ Nte). now rewrite String.eqb_refl.
  - rewrite F. rewrite !(eqb_false _ _ (not_eq_sym (Te _))).
    now rewrite String.eqb_refl.
  - rewrite F. rewrite !(eqb_false _ _ (not_eq_sym (Td _))).
    rewrite (eqb_false d (path_join d EVAL_FILE)) by congruence.
    rewrite (eqb_false d (path_join d TRAINING_FILE)) by congruence.
    now rewrite String.eqb_refl.
Qed.

(** X5.  On a cold cache with both URLs reachable and bodies of which
    the cleaning pass keeps at least a line each, [download] requests the
    training URL and then the evaluation URL, once each, returns the two
    paths inside the data directory, leaves the cleaned bodies there and
    no temporary file behind, and changes no other path; a second call
    returns the same paths and changes nothing. *)
Theorem download_cold_cache (d body1 body2 : string) (w : world) :
  (forall c, fs w d <> Some (File c)) ->
  fs w (path_join d TRAINING_FILE) = None ->
  fs w (path_join d EVAL_FILE) = None ->
  remote TRAINING_URL = Some body1 ->
  remote EVAL_URL = Some body2 ->
  keeps_a_line body1 -> keeps_a_line body2 ->
  (forall k p, In p [d; path_join d TRAINING_FILE; path_join d EVAL_FILE] ->
               temp_name k <> p) ->
  exists w',
    download remote temp_name d w
    = (Ok (path_join d TRAINING_FILE, path_join d EVAL_FILE), w')
    /\ requests w' = EVAL_URL :: TRAINING_URL :: requests w
    /\ fs w' (path_join d TRAINING_FILE) = Some (File (clean_file body1))
    /\ fs w' (path_join d EVAL_FILE) = Some (File (clean_file body2))
    /\ fs w' (temp_name (temps w)) = None
    /\ fs w' (temp_name (S (temps w))) = None
    /\ (forall p,
           ~ In p [d; path_join d TRAINING_FILE; path_join d EVAL_FILE;
                   temp_name (temps w); temp_name (S (temps w))] ->
           fs w' p = fs w p)
    /\ download remote temp_name d w'
       = (Ok (path_join d TRAINING_FILE, path_join d EVAL_FILE), w').
Proof.
  intros Nd Ht He R1 R2 K1 K2 Tn.
  destruct (download_both_fetched d body1 body2 w Nd Ht He R1 R2 K1 K2 Tn)
    as (w' & E & Rq & F & Ft & Fe & Fd).
  assert (Te : temp_name (temps w) <> path_join d EVAL_FILE)
    by (apply Tn; simpl; auto).
  exists w'. repeat split; auto.
  - rewrite F. destruct (temp_name (temps w) =? temp_name (S (temps w)));
      [reflexivity|].
    rewrite (eqb_false _ _ Te). now rewrite String.eqb_refl.
  - rewrite F. now rewrite String.eqb_refl.
  - intros p Np. rewrite F. cbn [In] in Np.
    rewrite !eqb_false by (intros ->; tauto). reflexivity.
  - now apply download_skips with (c1 := clean_file body1)
                                  (c2 := clean_file body2).
Qed.

(** The first file is cached and the second is absent. *)
Lemma download_first_cached (d c1 : string) (w : world) :
  (forall c, fs w d <> Some (File c)) ->
  fs w (path_join d TRAINING_FILE) = Some (File c1) ->
  fs w (path_join d EVAL_FILE) = None ->
  exists w1,
    download remote temp_name d w
    = bindIO (_download_and_clean_file remote temp_name
                (path_join d EVAL_FILE) EVAL_URL)
             (fun _ => ret (path_join d TRAINING_FILE, path_join d EVAL_FILE))
             w1
    /\ requests w1 = requests w
    /\ temps w1 = temps w
    /\ (forall p, fs w1 p = if p =? d then Some Dir else fs w p).
Proof.
  intros Nd Ht He.
  destruct (makedirs_ok d w Nd) as (w1 & M & Rq1 & Tm1 & F1).
  pose proof (destination_not_dir d TRAINING_FILE eq_refl
                ltac:(discriminate)) as Nt.
  pose proof (destination_not_dir d EVAL_FILE eq_refl
                ltac:(discriminate)) as Ne.
  exists w1. split; [|auto].
  unfold download. unfold bindIO at 1. rewrite M.
  unfold bindIO at 1. unfold exists_ at 1.
  rewrite F1, (eqb_false _ _ Nt), Ht. cbn [negb].
  unfold bindIO at 1. unfold ret at 1.
  unfold bindIO at 1. unfold exists_ at 1.
  rewrite F1, (eqb_false _ _ Ne), He. cbn [negb]. reflexivity.
Qed.

End BothFiles.

(** X7.  When the training file can be retrieved, with a body of which
    the cleaning pass keeps a line, and the evaluation file cannot,
    [download] raises [URLError] for the evaluation URL but keeps the
    cleaned training file: a later call, with the server back (and an
    evaluation body that keeps a line), requests the evaluation URL only
    and then holds both files. *)
Theorem download_eval_unreachable
        (remote remote' : string -> option string) (temp_name : nat -> string)
        (d body1 body2 : string) (w : world) :
  (forall c, fs w d <> Some (File c)) ->
  fs w (path_join d TRAINING_FILE) = None ->
  fs w (path_join d EVAL_FILE) = None ->
  remote TRAINING_URL = Some body1 ->
  remote EVAL_URL = None ->
  remote' EVAL_URL = Some body2 ->
  keeps_a_line body1 -> keeps_a_line body2 ->
  (forall k p, In p [d; path_join d TRAINING_FILE; path_join d EVAL_FILE] ->
               temp_name k <> p) ->
  exists w' w'',
    download remote temp_name d w = (Err (URLError EVAL_URL), w')
    /\ requests w' = EVAL_URL :: TRAINING_URL :: requests w
    /\ fs w' (path_join d TRAINING_FILE) = Some (File (clean_file body1))
    /\ fs w' (path_join d EVAL_FILE) = None
    /\ download remote' temp_name d w'
       = (Ok (path_join d TRAINING_FILE, path_join d EVAL_FILE), w'')
    /\ requests w'' = EVAL_URL :: requests w'
    /\ fs w'' (path_join d TRAINING_FILE) = Some (File (clean_file body1))
    /\ fs w'' (path_join d EVAL_FILE) = Some (File (clean_file body2)).
Proof.
  intros Nd Ht He R1 R2 R2' K1 K2 Tn.
  assert (Td : forall k, temp_name k <> d) by (intros k; apply Tn; simpl; auto).
  assert (Tt : forall k, temp_name k <> path_join d TRAINING_FILE)
    by (intros k; apply Tn; simpl; auto).
  assert (Te : forall k, temp_name k <> path_join d EVAL_FILE)
    by (intros k; apply Tn; simpl; auto).
  pose proof (destination_not_dir d TRAINING_FILE eq_refl
                ltac:(discriminate)) as Nt.
  pose proof (destination_not_dir d EVAL_FILE eq_refl
                ltac:(discriminate)) as Ne.
  pose proof (destinations_differ d) as Nte.
  destruct (download_first_fetched remote temp_name d body1 w Nd Ht He R1
              K1 (Tt _) (Te _))
    as (w2 & E & Rq2 & Tm2 & F2).
  set (w' := mkWorld (fs w2) (EVAL_URL :: requests w2) (temps w2)).
  assert (E' : download remote temp_name d w = (Err (URLError EVAL_URL), w')).
  { rewrite E. unfold bindIO.
    now rewrite (fetch_unreachable remote temp_name _ _ w2 R2). }
  assert (Ft : fs w' (path_join d TRAINING_FILE)
               = Some (File (clean_file body1))).
  { cbn [w' fs]. rewrite F2. rewrite (eqb_false _ _ (not_eq_sym (Tt _))).
    now rewrite String.eqb_refl. }
  assert (Fe : fs w' (path_join d EVAL_FILE) = None).
  { cbn [w' fs]. rewrite F2. rewrite (eqb_false _ _ (not_eq_sym (Te _))).
    rewrite (eqb_false (path_join d EVAL_FILE) (path_join d TRAINING_FILE))
      by congruence.
    now rewrite (eqb_false _ _ Ne). }
  assert (Fd : forall c, fs w' d <> Some (File c)).
  { intros c. cbn [w' fs]. rewrite F2.
    rewrite (eqb_false _ _ (not_eq_sym (Td _))).
    rewrite (eqb_false d (path_join d TRAINING_FILE)) by congruence.
    rewrite String.eqb_refl. discriminate. }
  destruct (download_first_cached remote' temp_name d _ w' Fd Ft Fe)
    as (w1 & E1 & Rq1 & Tm1 & F1).
  destruct (fetch_reachable remote' temp_name (path_join d EVAL_FILE)
              EVAL_URL body2 w1 R2' K2)
    as (w3 & E3 & Rq3 & Tm3 & F3).
  { apply Te. }
  { rewrite F1, (eqb_false _ _ Ne), Fe. discriminate. }
  exists w', w3. split; [exact E'|].
  split; [cbn [w' requests]; now rewrite Rq2|].
  split; [exact Ft|]. split; [exact Fe|].
  split; [rewrite E1; unfold bindIO; rewrite E3; reflexivity|].
  split; [now rewrite Rq3, Rq1|].
  split.
  - rewrite F3, F1. rewrite (eqb_false _ _ (not_eq_sym (Tt _))).
    rewrite (eqb_false _ _ Nte), (eqb_false _ _ Nt). exact Ft.
  - rewrite F3. rewrite (eqb_false _ _ (not_eq_sym (Te _))).
    now rewrite String.eqb_refl.
Qed.

(** *** The theorems on a cold cache in [/tmp/census_data] *)

Lemma sample_temp_fresh (k : nat) (p : string) :
  In p ["/tmp/census_data"; path_join "/tmp/census_data" TRAINING_FILE;
        path_join "/tmp/census_data" EVAL_FILE] ->
  Samples.sample_temp k <> p.
Proof.
  intros H. vm_compute in H.
  destruct H as [<-|[<-|[<-|[]]]]; discriminate.
Qed.

Lemma training_body_kept : keeps_a_line Samples.training_body.
Proof. vm_compute. discriminate. Qed.

Lemma eval_body_kept : keeps_a_line Samples.eval_body.
Proof. vm_compute. discriminate. Qed.

Lemma training_body_cleaned :
  clean_file Samples.training_body = Samples.training_text.
Proof. reflexivity. Qed.

Lemma eval_body_cleaned : clean_file Samples.eval_body = Samples.eval_text.
Proof. reflexivity. Qed.



Lemma download_cold_cache_witness :
  exists w',
    download Samples.census_remote Samples.sample_temp "/tmp/census_data"
             Samples.cold_world
    = (Ok (path_join "/tmp/census_data" TRAINING_FILE,
           path_join "/tmp/census_data" EVAL_FILE), w')
    /\ requests w' = [EVAL_URL; TRAINING_URL]
    /\ fs w' "/tmp/census_data/adult.data.csv"
       = Some (File Samples.training_text)
    /\ fs w' "/tmp/census_data/adult.test.csv"
       = Some (File Samples.eval_text).
Proof.
  destruct (download_cold_cache Samples.census_remote Samples.sample_temp
              "/tmp/census_data" Samples.training_body Samples.eval_body
              Samples.cold_world)
    as (w' & E & Rq & Ft & Fe & _).
  - discriminate.
  - reflexivity.
  - reflexivity.
  - reflexivity.
  - reflexivity.
  - exact training_body_kept.
  - exact eval_body_kept.
  - exact sample_temp_fresh.
  - exists w'. repeat split; assumption.
Defined.

Lemma download_eval_unreachable_witness :
  exists w' w'',
    download Samples.training_only_remote Samples.sample_temp
             "/tmp/census_data" Samples.cold_world
    = (Err (URLError EVAL_URL), w')
    /\ requests w' = [EVAL_URL; TRAINING_URL]
    /\ fs w' "/tmp/census_data/adult.data.csv"
       = Some (File Samples.training_text)
    /\ fs w' "/tmp/census_data/adult.test.csv" = None
    /\ download Samples.census_remote Samples.sample_temp
                "/tmp/census_data" w'
       = (Ok (path_join "/tmp/census_data" TRAINING_FILE,
              path_join "/tmp/census_data" EVAL_FILE), w'')
    /\ requests w'' = EVAL_URL :: requests w'.
Proof.
  destruct (download_eval_unreachable Samples.training_only_remote
              Samples.census_remote Samples.sample_temp
              "/tmp/census_data" Samples.training_body Samples.eval_body
              Samples.cold_world)
    as (w' & w'' & E & Rq & Ft & Fe & E2 & Rq2 & _).
  - discriminate.
  - reflexivity.
  - reflexivity.
  - reflexivity.
  - reflexivity.
  - reflexivity.
  - exact training_body_kept.
  - exact eval_body_kept.
  - exact sample_temp_fresh.
  - exists w', w''. repeat split; assumption.
Defined.

End FetchMore.


(** ** More on [preprocess] *)

Module PreprocessMore.
Import Float Frame View Scenario Decode.
Import FrameFacts PreprocessFacts EncodeProps.
Local Open Scope list_scope.

Lemma traverse_Err (A B : Type) (f : A -> result B) (l : list A) (e : error) :
  traverse f l = Err e -> exists a, In a l /\ f a = Err e.
Proof.
  induction l as [|a l IH]; simpl; [discriminate|].
  destruct (f a) as [b|e'] eqn:Fa; simpl.
  - destruct (traverse f l) as [bs|e'']; simpl; [discriminate|].
    intros [= <-]. destruct (IH eq_refl) as [x [Hx Fx]]. eauto.
  - intros [= <-]. eauto.
Qed.

Lemma categorical_type_Err (name : string) (e : error) :
  categorical_type name = Err e -> e = KeyError [name].
Proof.
  unfold categorical_type.
  induction _CATEGORICAL_TYPES as [|[n cats] table IH]; simpl.
  - now intros [= <-].
  - destruct (String.eqb name n); [discriminate | exact IH].
Qed.

Lemma encoded_Err (name : string) (s : series) (e : error) :
  encoded name s = Err e ->
  exists l, s = SObject l /\ categorical_type name = Err (KeyError [name])
            /\ e = KeyError [name].
Proof.
  unfold encoded. destruct s as [l|l|l|l|[|o l]]; simpl; try discriminate.
  destruct (categorical_type name) as [cats|e'] eqn:C; simpl; [discriminate|].
  intros [= <-]. pose proof (categorical_type_Err _ _ C) as ->. eauto.
Qed.

(** The two ways in which [preprocess] raises. *)
Lemma preprocess_Err (df : DataFrame) (e : error) :
  preprocess df = Err e ->
  (e = KeyError (filter (fun l => negb (mem l (names df))) UNUSED_COLUMNS)
   /\ filter (fun l => negb (mem l (names df))) UNUSED_COLUMNS <> [])
  \/ (exists n l,
         In (n, SObject l) (columns df)
         /\ kept n = true
         /\ categorical_type n = Err (KeyError [n])
         /\ e = KeyError [n]).
Proof.
  rewrite preprocess_unfold.
  destruct (filter (fun l => negb (mem l (names df))) UNUSED_COLUMNS)
    as [|u us] eqn:F.
  - destruct (traverse _ _) as [cols|e'] eqn:T; [discriminate|].
    intros [= <-]. right.
    apply traverse_Err in T. destruct T as [[n s] [Hin Hf]].
    apply filter_In in Hin. destruct Hin as [Hin K]. cbn [fst snd] in *.
    destruct (encoded n s) as [t|e''] eqn:E; [discriminate|].
    simpl in Hf. injection Hf as <-.
    destruct (encoded_Err _ _ _ E) as (l & -> & C & ->).
    exists n, l. auto.
  - intros [= <-]. left. split; [reflexivity | discriminate].
Qed.

Lemma encoded_dtype (name : string) (s s' : series) :
  series_len s <> 0 ->
  encoded name s = Ok s' ->
  series_len s' = series_len s
  /\ dtype_str s' = dtype_after (dtype_str s).
Proof.
  unfold encoded. destruct s as [l|l|l|l|[|o l]]; simpl; intros N.
  - intros [= <-]. simpl. now rewrite length_map.
  - intros [= <-]. auto.
  - intros [= <-]. auto.
  - intros [= <-]. auto.
  - congruence.
  - destruct (categorical_type name); simpl; [|discriminate].
    intros [= <-]. simpl. now rewrite length_map.
Qed.

Lemma dtype_after_numeric (s : series) :
  dtype_after (dtype_str s) <> "object" /\ dtype_after (dtype_str s) <> "int64".
Proof. destruct s; split; discriminate. Qed.

(** X9.  On a frame with at least one row that it accepts, [preprocess]
    returns the kept columns in their order over the same rows, each
    with its name and length, an [int64] column as [float32], an
    [object] column as [int8], any other column with its dtype: no
    [object] and no [int64] column is left. *)
Theorem preprocess_columns (df : DataFrame) :
  encodable df ->
  populated df ->
  exists df',
    preprocess df = Ok df'
    /\ index df' = index df
    /\ Forall2 encoded_as
               (filter (fun c => kept (fst c)) (columns df)) (columns df')
    /\ Forall (fun c => dtype_str (snd c) <> "object"
                        /\ dtype_str (snd c) <> "int64") (columns df').
Proof.
  intros He [Hrows Hlen].
  apply preprocess_succeeds in He. destruct He as [df' Hp].
  exists df'. split; [exact Hp|].
  apply preprocess_inv in Hp. destruct Hp as (_ & Hi & T).
  split; [exact Hi|]. apply traverse_Ok in T.
  assert (Hne : Forall (fun c => series_len (snd c) <> 0)
                       (filter (fun c => kept (fst c)) (columns df))).
  { apply Forall_forall. intros c Hc. apply filter_In in Hc.
    rewrite Forall_forall in Hlen. rewrite (Hlen c (proj1 Hc)).
    destruct (index df); [congruence | discriminate]. }
  assert (F : Forall2 encoded_as
                      (filter (fun c => kept (fst c)) (columns df))
                      (columns df')).
  { induction T as [|[n s] [n' s'] l l' Hab _ IH]; constructor.
    - cbn [fst snd] in Hab.
      destruct (encoded n s) as [t|e] eqn:E; [|discriminate].
      injection Hab as <- <-. unfold encoded_as. cbn [fst snd].
      inversion Hne; subst.
      split; [reflexivity | now apply (encoded_dtype n)].
    - apply IH. now inversion Hne. }
  split; [exact F|].
  clear T Hne Hlen. induction F as [|c c' l l' (_ & _ & D) _ IH]; constructor; [|exact IH].
  rewrite D. apply dtype_after_numeric.
Qed.

Lemma preprocess_columns_witness :
  exists df',
    preprocess sample_train = Ok df'
    /\ index df' = index sample_train
    /\ Forall2 encoded_as
               (filter (fun c => kept (fst c)) (columns sample_train))
               (columns df')
    /\ Forall (fun c => dtype_str (snd c) <> "object"
                        /\ dtype_str (snd c) <> "int64") (columns df').
Proof.
  apply (preprocess_columns sample_train sample_train_encodable).
  split; [discriminate|]. repeat constructor.
Defined.

(** X10.  [preprocess] cannot be applied twice: on its own result it
    raises [KeyError] with the three unused columns, which the first call
    has removed. *)
Theorem preprocess_twice (df : DataFrame) :
  encodable df ->
  exists df',
    preprocess df = Ok df'
    /\ preprocess df' = Err (KeyError ["fnlwgt"; "education"; "gender"]).
Proof.
  intros He. apply preprocess_succeeds in He. destruct He as [df' Hp].
  exists df'. split; [exact Hp|].
  pose proof (preprocess_names _ _ Hp) as Hn.
  rewrite preprocess_unfold.
  assert (A : forall u, In u UNUSED_COLUMNS -> mem u (names df') = false).
  { intros u Hu. apply mem_false. rewrite Hn. intros Hin.
    apply filter_In in Hin. destruct Hin as [_ K]. unfold kept in K.
    apply (proj2 (mem_In u UNUSED_COLUMNS)) in Hu. rewrite Hu in K.
    discriminate. }
  unfold UNUSED_COLUMNS in *. cbn [filter].
  rewrite !A by (simpl; auto). reflexivity.
Qed.

Lemma preprocess_twice_witness :
  exists df',
    preprocess sample_train = Ok df'
    /\ preprocess df' = Err (KeyError ["fnlwgt"; "education"; "gender"]).
Proof. exact (preprocess_twice sample_train sample_train_encodable). Defined.

Lemma decode_code_of (cats : list string) (o : pyobj) :
  match decode cats (code_of cats o) with
  | Some s => o = PStr s /\ In s cats
  | None => code_of cats o = (-1)%Z /\ ~ in_vocabulary cats o
  end.
Proof.
  unfold decode. destruct o as [s|z|f]; simpl.
  - destruct (get_loc s cats) as [k|] eqn:G.
    + destruct (Z.ltb_spec (Z.of_nat k) 0) as [?|_]; [lia|].
      rewrite Nat2Z.id. destruct (get_loc_nth _ _ _ G) as [-> _].
      split; [reflexivity|]. apply get_loc_In. eauto.
    + simpl. split; [reflexivity|]. intros [s' [[= <-] Hin]].
      apply get_loc_In in Hin. destruct Hin as [k Hk]. congruence.
  - split; [reflexivity|]. intros [s [[=] _]].
  - split; [reflexivity|]. intros [s [[=] _]].
Qed.

(** X11.  The code of a categorical cell can be read back: the category
    at the position of the code is the text of the cell, and the code has
    no category (it is -1) exactly when the cell is missing or outside the
    vocabulary. *)
Theorem preprocess_decode
        (df : DataFrame) (name : string) (cats : list string)
        (i : nat) (o : pyobj) :
  encodable df ->
  categorical_type name = Ok cats ->
  value_at name i df = Some o ->
  exists df' k,
    preprocess df = Ok df'
    /\ code_at name i df' = Some k
    /\ match decode cats k with
       | Some s => o = PStr s /\ In s cats
       | None => k = (-1)%Z /\ ~ in_vocabulary cats o
       end.
Proof.
  intros He Hc Hv. apply preprocess_succeeds in He. destruct He as [df' Hp].
  exists df', (code_of cats o). split; [exact Hp|].
  split; [exact (preprocess_code_at _ _ _ _ _ _ Hp Hc Hv)|].
  apply decode_code_of.
Qed.

Lemma preprocess_decode_witness :
  exists df' k,
    preprocess sample_train = Ok df'
    /\ code_at "occupation" 1 df' = Some k
    /\ match decode (vocabulary "occupation") k with
       | Some s => PStr "Exec-managerial" = PStr s
                   /\ In s (vocabulary "occupation")
       | None => k = (-1)%Z
                 /\ ~ in_vocabulary (vocabulary "occupation")
                                    (PStr "Exec-managerial")
       end.
Proof.
  apply (preprocess_decode sample_train "occupation" (vocabulary "occupation")
           1 (PStr "Exec-managerial")).
  - exact sample_train_encodable.
  - reflexivity.
  - reflexivity.
Defined.

End PreprocessMore.

(** ** More on [standardize] *)

Module StandardizeMore.
Import Float Frame View Scenario.
Import FloatFacts ZscoreFacts FrameFacts NormalizeProps.
Local Open Scope list_scope.

(** X14.  A [float32] column with at most one row becomes [NaN] on
    every row, whatever it holds: the sample deviation of fewer than two
    values is [NaN], and so is every quotient by it. *)
Theorem standardize_single_row
        (df : DataFrame) (name : string) (vs : list fval) :
  NoDup (names df) ->
  get_col name (columns df) = Some (SFloat32 vs) ->
  length vs <= 1 ->
  get_col name (columns (standardize df))
  = Some (SFloat32 (map (fun _ => NaN) vs)).
Proof.
  intros Nd G Hl. rewrite standardize_get_col by exact Nd. rewrite G.
  cbn [option_map standardize_series]. now rewrite zscore_short.
Qed.

Lemma standardize_single_row_witness :
  get_col "age" (columns (standardize Samples.single_row))
  = Some (SFloat32 (map (fun _ => NaN) [of_Z32 39])).
Proof.
  apply (standardize_single_row Samples.single_row "age" [of_Z32 39]).
  - repeat constructor; simpl; intuition discriminate.
  - reflexivity.
  - simpl. lia.
Defined.

End StandardizeMore.


(** ** More on [load_data] *)

Module LoadMore.
Import Float Frame View Scenario Shape.
Import FloatFacts FrameFacts PreprocessFacts PipelineFacts LoadFacts.
Import EncodeProps NormalizeProps LoadProps PreprocessMore.
Local Open Scope list_scope.

Lemma select_split (A : Type) (i1 i2 : list label) (l : list A) :
  length l = length i1 + length i2 ->
  select (map (fun _ => true) i1 ++ map (fun _ => false) i2) l
  = firstn (length i1) l
  /\ select (map (fun _ => false) i1 ++ map (fun _ => true) i2) l
     = skipn (length i1) l.
Proof.
  intros H.
  assert (L1 : length (firstn (length i1) l) = length i1)
    by (rewrite length_firstn; lia).
  assert (L2 : length (skipn (length i1) l) = length i2)
    by (rewrite length_skipn; lia).
  rewrite <- (firstn_skipn (length i1) l) at 1 3.
  now rewrite select_first, select_second.
Qed.

(** The two parts that [xs] cuts out of a column, put end to end, are
    the column. *)
Lemma series_split (train_df eval_df : DataFrame) (s : series) :
  series_len s = length (index train_df) + length (index eval_df) ->
  series_len (select_series (train_mask train_df eval_df) s)
  = length (index train_df)
  /\ series_len (select_series (eval_mask train_df eval_df) s)
     = length (index eval_df)
  /\ dtype_str (select_series (train_mask train_df eval_df) s) = dtype_str s
  /\ dtype_str (select_series (eval_mask train_df eval_df) s) = dtype_str s
  /\ concat_series (select_series (train_mask train_df eval_df) s)
                   (select_series (eval_mask train_df eval_df) s) = s.
Proof.
  unfold train_mask, eval_mask.
  destruct s as [l|l|l|l|l]; simpl; intros H;
    destruct (select_split _ (index train_df) (index eval_df) l H)
      as [-> ->];
    rewrite length_firstn, length_skipn, firstn_skipn;
    repeat split; lia.
Qed.

Lemma standardize_series_len (s : series) :
  series_len (standardize_series s) = series_len s.
Proof.
  destruct s; try reflexivity. simpl. unfold zscore.
  now rewrite !length_map.
Qed.

Lemma feature_columns_eq :
  feature_columns
  = [ "age"; "workclass"; "education_num"; "marital_status"; "occupation";
      "relationship"; "race"; "capital_gain"; "capital_loss";
      "hours_per_week"; "native_country" ].
Proof. reflexivity. Qed.

(** The column names at each stage of a run that returns. *)
Lemma load_data_names (train_df eval_df : DataFrame) (r : Loaded) :
  parsed train_df -> parsed eval_df ->
  load_data_from train_df eval_df = Ok r ->
  names (train_x r) = feature_columns /\ names (eval_x r) = feature_columns.
Proof.
  intros Pt Pe H. unfold load_data_from in H.
  bind_inv H. destruct a as [[ty ey] all_x]. rename E into Ec.
  bind_inv H. rename a into tx, E into Ext.
  bind_inv H. rename a into ex, E into Exe.
  bind_inv H. bind_inv H. injection H as <-. cbn [train_x eval_x].
  assert (Na : names all_x = feature_columns).
  { unfold combined in Ec.
    bind_inv Ec. rename a1 into tdf, E1 into Et.
    bind_inv Ec. rename a1 into edf.
    bind_inv Ec. destruct a1 as [ty' tx'].
    bind_inv Ec. destruct a1 as [ey' ex'].
    bind_inv Ec. injection Ec as _ _ <-.
    match goal with Hc : concat _ _ _ _ = Ok _ |- _ =>
      apply concat_inv in Hc; destruct Hc as (Hn & _ & Cc) end.
    match goal with Hp : pop _ tdf = Ok _ |- _ =>
      apply pop_inv in Hp; destruct Hp as (_ & _ & Ct) end.
    unfold names. rewrite Cc, joined_names by exact Hn. rewrite Ct.
    rewrite (filter_map_fst (fun n => negb (String.eqb _LABEL_COLUMN n))).
    fold (names tdf). now rewrite (preprocess_parsed_names _ _ Pt Et). }
  assert (Nd : NoDup (names all_x)).
  { rewrite Na, feature_columns_eq.
    repeat (constructor; [simpl; intuition discriminate|]). constructor. }
  apply xs_inv in Ext. destruct Ext as [_ Ct].
  apply xs_inv in Exe. destruct Exe as [_ Ce].
  assert (M : forall mask cols,
             map fst (map (fun c : string * series =>
                             (fst c, select_series mask (snd c))) cols)
             = map fst cols)
    by (intros; rewrite map_map; reflexivity).
  pose proof (standardize_names all_x Nd) as Ns. unfold names in *.
  now rewrite Ct, Ce, !M, Ns.
Qed.

(** X16.  On two parsed tables that [preprocess] accepts, [load_data]
    returns [train_x] and [eval_x] with the same eleven feature columns in
    the same order, with as many rows as the table each comes from; every
    column of the standardized combined table is the column of [train_x]
    followed by the column of [eval_x], both with its dtype. *)
Theorem load_data_split (train_df eval_df : DataFrame) :
  parsed train_df -> parsed eval_df ->
  encodable train_df -> encodable eval_df ->
  exists r ty ey all_x,
    load_data_from train_df eval_df = Ok r
    /\ combined train_df eval_df = Ok (ty, ey, all_x)
    /\ names (train_x r) = names (eval_x r)
    /\ names (train_x r)
       = [ "age"; "workclass"; "education_num"; "marital_status";
           "occupation"; "relationship"; "race"; "capital_gain";
           "capital_loss"; "hours_per_week"; "native_country" ]
    /\ shape (train_x r) = (length (index train_df), 11)
    /\ shape (eval_x r) = (length (index eval_df), 11)
    /\ (forall name column,
           get_col name (columns (standardize all_x)) = Some column ->
           exists train_part eval_part,
             get_col name (columns (train_x r)) = Some train_part
             /\ get_col name (columns (eval_x r)) = Some eval_part
             /\ series_len train_part = length (index train_df)
             /\ series_len eval_part = length (index eval_df)
             /\ dtype_str train_part = dtype_str column
             /\ dtype_str eval_part = dtype_str column
             /\ concat_series train_part eval_part = column).
Proof.
  intros Pt Pe Ct Ce.
  destruct (load_data_total _ _ Pt Pe Ct Ce) as [r Hr].
  destruct (load_data_stages _ _ _ Pt Pe Hr)
    as (ty & ey & all_x & Hc & It & Ie & Tx & Ex & _).
  destruct (combined_stages _ _ _ _ _ Pt Pe Hc)
    as (tdf & edf & _ & _ & _ & _ & _ & Nd & Sh & _).
  destruct (load_data_names _ _ _ Pt Pe Hr) as [Nt Ne].
  exists r, ty, ey, all_x.
  split; [exact Hr|]. split; [exact Hc|].
  split; [congruence|]. split; [now rewrite Nt|].
  assert (Lt : length (columns (train_x r)) = 11).
  { rewrite <- (length_map fst). fold (names (train_x r)). now rewrite Nt. }
  assert (Le : length (columns (eval_x r)) = 11).
  { rewrite <- (length_map fst). fold (names (eval_x r)). now rewrite Ne. }
  split; [unfold shape; now rewrite It, Lt|].
  split; [unfold shape; now rewrite Ie, Le|].
  intros name column G. rewrite standardize_get_col in G by exact Nd.
  rewrite Tx, Ex. destruct (get_col name (columns all_x)) as [s|] eqn:Gs;
    [|discriminate].
  injection G as <-. cbn [option_map].
  rewrite Forall_forall in Sh.
  destruct (Sh _ (get_col_In _ _ _ Gs)) as [_ Ls]. cbn [snd] in Ls.
  rewrite <- standardize_series_len in Ls.
  destruct (series_split train_df eval_df _ Ls) as (A & B & C & D & E).
  eexists _, _. repeat split; eauto.
Qed.

Lemma load_data_split_witness :
  exists r ty ey all_x,
    load_data_from sample_train sample_eval = Ok r
    /\ combined sample_train sample_eval = Ok (ty, ey, all_x)
    /\ names (train_x r) = names (eval_x r)
    /\ names (train_x r)
       = [ "age"; "workclass"; "education_num"; "marital_status";
           "occupation"; "relationship"; "race"; "capital_gain";
           "capital_loss"; "hours_per_week"; "native_country" ]
    /\ shape (train_x r) = (length (index sample_train), 11)
    /\ shape (eval_x r) = (length (index sample_eval), 11)
    /\ (forall name column,
           get_col name (columns (standardize all_x)) = Some column ->
           exists train_part eval_part,
             get_col name (columns (train_x r)) = Some train_part
             /\ get_col name (columns (eval_x r)) = Some eval_part
             /\ series_len train_part = length (index sample_train)
             /\ series_len eval_part = length (index sample_eval)
             /\ dtype_str train_part = dtype_str column
             /\ dtype_str eval_part = dtype_str column
             /\ concat_series train_part eval_part = column).
Proof.
  exact (load_data_split sample_train sample_eval
           sample_train_parsed sample_eval_parsed
           sample_train_encodable sample_eval_encodable).
Defined.

(** *** How a run can fail *)

Lemma numeric_column_cases (n : string) :
  In n _CSV_COLUMNS -> kept n = true ->
  categorical_type n = Err (KeyError [n]) ->
  In n numeric_columns.
Proof.
  intros H K C. simpl in H.
  repeat (destruct H as [<-|H];
          [first [ discriminate K | discriminate C | (simpl; tauto) ]|]).
  contradiction.
Qed.

Lemma parsed_preprocess_Err (df : DataFrame) (e : error) :
  parsed df -> preprocess df = Err e ->
  exists n l,
    In (n, SObject l) (columns df) /\ In n numeric_columns
    /\ e = KeyError [n].
Proof.
  intros P H. destruct (preprocess_Err df e H) as [[_ N]|(n & l & Hin & K & C & ->)].
  - elim N. apply unused_present. destruct P as [-> _].
    intros u Hu. simpl in Hu. simpl. intuition (subst; auto 15).
  - exists n, l. repeat split; auto.
    apply numeric_column_cases; auto.
    destruct P as [<- _]. apply in_map_iff. now exists (n, SObject l).
Qed.

(** X17.  On two parsed tables, [load_data] either returns or raises
    [KeyError] with the name of one of the five numeric columns, which
    [read_csv] has parsed as [object] in one of the tables: a numeric
    column has no entry in [_CATEGORICAL_TYPES]. *)
Theorem load_data_outcome (train_df eval_df : DataFrame) :
  parsed train_df -> parsed eval_df ->
  (exists r, load_data_from train_df eval_df = Ok r)
  \/ (exists n l,
         (In (n, SObject l) (columns train_df)
          \/ In (n, SObject l) (columns eval_df))
         /\ In n ["age"; "education_num"; "capital_gain"; "capital_loss";
                  "hours_per_week"]
         /\ load_data_from train_df eval_df = Err (KeyError [n])).
Proof.
  intros Pt Pe.
  destruct (preprocess train_df) as [tdf|e] eqn:Et.
  - destruct (preprocess eval_df) as [edf|e] eqn:Ee.
    + left. apply load_data_total; auto; apply preprocess_succeeds; eauto.
    + right. destruct (parsed_preprocess_Err _ _ Pe Ee) as (n & l & Hin & Hn & ->).
      exists n, l. repeat split; auto.
      unfold load_data_from, combined. now rewrite Et, Ee.
  - right. destruct (parsed_preprocess_Err _ _ Pt Et) as (n & l & Hin & Hn & ->).
    exists n, l. repeat split; auto.
    unfold load_data_from, combined. now rewrite Et.
Qed.

Lemma load_data_outcome_witness :
  (exists r, load_data_from sample_train sample_eval = Ok r)
  \/ (exists n l,
         (In (n, SObject l) (columns sample_train)
          \/ In (n, SObject l) (columns sample_eval))
         /\ In n ["age"; "education_num"; "capital_gain"; "capital_loss";
                  "hours_per_week"]
         /\ load_data_from sample_train sample_eval = Err (KeyError [n])).
Proof.
  exact (load_data_outcome sample_train sample_eval
           sample_train_parsed sample_eval_parsed).
Defined.

End LoadMore.


(** ** [load_data] from a cold cache *)

Module EndToEnd.
Import PyStr Cleaning LineView Fetch Frame Load FetchProps FetchMore LoadFacts.

(** X18.  [load_data] on a cold cache with both URLs reachable and
    bodies of which the cleaning pass keeps a line: what it returns is
    what the pipeline makes of the two tables that [read_csv] returns
    for the cleaned bodies, after one request for each URL; a second
    call gives the same result and requests nothing. *)
Theorem load_data_cold_cache
        (remote : string -> option string) (temp_name : nat -> string)
        (tempdir : string) (read_csv : string -> result DataFrame)
        (w : world) (body1 body2 : string) (train_df eval_df : DataFrame) :
  (forall c, fs w (DATA_DIR tempdir) <> Some (File c)) ->
  fs w (path_join (DATA_DIR tempdir) TRAINING_FILE) = None ->
  fs w (path_join (DATA_DIR tempdir) EVAL_FILE) = None ->
  remote TRAINING_URL = Some body1 ->
  remote EVAL_URL = Some body2 ->
  keeps_a_line body1 -> keeps_a_line body2 ->
  (forall k p, In p [DATA_DIR tempdir;
                     path_join (DATA_DIR tempdir) TRAINING_FILE;
                     path_join (DATA_DIR tempdir) EVAL_FILE] ->
               temp_name k <> p) ->
  read_csv (clean_file body1) = Ok train_df ->
  read_csv (clean_file body2) = Ok eval_df ->
  exists w',
    load_data remote temp_name tempdir read_csv w
    = (load_data_from train_df eval_df, w')
    /\ requests w' = EVAL_URL :: TRAINING_URL :: requests w
    /\ load_data remote temp_name tempdir read_csv w'
       = (load_data_from train_df eval_df, w').
Proof.
  intros Nd Ht He R1 R2 K1 K2 Tn C1 C2.
  destruct (download_both_fetched remote temp_name _ body1 body2 w
              Nd Ht He R1 R2 K1 K2 Tn)
    as (w' & E & Rq & _ & Ft & Fe & Fd).
  exists w'. split; [|split; [exact Rq|]].
  - unfold load_data. unfold bindIO at 1. rewrite E. cbn [fst snd].
    unfold bindIO, read_file, lift. now rewrite Ft, C1, Fe, C2.
  - exact (load_data_cached remote temp_name tempdir read_csv w' _ _ _ _
             Fd Ft Fe C1 C2).
Qed.

Lemma load_data_cold_cache_witness :
  exists w',
    load_data Samples.census_remote Samples.sample_temp "/tmp"
              Samples.sample_read_csv Samples.cold_world
    = (load_data_from Scenario.sample_train Scenario.sample_eval, w')
    /\ requests w' = [EVAL_URL; TRAINING_URL]
    /\ load_data Samples.census_remote Samples.sample_temp "/tmp"
                 Samples.sample_read_csv w'
       = (load_data_from Scenario.sample_train Scenario.sample_eval, w').
Proof.
  apply (load_data_cold_cache Samples.census_remote Samples.sample_temp
           "/tmp" Samples.sample_read_csv Samples.cold_world
           Samples.training_body Samples.eval_body
           Scenario.sample_train Scenario.sample_eval).
  - discriminate.
  - reflexivity.
  - reflexivity.
  - reflexivity.
  - reflexivity.
  - exact training_body_kept.
  - exact eval_body_kept.
  - exact sample_temp_fresh.
  - reflexivity.
  - reflexivity.
Defined.

End EndToEnd.


(** ** The input pipeline of [trainer/model.py] *)

Module ModelFacts.
Import Model.
Local Open Scope list_scope.

Section Chunks.

Context {A : Type}.
Variable size : nat.
Hypothesis size_pos : 0 < size.

Lemma chunk_cons (fuel : nat) (a : A) (l : list A) :
  chunk (S fuel) size (a :: l)
  = firstn size (a :: l) :: chunk fuel size (skipn size (a :: l)).
Proof. reflexivity. Qed.

Lemma skipn_shorter (a : A) (l : list A) (fuel : nat) :
  length (a :: l) <= S fuel -> length (skipn size (a :: l)) <= fuel.
Proof. rewrite length_skipn. cbn [length]. lia. Qed.

Lemma chunk_concat (fuel : nat) (l : list A) :
  length l <= fuel -> concat (chunk fuel size l) = l.
Proof.
  revert l. induction fuel as [|fuel IH]; intros [|a l] H;
    try reflexivity; [simpl in H; lia|].
  rewrite chunk_cons. cbn [concat].
  rewrite IH by now apply skipn_shorter.
  apply firstn_skipn.
Qed.

Lemma chunk_sizes (fuel : nat) (l : list A) :
  length l <= fuel ->
  Forall (fun c => 1 <= length c <= size) (chunk fuel size l).
Proof.
  revert l. induction fuel as [|fuel IH]; intros [|a l] H.
  - constructor.
  - constructor.
  - constructor.
  - rewrite chunk_cons. constructor.
    + rewrite length_firstn. cbn [length]. lia.
    + apply IH. now apply skipn_shorter.
Qed.

Lemma chunk_count (fuel : nat) (l : list A) :
  length l <= fuel ->
  length (chunk fuel size l) = (length l + size - 1) / size.
Proof.
  revert l. induction fuel as [|fuel IH]; intros [|a l] H.
  - simpl. symmetry. apply Nat.div_small. lia.
  - simpl in H. lia.
  - simpl. symmetry. apply Nat.div_small. lia.
  - rewrite chunk_cons.
    change (length (firstn size (a :: l)
                    :: chunk fuel size (skipn size (a :: l))))
      with (S (length (chunk fuel size (skipn size (a :: l))))).
    rewrite IH by now apply skipn_shorter.
    rewrite length_skipn. set (n := length (a :: l)).
    assert (Hn : 1 <= n) by (subst n; simpl; lia).
    destruct (Nat.le_gt_cases size n) as [G|Hs].
    + replace (n + size - 1) with ((n - size + size - 1) + 1 * size) by lia.
      rewrite Nat.div_add by lia. lia.
    + replace (n - size + size - 1) with (size - 1) by lia.
      rewrite (Nat.div_small (size - 1)) by lia.
      apply (Nat.div_unique _ _ 1 (n - 1)); lia.
Qed.

(** The batches that come before the [length l / size]-th are full. *)
Lemma chunk_full (fuel : nat) (l : list A) (i : nat) :
  length l <= fuel -> i < length l / size ->
  length (nth i (chunk fuel size l) []) = size.
Proof.
  revert l i. induction fuel as [|fuel IH]; intros [|a l] i H Hi.
  - rewrite Nat.div_small in Hi by (simpl; lia). lia.
  - simpl in H. lia.
  - rewrite Nat.div_small in Hi by (simpl; lia). lia.
  - set (n := length (a :: l)) in *.
    assert (G : size <= n).
    { destruct (Nat.le_gt_cases size n) as [G|Hs]; [exact G|].
      rewrite Nat.div_small in Hi by exact Hs. lia. }
    rewrite chunk_cons. destruct i as [|i].
    + cbn [nth]. rewrite length_firstn. fold n. lia.
    + cbn [nth]. apply IH; [now apply skipn_shorter|].
      rewrite length_skipn. fold n.
      replace n with ((n - size) + 1 * size) in Hi by lia.
      rewrite Nat.div_add in Hi by lia. lia.
Qed.

Lemma chunk_fuel (fuel1 fuel2 : nat) (l : list A) :
  length l <= fuel1 -> length l <= fuel2 ->
  chunk fuel1 size l = chunk fuel2 size l.
Proof.
  revert fuel2 l. induction fuel1 as [|fuel1 IH]; intros [|fuel2] [|a l] H1 H2;
    try reflexivity; try (simpl in *; lia).
  rewrite !chunk_cons. f_equal. apply IH; now apply skipn_shorter.
Qed.

End Chunks.

(** Batches of the size of the data, over whole copies of the data: one
    batch per copy. *)
Lemma chunk_copies (A : Type) (ds : list A) (count fuel : nat) :
  ds <> [] ->
  length (flat_map (fun _ : nat => ds) (seq 0 count)) <= fuel ->
  chunk fuel (length ds) (flat_map (fun _ : nat => ds) (seq 0 count))
  = repeat ds count.
Proof.
  intros N.
  assert (P : 0 < length ds) by (destruct ds; [congruence | simpl; lia]).
  assert (C : forall a n, flat_map (fun _ : nat => ds) (seq a n)
                          = flat_map (fun _ : nat => ds) (seq 0 n)).
  { intros a n. revert a. induction n as [|n IH]; intros a; [reflexivity|].
    cbn [seq flat_map]. now rewrite (IH (S a)), (IH 1). }
  revert fuel. induction count as [|count IH]; intros fuel H.
  - simpl. now destruct fuel.
  - assert (E0 : flat_map (fun _ : nat => ds) (seq 0 (S count))
                 = ds ++ flat_map (fun _ : nat => ds) (seq 0 count))
      by (cbn [seq flat_map]; now rewrite C).
    rewrite E0 in *. clear E0.
    destruct fuel as [|fuel].
    { rewrite length_app in H. lia. }
    assert (HL : length (flat_map (fun _ : nat => ds) (seq 0 count)) <= fuel)
      by (rewrite length_app in H; lia).
    destruct (ds ++ flat_map (fun _ : nat => ds) (seq 0 count)) as [|a l] eqn:E.
    { destruct ds; [congruence | discriminate]. }
    rewrite (chunk_cons (length ds) fuel a l), <- E.
    rewrite firstn_app, Nat.sub_diag, firstn_all, firstn_O, app_nil_r.
    rewrite skipn_app, Nat.sub_diag, skipn_all, skipn_O. cbn [app repeat].
    f_equal. now apply IH.
Qed.

Section Pipeline.

Variables F L : Type.
Variable draw : nat -> list (element F L) -> list (element F L).

Lemma slices_length (features : list F) (labels : option (list L)) :
  aligned F L features labels ->
  length (slices F L features labels) = length features.
Proof.
  destruct labels as [ls|]; simpl; intros H; rewrite length_map; auto.
  rewrite length_combine. lia.
Qed.

Lemma from_tensor_slices_aligned (features : list F) (labels : option (list L)) :
  aligned F L features labels ->
  from_tensor_slices F L features labels = Done (slices F L features labels).
Proof.
  destruct labels as [ls|]; simpl; [|reflexivity].
  intros ->. now rewrite Nat.eqb_refl.
Qed.

(** [input_fn] when it returns: the batches of the stream of passes. *)
Lemma input_fn_stream (features : list F) (labels : option (list L))
      (shuffle : bool) (num_epochs batch_size : nat) :
  aligned F L features labels ->
  0 < batch_size ->
  (shuffle = true -> features <> []) ->
  input_fn F L draw features labels shuffle num_epochs batch_size
  = Done (chunk (length (flat_map (pass F L draw shuffle
                                        (slices F L features labels))
                                  (seq 0 num_epochs)))
                batch_size
                (flat_map (pass F L draw shuffle (slices F L features labels))
                          (seq 0 num_epochs))).
Proof.
  intros Ha Hb Hs. unfold input_fn.
  rewrite (from_tensor_slices_aligned _ _ Ha).
  assert (Eb : Nat.eqb batch_size 0 = false) by (apply Nat.eqb_neq; lia).
  destruct shuffle.
  - unfold shuffle_.
    assert (En : Nat.eqb (length features) 0 = false).
    { apply Nat.eqb_neq. specialize (Hs eq_refl).
      destruct features; [congruence | simpl; lia]. }
    rewrite En. unfold batch, repeat_. now rewrite Eb.
  - unfold batch, repeat_. now rewrite Eb.
Qed.

(** X19.  With rows that can be paired, a positive batch size and, when
    shuffling, at least one row, [input_fn] returns batches that, put end
    to end, are the passes over the data one after the other; no batch is
    empty or longer than the batch size, all but possibly the last are
    full, and their number is the stream length divided by the batch size,
    rounded up. *)
Theorem input_fn_batches (features : list F) (labels : option (list L))
        (shuffle : bool) (num_epochs batch_size : nat) :
  aligned F L features labels ->
  0 < batch_size ->
  (shuffle = true -> features <> []) ->
  exists batches,
    input_fn F L draw features labels shuffle num_epochs batch_size
    = Done batches
    /\ concat batches
       = flat_map (pass F L draw shuffle (slices F L features labels))
                  (seq 0 num_epochs)
    /\ Forall (fun b => 1 <= length b <= batch_size) batches
    /\ (forall i, i < length (concat batches) / batch_size ->
                  length (nth i batches []) = batch_size)
    /\ length batches
       = (length (concat batches) + batch_size - 1) / batch_size.
Proof.
  intros Ha Hb Hs. eexists. split; [now apply input_fn_stream|].
  set (stream := flat_map _ _).
  assert (C : concat (chunk (length stream) batch_size stream) = stream)
    by now apply chunk_concat.
  rewrite C. repeat split.
  - now apply chunk_sizes.
  - intros i Hi. now apply chunk_full.
  - now apply chunk_count.
Qed.

(** *** Passes that permute the data *)

Hypothesis draw_permutes : forall k l, Permutation (draw k l) l.

Lemma pass_permutes (shuffle : bool) (ds : list (element F L)) (k : nat) :
  Permutation (pass F L draw shuffle ds k) ds.
Proof. unfold pass. destruct shuffle; [apply draw_permutes | reflexivity]. Qed.

Lemma stream_block (p : nat -> list (element F L)) (n : nat) :
  (forall k, length (p k) = n) ->
  forall k a count, k < count ->
    firstn n (skipn (k * n) (flat_map p (seq a count))) = p (a + k).
Proof.
  intros Hp. induction k as [|k IH]; intros a [|count] Hk; try lia.
  - cbn [seq flat_map Nat.mul skipn]. rewrite Nat.add_0_r.
    rewrite firstn_app, <- (Hp a), Nat.sub_diag, firstn_all, firstn_O.
    apply app_nil_r.
  - cbn [seq flat_map]. rewrite skipn_app.
    rewrite skipn_all2 by (rewrite Hp; simpl; lia).
    rewrite Hp. replace (S k * n - n) with (k * n) by (simpl; lia).
    cbn [app]. rewrite IH by lia. f_equal. lia.
Qed.

Lemma stream_permutes (p : nat -> list (element F L))
      (ds : list (element F L)) (a count : nat) :
  (forall k, Permutation (p k) ds) ->
  Permutation (flat_map p (seq a count))
              (flat_map (fun _ => ds) (seq a count)).
Proof.
  intros Hp. revert a. induction count as [|count IH]; intros a; [constructor|].
  cbn [seq flat_map]. apply Permutation_app; [apply Hp | apply IH].
Qed.

Lemma stream_length (p : nat -> list (element F L)) (n a count : nat) :
  (forall k, length (p k) = n) ->
  length (flat_map p (seq a count)) = count * n.
Proof.
  intros Hp. revert a. induction count as [|count IH]; intros a; [reflexivity|].
  cbn [seq flat_map]. rewrite length_app, Hp, IH. simpl. lia.
Qed.

(** X20.  Epochs do not blend: when every shuffled pass is a
    permutation of the data, the [k]-th block of [len(features)] elements
    of the batched stream is a permutation of the data set, so each
    example occurs once in every epoch; the stream holds
    [num_epochs * len(features)] elements and nothing that is not an
    example of the data. *)
Theorem input_fn_epochs (features : list F) (labels : option (list L))
        (shuffle : bool) (num_epochs batch_size : nat) :
  aligned F L features labels ->
  0 < batch_size ->
  (shuffle = true -> features <> []) ->
  exists batches,
    input_fn F L draw features labels shuffle num_epochs batch_size
    = Done batches
    /\ (forall k, k < num_epochs ->
                  Permutation
                    (firstn (length features)
                            (skipn (k * length features) (concat batches)))
                    (slices F L features labels))
    /\ length (concat batches) = num_epochs * length features
    /\ (forall b x, In b batches -> In x b ->
                    In x (slices F L features labels)).
Proof.
  intros Ha Hb Hs. eexists. split; [now apply input_fn_stream|].
  set (ds := slices F L features labels).
  set (stream := flat_map _ _).
  assert (C : concat (chunk (length stream) batch_size stream) = stream)
    by now apply chunk_concat.
  assert (Ln : forall k, length (pass F L draw shuffle ds k) = length features).
  { intros k. rewrite (Permutation_length (pass_permutes shuffle ds k)).
    now apply slices_length. }
  rewrite C. repeat split.
  - intros k Hk. unfold stream.
    rewrite (stream_block _ _ Ln k 0 num_epochs Hk). apply pass_permutes.
  - unfold stream. now apply stream_length.
  - intros b x Hin Hx.
    assert (Hs' : In x stream).
    { rewrite <- C. apply in_concat. eauto. }
    unfold stream in Hs'. apply in_flat_map in Hs'.
    destruct Hs' as [k [_ Hk]].
    exact (Permutation_in _ (pass_permutes shuffle ds k) Hk).
Qed.

(** X21.  The validation dataset of [train_and_evaluate], batched by
    the number of evaluation examples and not shuffled, is [num_epochs]
    batches, each the whole evaluation set in its order. *)
Theorem validation_batches (features : list F) (labels : list L)
        (num_epochs : nat) :
  length features = length labels ->
  features <> [] ->
  Task.validation_dataset F L draw features labels num_epochs
  = Done (repeat (slices F L features (Some labels)) num_epochs).
Proof.
  intros Ha Hn. unfold Task.validation_dataset.
  assert (Hp : 0 < length features)
    by (destruct features; [congruence | simpl; lia]).
  rewrite input_fn_stream; [| exact Ha | exact Hp | discriminate].
  f_equal. unfold pass.
  rewrite <- (slices_length features (Some labels) Ha).
  apply chunk_copies; [|lia].
  intros E. apply (f_equal (@length _)) in E.
  rewrite (slices_length features (Some labels) Ha) in E. simpl in E. lia.
Qed.

(** X22.  [steps_per_epoch] is the number of full batches in one pass
    over the training examples, and the training dataset is long enough
    for [fit]: it holds at least [num_epochs * steps_per_epoch] batches,
    and each of the first [num_epochs * steps_per_epoch] is full. *)
Theorem training_steps (features : list F) (labels : list L)
        (num_epochs batch_size : nat) :
  length features = length labels ->
  features <> [] ->
  0 < batch_size ->
  exists steps batches,
    Task.steps_per_epoch (length features) batch_size = Done steps
    /\ Task.training_dataset F L draw features labels num_epochs batch_size
       = Done batches
    /\ steps * batch_size <= length features < (steps + 1) * batch_size
    /\ num_epochs * steps <= length batches
    /\ (forall i, i < num_epochs * steps ->
                  length (nth i batches []) = batch_size).
Proof.
  intros Ha Hn Hb.
  assert (Eb : Nat.eqb batch_size 0 = false) by (apply Nat.eqb_neq; lia).
  exists (length features / batch_size). eexists.
  split; [unfold Task.steps_per_epoch; now rewrite Eb|].
  split; [unfold Task.training_dataset; now apply input_fn_stream|].
  set (ds := slices F L features (Some labels)).
  set (stream := flat_map _ _).
  assert (Ln : forall k, length (pass F L draw true ds k) = length features).
  { intros k. rewrite (Permutation_length (pass_permutes true ds k)).
    now apply (slices_length features (Some labels)). }
  assert (Ls : length stream = num_epochs * length features)
    by (unfold stream; now apply stream_length).
  set (n := length features) in *.
  assert (D : n = batch_size * (n / batch_size) + n mod batch_size)
    by (apply Nat.div_mod_eq).
  assert (M : n mod batch_size < batch_size) by (apply Nat.mod_upper_bound; lia).
  assert (Q : num_epochs * (n / batch_size) <= length stream / batch_size).
  { apply Nat.div_le_lower_bound; [lia|]. rewrite Ls. nia. }
  split; [nia|]. split.
  - rewrite chunk_count by (auto; lia).
    etransitivity; [exact Q|]. apply Nat.Div0.div_le_mono. lia.
  - intros i Hi. apply chunk_full; auto. lia.
Qed.

End Pipeline.

(** *** The theorems on five examples, with a shuffle that reverses *)

Lemma reversing_permutes (k : nat) (l : list (element nat bool)) :
  Permutation (Samples.reversing k l) l.
Proof. apply Permutation_sym, Permutation_rev. Qed.

Lemma input_fn_batches_witness :
  exists batches,
    input_fn nat bool Samples.reversing Samples.five_features
             (Some Samples.five_labels) true 2 4
    = Done batches
    /\ concat batches
       = flat_map (pass nat bool Samples.reversing true
                        (slices nat bool Samples.five_features
                                (Some Samples.five_labels)))
                  (seq 0 2)
    /\ Forall (fun b => 1 <= length b <= 4) batches
    /\ (forall i, i < length (concat batches) / 4 ->
                  length (nth i batches []) = 4)
    /\ length batches = (length (concat batches) + 4 - 1) / 4.
Proof.
  apply (input_fn_batches nat bool Samples.reversing Samples.five_features
           (Some Samples.five_labels) true 2 4).
  - reflexivity.
  - lia.
  - discriminate.
Defined.

Lemma input_fn_epochs_witness :
  exists batches,
    input_fn nat bool Samples.reversing Samples.five_features
             (Some Samples.five_labels) true 2 4
    = Done batches
    /\ (forall k, k < 2 ->
                  Permutation
                    (firstn (length Samples.five_features)
                            (skipn (k * length Samples.five_features)
                                   (concat batches)))
                    (slices nat bool Samples.five_features
                            (Some Samples.five_labels)))
    /\ length (concat batches) = 2 * length Samples.five_features
    /\ (forall b x, In b batches -> In x b ->
                    In x (slices nat bool Samples.five_features
                                 (Some Samples.five_labels))).
Proof.
  apply (input_fn_epochs nat bool Samples.reversing reversing_permutes
           Samples.five_features (Some Samples.five_labels) true 2 4).
  - reflexivity.
  - lia.
  - discriminate.
Defined.

Lemma validation_batches_witness :
  Task.validation_dataset nat bool Samples.reversing Samples.five_features
                          Samples.five_labels 2
  = Done (repeat (slices nat bool Samples.five_features
                         (Some Samples.five_labels)) 2).
Proof.
  apply (validation_batches nat bool Samples.reversing Samples.five_features
           Samples.five_labels 2).
  - reflexivity.
  - discriminate.
Defined.

Lemma training_steps_witness :
  exists steps batches,
    Task.steps_per_epoch (length Samples.five_features) 2 = Done steps
    /\ Task.training_dataset nat bool Samples.reversing Samples.five_features
                             Samples.five_labels 3 2
       = Done batches
    /\ steps * 2 <= length Samples.five_features < (steps + 1) * 2
    /\ 3 * steps <= length batches
    /\ (forall i, i < 3 * steps -> length (nth i batches []) = 2).
Proof.
  apply (training_steps nat bool Samples.reversing reversing_permutes
           Samples.five_features Samples.five_labels 3 2).
  - reflexivity.
  - discriminate.
  - lia.
Defined.

End ModelFacts.

